(** * claude-profiles: a shallow embedding of the profile synchronisation engine

  The definitions below follow [claude-profiles.mjs]: the path filter used
  while a snapshot is archived and hashed, the size classification of an
  archive, the conversion of credential records, the verification of a
  downloaded profile, the store operation with its staging directory, and
  the scheduler of watch mode. *)

From Stdlib Require Import ZArith List String Ascii Bool Lia DecimalString Permutation.
Import ListNotations.

Local Open Scope string_scope.

(** ** Strings as the code uses them *)

Module Str.

(** The character [\], written by its code so that no string literal of this
    file ends in it. *)
Definition backslash : ascii := "092"%char.
Definition slash : ascii := "/"%char.

(** The line feed, as a string. *)
Definition newline : string := String "010"%char "".

(** [s.startsWith(p)]. *)
Definition startsWith (s p : string) : bool := String.prefix p s.

(** The separator class of the regular expression [/[/\\]/]. *)
Definition isSep (c : ascii) : bool :=
  Ascii.eqb c slash || Ascii.eqb c backslash.

(** [s.split(/[/\\]/)]: every separator character ends a segment, adjacent
    separators give empty segments, and the empty string gives one empty
    segment. *)
Fixpoint split (s : string) : list string :=
  match s with
  | EmptyString => [EmptyString]
  | String c rest =>
      if isSep c then EmptyString :: split rest
      else match split rest with
           | [] => [String c EmptyString]
           | p :: ps => String c p :: ps
           end
  end.

(** [s.includes(sub)]. *)
Fixpoint includes (s sub : string) : bool :=
  startsWith s sub
  || match s with
     | EmptyString => false
     | String _ rest => includes rest sub
     end.

(** No character of [s] is a separator. *)
Fixpoint sepFree (s : string) : bool :=
  match s with
  | EmptyString => true
  | String c rest => negb (isSep c) && sepFree rest
  end.

End Str.

(** ** PathFilter: which relative paths of [~/.claude] enter a snapshot *)

Module PathFilter.
Import Str.

(** An entry of [BACKUP_PATHS]; an absent [canSkipProjects] or
    [skipProjects] property reads as [false]. *)
Record BackupPath := mkBackupPath {
  source : string;
  dest : string;
  canSkipProjects : bool;
  skipProjects : bool
}.

Record Options := mkOptions { optSkipProjects : bool }.

Definition BACKUP_PATHS : list BackupPath :=
  [ mkBackupPath "~/.claude" ".claude" true false;
    mkBackupPath "~/.claude.json" ".claude.json" false false;
    mkBackupPath "~/.claude.json.backup" ".claude.json.backup" false false ].

(** [getBackupPaths(options)]. *)
Definition getBackupPaths (options : Options) : list BackupPath :=
  if optSkipProjects options then
    map (fun item =>
           if canSkipProjects item
           then mkBackupPath (source item) (dest item) (canSkipProjects item) true
           else item)
        BACKUP_PATHS
  else BACKUP_PATHS.

Definition projectsSlash : string := "projects/".
Definition projectsBackslash : string := "projects" ++ String backslash "".
Definition dotClaude : string := ".claude".

(** The first test of the archive filter:
    [file.startsWith('projects/') || file.startsWith('projects\\')]. *)
Definition inProjectsFolder (file : string) : bool :=
  startsWith file projectsSlash || startsWith file projectsBackslash.

(** The loop [for (let i = 0; i < pathParts.length; i++)] of the archive
    filter, from index [i] on: [true] when it reaches its [return false],
    that is when [pathParts[i] === '.claude' && i > 0] for some index. *)
Fixpoint nestedClaudeFrom (i : nat) (pathParts : list string) : bool :=
  match pathParts with
  | [] => false
  | part :: rest =>
      if String.eqb part dotClaude && Nat.ltb 0 i then true
      else nestedClaudeFrom (S i) rest
  end.

Definition nestedClaude (pathParts : list string) : bool :=
  nestedClaudeFrom 0 pathParts.

(** The callback of [files.filter(...)] in [saveProfile] and
    [saveProfileSilent]: [true] keeps the path. *)
Definition archiveFilter (file : string) : bool :=
  if inProjectsFolder file then false
  else if nestedClaude (split file) then false
  else true.

(** The callback of [files.filter(...)] in [calculateFilesHash]. *)
Definition hashFilter (file : string) : bool :=
  negb (startsWith file projectsSlash) && negb (startsWith file projectsBackslash).

(** [filteredFiles] of [saveProfile] for a directory entry with
    [item.skipProjects]; without it the directory is archived whole. *)
Definition archivedPaths (item : BackupPath) (files : list string) : list string :=
  if skipProjects item then filter archiveFilter files else files.

(** [filteredFiles] of [calculateFilesHash]. *)
Definition hashedPaths (item : BackupPath) (files : list string) : list string :=
  if skipProjects item then filter hashFilter files else files.

(** The [~/.claude] entry as [getBackupPaths] returns it when the option
    [skipProjects] is set. *)
Definition claudeEntrySkipping : BackupPath :=
  mkBackupPath "~/.claude" ".claude" true true.

(** The exclusion rule as the specification words it: some whole segment,
    at any depth, is the name of the excluded subtree (this covers the path
    that is the subtree itself). *)
Definition specExcludesSubtree (file : string) : bool :=
  existsb (String.eqb "projects") (split file).

End PathFilter.

(** ** SizeGuard: the size classification of an archive *)

Module SizeGuard.
Local Open Scope Z_scope.

(** [GIST_SIZE_LIMIT_API], [GIST_SIZE_LIMIT_WEB] and [GIST_SIZE_WARNING]. *)
Definition GIST_SIZE_LIMIT_API : Z := 40 * 1024 * 1024.
Definition GIST_SIZE_LIMIT_WEB : Z := 20 * 1024 * 1024.
Definition GIST_SIZE_WARNING : Z := 10 * 1024 * 1024.

(** The literal [1.33] denotes the binary64 number nearest to it, which is
    [mantissa133 / 2 ^ 49] (bit pattern [0x3FF547AE147AE148]). *)
Definition mantissa133 : Z := 748723438050345.
Definition scale133 : Z := 2 ^ 49.

(** The rounding step at the exponent [s]: [p] is cut to a multiple of
    [2 ^ s], to nearest and ties to even. *)
Definition roundAt (s p : Z) : Z :=
  (if (2 ^ (s - 1) <? p mod 2 ^ s) || ((p mod 2 ^ s =? 2 ^ (s - 1)) && Z.odd (p / 2 ^ s))
   then p / 2 ^ s + 1 else p / 2 ^ s) * 2 ^ s.

(** Rounding of a non-negative integer to 53 significant bits, to nearest
    and ties to even: the rounding of binary64 arithmetic, on the numerator
    of a dyadic fraction. *)
Definition round53pos (p : Z) : Z :=
  let s := Z.log2 p - 52 in
  if s <=? 0 then p else roundAt s p.

Definition round53 (p : Z) : Z :=
  if p <? 0 then - round53pos (- p) else round53pos p.

(** [Math.ceil(sizeBytes * 1.33)] for an integer [sizeBytes] (every byte
    length below [2 ^ 53] is a binary64 number): the exact product is
    [sizeBytes * mantissa133 / 2 ^ 49], the multiplication rounds it to
    binary64, and [Math.ceil] takes the least integer not below the result. *)
Definition ceilTimes133 (sizeBytes : Z) : Z :=
  - ((- round53 (sizeBytes * mantissa133)) / scale133).

(** The object returned by [checkArchiveSize]. *)
Record SizeCheck := mkSizeCheck {
  size : Z;
  actualUploadSize : Z;
  sizeFormatted : string;
  actualSizeFormatted : string;
  withinLimit : bool;
  isLarge : bool;
  exceedsWebLimit : bool;
  exceedsApiLimit : bool
}.

Section Classification.

(** [formatBytes], which prints a size through [Math.log] and [toFixed]; the
    classification only stores its results. *)
Variable formatBytes : Z -> string.

(** [checkArchiveSize(sizeBytes, isBase64Encoded)]. *)
Definition checkArchiveSize (sizeBytes : Z) (isBase64Encoded : bool) : SizeCheck :=
  let actualSize := if isBase64Encoded then sizeBytes else ceilTimes133 sizeBytes in
  {| size := sizeBytes;
     actualUploadSize := actualSize;
     sizeFormatted := formatBytes sizeBytes;
     actualSizeFormatted := formatBytes actualSize;
     withinLimit := actualSize <=? GIST_SIZE_LIMIT_API;
     isLarge := GIST_SIZE_WARNING <? actualSize;
     exceedsWebLimit := GIST_SIZE_LIMIT_WEB <? actualSize;
     exceedsApiLimit := GIST_SIZE_LIMIT_API <? actualSize |}.

End Classification.

End SizeGuard.

(** ** JavaScript values as [JSON.parse] produces them *)

Module Js.

(** The result of an expression that may throw; [Throw] carries the
    message of the error. *)
Inductive result (A : Type) : Type :=
| Ok (a : A)
| Throw (message : string).
Arguments Ok {A} a.
Arguments Throw {A} message.

Definition resultBind {A B : Type} (r : result A) (k : A -> result B) : result B :=
  match r with
  | Ok a => k a
  | Throw message => Throw message
  end.

Notation "x <- c ;; k" := (resultBind c (fun x => k))
  (at level 61, c at next level, right associativity).

Section Values.

(** The numbers of the language and the test for the ones that count as
    false ([+0], [-0] and [NaN]). *)
Variable num : Type.
Variable numFalsy : num -> bool.

(** A value: [undefined] (what reading an absent property gives), and the
    values of JSON. An object is the list of its own properties in
    insertion order; the first binding of a key is the one read. *)
#[warnings="-register-all"]
Inductive value : Type :=
| VUndefined
| VNull
| VBool (b : bool)
| VNum (n : num)
| VStr (s : string)
| VArr (items : list value)
| VObj (fields : list (string * value)).

(** Truthiness, as [if (v)], [!v], [a || b] and [a && b] test it. *)
Definition truthy (v : value) : bool :=
  match v with
  | VUndefined | VNull => false
  | VBool b => b
  | VNum n => negb (numFalsy n)
  | VStr s => negb (String.eqb s "")
  | VArr _ | VObj _ => true
  end.

Fixpoint lookup (key : string) (fields : list (string * value)) : value :=
  match fields with
  | [] => VUndefined
  | (k, v) :: rest => if String.eqb k key then v else lookup key rest
  end.

(** [v.key] for the property names the code reads, none of which lives on a
    prototype: an own property of an object, [undefined] on any other value,
    and a [TypeError] on [null] and [undefined]. *)
Definition getProp (v : value) (key : string) : result value :=
  match v with
  | VUndefined => Throw ("Cannot read properties of undefined (reading '" ++ key ++ "')")
  | VNull => Throw ("Cannot read properties of null (reading '" ++ key ++ "')")
  | VObj fields => Ok (lookup key fields)
  | VBool _ | VNum _ | VStr _ | VArr _ => Ok VUndefined
  end.

(** [a || b] *)
Definition jsOr (a b : value) : value := if truthy a then a else b.

(** [a ?? b], the operator the specification names. *)
Definition nullishOr (a b : value) : value :=
  match a with
  | VUndefined | VNull => b
  | _ => a
  end.

(** [v === undefined || v === null] *)
Definition isNullish (v : value) : bool :=
  match v with
  | VUndefined | VNull => true
  | _ => false
  end.

End Values.

Arguments VUndefined {num}.
Arguments VNull {num}.
Arguments VBool {num} b.
Arguments VNum {num} n.
Arguments VStr {num} s.
Arguments VArr {num} items.
Arguments VObj {num} fields.
Arguments lookup {num} key fields.
Arguments getProp {num} v key.
Arguments nullishOr {num} a b.
Arguments isNullish {num} v.

End Js.

(** ** CredentialBridge: conversion between the credential formats *)

Module Credentials.
Import Js.

Section Convert.

Variable num : Type.
Variable numFalsy : num -> bool.

Abbreviation value := (Js.value num).
Abbreviation truthy := (Js.truthy num numFalsy).
Abbreviation jsOr := (Js.jsOr num numFalsy).

(** The object literal built from a record in the format with underscores. *)
Definition wrapLegacy (access_token refresh_token expiry_date expiresAt
                       scopes subscriptionType : value) : value :=
  VObj [("claudeAiOauth",
         VObj [("accessToken", access_token);
               ("refreshToken", refresh_token);
               ("expiresAt", jsOr expiry_date expiresAt);
               ("scopes", jsOr scopes (VArr [VStr "user:inference"]));
               ("subscriptionType", jsOr subscriptionType (VStr "max"))])].

(** [convertCredentialsFormat(credentials, targetPlatform)], branch by
    branch as the code has it. *)
Definition convertCredentialsFormat (credentials : value) (targetPlatform : string)
  : result value :=
  if String.eqb targetPlatform "darwin" then
    claudeAiOauth <- getProp credentials "claudeAiOauth" ;;
    if truthy claudeAiOauth then Ok credentials
    else
      access_token <- getProp credentials "access_token" ;;
      if truthy access_token then
        refresh_token <- getProp credentials "refresh_token" ;;
        expiry_date <- getProp credentials "expiry_date" ;;
        expiresAt <- getProp credentials "expiresAt" ;;
        scopes <- getProp credentials "scopes" ;;
        subscriptionType <- getProp credentials "subscriptionType" ;;
        Ok (wrapLegacy access_token refresh_token expiry_date expiresAt
                       scopes subscriptionType)
      else
        accessToken <- getProp credentials "accessToken" ;;
        if truthy accessToken then Ok (VObj [("claudeAiOauth", credentials)])
        else Ok credentials
  else
    claudeAiOauth <- getProp credentials "claudeAiOauth" ;;
    if truthy claudeAiOauth then Ok credentials
    else
      access_token <- getProp credentials "access_token" ;;
      if truthy access_token then
        refresh_token <- getProp credentials "refresh_token" ;;
        expiry_date <- getProp credentials "expiry_date" ;;
        expiresAt <- getProp credentials "expiresAt" ;;
        scopes <- getProp credentials "scopes" ;;
        subscriptionType <- getProp credentials "subscriptionType" ;;
        Ok (wrapLegacy access_token refresh_token expiry_date expiresAt
                       scopes subscriptionType)
      else
        accessToken <- getProp credentials "accessToken" ;;
        if truthy accessToken then Ok (VObj [("claudeAiOauth", credentials)])
        else Ok credentials.

(** The conversion of a flat record as the specification words it, with
    [??] for the three defaults. *)
Definition specWrapLegacy (fields : list (string * value)) : value :=
  VObj [("claudeAiOauth",
         VObj [("accessToken", lookup "access_token" fields);
               ("refreshToken", lookup "refresh_token" fields);
               ("expiresAt", nullishOr (lookup "expiry_date" fields)
                                       (lookup "expiresAt" fields));
               ("scopes", nullishOr (lookup "scopes" fields)
                                    (VArr [VStr "user:inference"]));
               ("subscriptionType", nullishOr (lookup "subscriptionType" fields)
                                              (VStr "max"))])].

End Convert.

(** A record in the format with underscores whose [expiry_date] is [0] and
    whose [subscriptionType] is the empty string. *)
Definition legacyFalsyFields : list (string * Js.value Z) :=
  [("access_token", VStr "at-1");
   ("refresh_token", VStr "rt-1");
   ("expiry_date", VNum 0%Z);
   ("expiresAt", VNum 1767225600000%Z);
   ("subscriptionType", VStr "")].

Definition legacyWithFalsyFields : Js.value Z := VObj legacyFalsyFields.

(** A record whose [access_token] is present and empty. *)
Definition legacyEmptyTokenFields : list (string * Js.value Z) :=
  [("access_token", VStr ""); ("refresh_token", VStr "rt-1")].

Definition legacyWithEmptyToken : Js.value Z := VObj legacyEmptyTokenFields.

End Credentials.

(** ** Verifier: the check of a downloaded profile before it is restored *)

Module Verifier.
Import Str Js.
Local Open Scope Z_scope.

(** What the extraction directory holds at the path of a credential file:
    whether [stat] succeeds, and what [readFile] followed by [JSON.parse]
    gives, a value or the message of the error thrown. *)
Record CredFile (num : Type) := mkCredFile {
  present : bool;
  parsed : result (value num)
}.
Arguments mkCredFile {num} present parsed.
Arguments present {num} c.
Arguments parsed {num} c.

(** The world [verifyDownloadedProfile] runs in. *)
Record Unpacked (num : Type) := mkUnpacked {
  (** the message thrown by [mkdir(extractDir)], if it throws *)
  mkdirError : option string;
  (** the exit code of [unzip] *)
  unzipCode : Z;
  (** [.claude/.credentials.json] *)
  linuxCreds : CredFile num;
  (** [.macos.credentials.json] *)
  macosCreds : CredFile num;
  (** [stat] of [.claude.json]: [None] when it throws, else [isFile()] *)
  configIsFile : option bool
}.
Arguments mkUnpacked {num} mkdirError unzipCode linuxCreds macosCreds configIsFile.
Arguments mkdirError {num} u.
Arguments unzipCode {num} u.
Arguments linuxCreds {num} u.
Arguments macosCreds {num} u.
Arguments configIsFile {num} u.

(** The object [{ valid, issues }]. *)
Record Verification := mkVerification {
  valid : bool;
  issues : list string
}.

(** [issues.push(issue)] *)
Definition push (issues : list string) (issue : string) : list string :=
  List.app issues [issue].

Section Verify.

Variable num : Type.
Variable numFalsy : num -> bool.

Abbreviation value := (Js.value num).
Abbreviation truthy := (Js.truthy num numFalsy).

(** The loop over [Object.entries(fields)] that sorts the field names into
    [missingFields] and [presentFields]. *)
Definition missingFields (fields : list (string * value)) : list string :=
  map fst (filter (fun f => isNullish (snd f)) fields).

Definition presentFields (fields : list (string * value)) : list string :=
  map fst (filter (fun f => negb (isNullish (snd f))) fields).

(** The check of a record with the [claudeAiOauth] wrapper, shared in shape
    by the two files; [label] is the head of the issue line. The second
    component of the state is [issues], the first is [valid]. *)
Definition checkWrapped (label : string) (oauth : value) (st : bool * list string)
  : result (bool * list string) :=
  accessToken <- getProp oauth "accessToken" ;;
  refreshToken <- getProp oauth "refreshToken" ;;
  expiresAt <- getProp oauth "expiresAt" ;;
  scopes <- getProp oauth "scopes" ;;
  subscriptionType <- getProp oauth "subscriptionType" ;;
  let fields := [("accessToken", accessToken); ("refreshToken", refreshToken);
                 ("expiresAt", expiresAt); ("scopes", scopes);
                 ("subscriptionType", subscriptionType)] in
  let issues1 :=
    if (0 <? Z.of_nat (List.length (missingFields fields)))
    then push (snd st)
           (label ++ ":" ++ newline
            ++ "   Present: claudeAiOauth.{" ++ String.concat ", " (presentFields fields) ++ "}"
            ++ newline
            ++ "   Missing: claudeAiOauth.{" ++ String.concat ", " (missingFields fields) ++ "}")
    else snd st in
  let valid1 :=
    if negb (truthy accessToken) || negb (truthy refreshToken) then false else fst st in
  Ok (valid1, issues1).

(** The check of a record in the format with underscores. *)
Definition checkLegacy (credentials : value) (st : bool * list string)
  : result (bool * list string) :=
  access_token <- getProp credentials "access_token" ;;
  refresh_token <- getProp credentials "refresh_token" ;;
  expiry_date <- getProp credentials "expiry_date" ;;
  scopes <- getProp credentials "scopes" ;;
  subscriptionType <- getProp credentials "subscriptionType" ;;
  let fields := [("access_token", access_token); ("refresh_token", refresh_token);
                 ("expiry_date", expiry_date); ("scopes", scopes);
                 ("subscriptionType", subscriptionType)] in
  let issues1 :=
    if (0 <? Z.of_nat (List.length (missingFields fields)))
    then push (snd st)
           ("Linux credentials (.credentials.json - old format):" ++ newline
            ++ "   Present: " ++ String.concat ", " (presentFields fields) ++ newline
            ++ "   Missing: " ++ String.concat ", " (missingFields fields))
    else snd st in
  let valid1 :=
    if negb (truthy access_token) || negb (truthy refresh_token) then false else fst st in
  Ok (valid1, issues1).

(** The body of the [try] for [.claude/.credentials.json]. Every expression
    of it that can throw stands before its first write to [valid] or
    [issues]. *)
Definition tryLinuxCreds (file : CredFile num) (st : bool * list string)
  : result (bool * list string) :=
  credentials <- parsed file ;;
  claudeAiOauth <- getProp credentials "claudeAiOauth" ;;
  if truthy claudeAiOauth then
    checkWrapped "Linux credentials (.credentials.json)" claudeAiOauth st
  else
    access_token <- getProp credentials "access_token" ;;
    if truthy access_token then checkLegacy credentials st
    else Ok (false, push (snd st) "Linux credentials file has unrecognized format").

(** The [try] with its [catch (e)]. *)
Definition checkLinuxCreds (file : CredFile num) (st : bool * list string)
  : bool * list string :=
  match tryLinuxCreds file st with
  | Ok st1 => st1
  | Throw message =>
      (false, push (snd st) ("Linux credentials file is not valid JSON: " ++ message))
  end.

(** The body of the [try] for [.macos.credentials.json]. *)
Definition tryMacOSCreds (file : CredFile num) (st : bool * list string)
  : result (bool * list string) :=
  credentials <- parsed file ;;
  claudeAiOauth <- getProp credentials "claudeAiOauth" ;;
  if truthy claudeAiOauth then
    checkWrapped "macOS credentials (.macos.credentials.json)" claudeAiOauth st
  else
    Ok (false, push (snd st) "macOS credentials missing claudeAiOauth wrapper object").

Definition checkMacOSCreds (file : CredFile num) (st : bool * list string)
  : bool * list string :=
  match tryMacOSCreds file st with
  | Ok st1 => st1
  | Throw message =>
      (false, push (snd st) ("macOS credentials file is not valid JSON: " ++ message))
  end.

(** The loop over [checks], whose one entry is [.claude.json], essential. *)
Definition checkConfig (configIsFile : option bool) (st : bool * list string)
  : bool * list string :=
  match configIsFile with
  | Some true => st
  | Some false => (false, push (snd st) "Missing: Claude configuration")
  | None => (false, push (snd st) "Missing: Claude configuration")
  end.

(** [verifyDownloadedProfile(profileName, tempDir)]. Its debug log lines,
    written only in verbose mode, are left out: they do not enter the
    result. *)
Definition verifyDownloadedProfile (u : Unpacked num) : Verification :=
  match mkdirError u with
  | Some message => mkVerification false [message]
  | None =>
      if negb (unzipCode u =? 0) then
        mkVerification false ["Failed to extract profile archive"]
      else
        let hasLinuxCreds := present (linuxCreds u) in
        let hasMacOSCreds := present (macosCreds u) in
        let hasCredentials := hasLinuxCreds || hasMacOSCreds in
        let st0 : bool * list string := (true, []) in
        let st1 :=
          if negb hasCredentials then
            (false,
             push (snd st0)
               "Missing: Claude credentials (no .credentials.json or .macos.credentials.json found)")
          else
            let stL := if hasLinuxCreds then checkLinuxCreds (linuxCreds u) st0 else st0 in
            if hasMacOSCreds then checkMacOSCreds (macosCreds u) stL else stL in
        let st2 := checkConfig (configIsFile u) st1 in
        mkVerification (fst st2) (snd st2)
  end.

(** A credential export is usable when it parses and passes the field check
    of its file: for [.claude/.credentials.json] a wrapped record with
    truthy [accessToken] and [refreshToken], or a record without wrapper with
    truthy [access_token] and [refresh_token]; for [.macos.credentials.json]
    a wrapped record with truthy [accessToken] and [refreshToken]. *)
Definition wrappedUsable (credentials : value) : bool :=
  match credentials with
  | VObj fields =>
      match lookup "claudeAiOauth" fields with
      | VObj oauth =>
          truthy (lookup "accessToken" oauth) && truthy (lookup "refreshToken" oauth)
      | _ => false
      end
  | _ => false
  end.

Definition legacyUsable (credentials : value) : bool :=
  match credentials with
  | VObj fields =>
      negb (truthy (lookup "claudeAiOauth" fields))
      && truthy (lookup "access_token" fields)
      && truthy (lookup "refresh_token" fields)
  | _ => false
  end.

Definition linuxUsable (file : CredFile num) : bool :=
  match parsed file with
  | Ok credentials => wrappedUsable credentials || legacyUsable credentials
  | Throw _ => false
  end.

Definition macosUsable (file : CredFile num) : bool :=
  match parsed file with
  | Ok credentials => wrappedUsable credentials
  | Throw _ => false
  end.

End Verify.

(** A check never turns an invalid result valid and never drops an issue. *)
Definition grows (st st1 : bool * list string) : Prop :=
  (fst st = false -> fst st1 = false) /\ incl (snd st) (snd st1).

(** An unpacked profile saved on Linux, with a wrapped credential record. *)
Definition linuxProfile : Unpacked Z :=
  mkUnpacked None 0
    (mkCredFile true
       (Ok (VObj [("claudeAiOauth",
                   VObj [("accessToken", VStr "at-1");
                         ("refreshToken", VStr "rt-1");
                         ("expiresAt", VNum 1767225600000);
                         ("scopes", VArr [VStr "user:inference"]);
                         ("subscriptionType", VStr "max")])])))
    (mkCredFile false (Throw "ENOENT: no such file or directory"))
    (Some true).

End Verifier.

(** ** Effects: what an operation does to the world around it *)

Module Effects.
Local Open Scope Z_scope.

(** What an operation does to the world outside its own variables, in the
    order it does it. *)
Inductive event : Type :=
| Log (level message : string)
  (** [log(level, message)] *)
| LogData (level message data : string)
  (** [log(level, message, data)] *)
| VerifyLocalFiles
  (** [verifyLocalFiles()]: reads of the local configuration and its report *)
| DisplayDirectoryTree
  (** [displayDirectoryTree(...)]: reads of [~/.claude] and its report *)
| Mkdtemp (dir : string)
  (** [fsPromises.mkdtemp(...)] created [dir] *)
| ArchiveFile (name : string)
  (** [archive.file(path, { name })] *)
| ArchiveDirectory (name : string)
  (** [archive.directory(sourcePath, name)] *)
| WriteFile (path : string)
  (** [fsPromises.writeFile(path, ...)] *)
| Rm (path : string)
  (** [fsPromises.rm(path, { recursive: true })] *)
| FindOrCreateGist
  (** [findOrCreateGist()]: [gh api /gists], and [gh gist create] if none *)
| GistUpload (filename : string)
  (** [gh gist edit <id> --add <file> --filename <filename>] *)
| GetDetailedAuthStatus
  (** [getDetailedAuthStatus()]: [gh auth status] *).

(** The calls that reach the remote store or the GitHub CLI. *)
Definition isNetwork (e : event) : bool :=
  match e with
  | FindOrCreateGist | GistUpload _ | GetDetailedAuthStatus => true
  | _ => false
  end.

(** How a piece of code ends: it returns, it throws an [Error] with a
    message, or it ends the process with [process.exit(code)]. *)
Inductive outcome (A : Type) : Type :=
| Ret (a : A)
| Thrown (message : string)
| Exited (code : Z).
Arguments Ret {A} a.
Arguments Thrown {A} message.
Arguments Exited {A} code.

(** A computation: the events it made and how it ended. *)
Definition M (A : Type) : Type := list event * outcome A.

Definition ret {A : Type} (a : A) : M A := ([], Ret a).
Definition emit (e : event) : M unit := ([e], Ret tt).
Definition throw {A : Type} (message : string) : M A := ([], Thrown message).
Definition exit {A : Type} (code : Z) : M A := ([], Exited code).

Definition bind {A B : Type} (m : M A) (k : A -> M B) : M B :=
  match m with
  | (t, Ret a) => let (t', o) := k a in (List.app t t', o)
  | (t, Thrown message) => (t, Thrown message)
  | (t, Exited code) => (t, Exited code)
  end.

(** [try { body } catch (error) { handler(error.message) }] *)
Definition tryCatch {A : Type} (body : M A) (handler : string -> M A) : M A :=
  match body with
  | (t, Thrown message) => let (t', o) := handler message in (List.app t t', o)
  | other => other
  end.

(** [try { body } finally { cleanup }]: the cleanup runs when the body
    returns or throws, and not when the body has ended the process. *)
Definition tryFinally {A : Type} (body : M A) (cleanup : M unit) : M A :=
  match body with
  | (t, Exited code) => (t, Exited code)
  | (t, o) =>
      match cleanup with
      | (t', Ret _) => (List.app t t', o)
      | (t', Thrown message) => (List.app t t', Thrown message)
      | (t', Exited code) => (List.app t t', Exited code)
      end
  end.

(** An awaited call whose result the world decides. *)
Definition await {A : Type} (r : Js.result A) : M A :=
  match r with
  | Js.Ok a => ret a
  | Js.Throw message => throw message
  end.

Definition when (b : bool) (m : M unit) : M unit := if b then m else ret tt.

Fixpoint forEach {A : Type} (l : list A) (body : A -> M unit) : M unit :=
  match l with
  | [] => ret tt
  | a :: rest => bind (body a) (fun _ => forEach rest body)
  end.

Definition trace {A : Type} (m : M A) : list event := fst m.
Definition outcomeOf {A : Type} (m : M A) : outcome A := snd m.

(** The upload itself. *)
Definition isUpload (e : event) : bool :=
  match e with
  | GistUpload _ => true
  | _ => false
  end.

(** No event of the trace satisfies [P]. *)
Definition avoids (P : event -> bool) (t : list event) : Prop :=
  Forall (fun e => P e = false) t.

(** The computation returns or throws: it does not end the process. *)
Definition staysAlive {A : Type} (m : M A) : Prop :=
  forall code, outcomeOf m <> Exited code.

End Effects.

(** ** Store: [saveProfile] and [saveProfileSilent] *)

Module Store.
Import Str PathFilter SizeGuard Effects.
Local Open Scope Z_scope.

Notation "x <- c ;; k" := (Effects.bind c (fun x => k))
  (at level 61, c at next level, right associativity).
Notation "c ;;; k" := (Effects.bind c (fun _ => k))
  (at level 61, right associativity).

(** [PROFILE_NAME_REGEX], [/^[a-z0-9-]+$/]. *)
Definition isProfileChar (c : ascii) : bool :=
  let n := N_of_ascii c in
  ((97 <=? n) && (n <=? 122))%N || ((48 <=? n) && (n <=? 57))%N || (n =? 45)%N.

Fixpoint allProfileChars (s : string) : bool :=
  match s with
  | EmptyString => true
  | String c rest => isProfileChar c && allProfileChars rest
  end.

Definition matchesProfileName (name : string) : bool :=
  negb (String.eqb name "") && allProfileChars name.

(** [validateProfileName(name)]. *)
Definition validateProfileName (name : string) : M unit :=
  if matchesProfileName name then ret tt
  else throw ("Invalid profile name: " ++ name
              ++ ". Only lowercase letters, numbers, and hyphens are allowed.").

(** What [stat] and, for a directory, the recursive [readdir] find at the
    source path of a backup entry. A directory carries its relative paths,
    each with whether [stat] on it succeeds and says it is a file. *)
Inductive SourceStat : Type :=
| StatFails (code message : string)
| IsDirectory (entries : list (string * bool))
| DirectoryUnreadable (code message : string)
| IsFile
| IsOther.

(** The object [getDetailedAuthStatus] returns. *)
Record AuthStatus := mkAuthStatus {
  account : option string;
  protocol : option string;
  scopes : list string;
  hasGistScope : bool;
  rawOutput : string
}.

(** [value || fallback] for a string that may be [null]. *)
Definition orElse (value : option string) (fallback : string) : string :=
  match value with
  | Some s => if String.eqb s "" then fallback else s
  | None => fallback
  end.

(** The world a store operation runs in: its arguments, and the result of
    every call it awaits. *)
Record World := mkWorld {
  profileName : string;
  options : Options;
  (** the global [isVerbose] *)
  isVerbose : bool;
  (** [process.platform] *)
  platform : string;
  (** [verifyLocalFiles()] *)
  localVerification : Verifier.Verification;
  (** [fsPromises.mkdtemp(...)] *)
  mkdtempResult : Js.result string;
  (** the backup sources, by their [source] property *)
  statSource : string -> SourceStat;
  (** whether [getKeychainCredentials()] returns a truthy record *)
  keychainCreds : bool;
  (** [archive.finalize()] and the promise of the output stream *)
  finalizeResult : Js.result unit;
  (** the size of the zip file, from [stat] or from the buffer read *)
  zipSize : Js.result Z;
  (** [findOrCreateGist()], which returns the gist id, throws, or exits *)
  gistResult : outcome string;
  (** [fsPromises.readFile(zipPath)] before the upload of [saveProfile] *)
  readZipResult : Js.result unit;
  (** [fsPromises.writeFile(base64Path, ...)] *)
  writeBase64Result : Js.result unit;
  (** the [code] and [stdout] of [gh gist edit] *)
  uploadResult : Js.result (Z * string);
  (** [getDetailedAuthStatus()], [null] when it fails *)
  authStatus : option AuthStatus;
  (** the [fsPromises.rm(tempDir)] that is awaited without a [catch] *)
  rmResult : Js.result unit
}.

Definition joinPath (dir name : string) : string := dir ++ "/" ++ name.

(** The double quote, written by its code. *)
Definition dquote : string := String "034"%char "".

Section Save.

Variable formatBytes : Z -> string.

Abbreviation checkSize := (checkArchiveSize formatBytes).

(** The loop body of [for (const item of backupPaths)] in [saveProfile];
    it returns whether the entry sets [hasFiles]. Its inner [catch] logs a
    warning unless the error code is [ENOENT]. *)
Definition addToArchive (w : World) (item : BackupPath) : M bool :=
  match statSource w (source item) with
  | StatFails code message =>
      when (negb (String.eqb code "ENOENT"))
        (emit (Log "WARN" ("⚠️  Could not add " ++ source item ++ ": " ++ message))) ;;;
      ret false
  | DirectoryUnreadable code message =>
      if skipProjects item then
        when (negb (String.eqb code "ENOENT"))
          (emit (Log "WARN" ("⚠️  Could not add " ++ source item ++ ": " ++ message))) ;;;
        ret false
      else
        emit (ArchiveDirectory (dest item)) ;;;
        emit (Log "INFO" ("📂 Added directory: " ++ source item)) ;;;
        ret true
  | IsDirectory entries =>
      if skipProjects item then
        emit (Log "INFO" ("📂 Added directory: " ++ source item
                          ++ " (excluding projects folder)")) ;;;
        forEach (filter (fun e => archiveFilter (fst e)) entries)
          (fun e => when (snd e)
                      (emit (ArchiveFile (joinPath (dest item) (fst e))))) ;;;
        ret true
      else
        emit (ArchiveDirectory (dest item)) ;;;
        emit (Log "INFO" ("📂 Added directory: " ++ source item)) ;;;
        ret true
  | IsFile =>
      emit (ArchiveFile (dest item)) ;;;
      emit (Log "INFO" ("📄 Added file: " ++ source item)) ;;;
      ret true
  | IsOther => ret false
  end.

Fixpoint addAllToArchive (w : World) (items : list BackupPath) (hasFiles : bool) : M bool :=
  match items with
  | [] => ret hasFiles
  | item :: rest =>
      added <- addToArchive w item ;;
      addAllToArchive w rest (hasFiles || added)
  end.

(** The block of [saveProfile] that handles the macOS Keychain. *)
Definition addKeychain (w : World) (tempDir : string) (hasFiles : bool) : M bool :=
  if String.eqb (platform w) "darwin" then
    if keychainCreds w then
      emit (WriteFile (joinPath tempDir ".macos.credentials.json")) ;;;
      emit (ArchiveFile ".macos.credentials.json") ;;;
      emit (Log "INFO" "🔐 Added macOS Keychain credentials") ;;;
      ret true
    else
      emit (Log "WARN" "No credentials found in macOS Keychain") ;;;
      ret hasFiles
  else ret hasFiles.

(** The branch of [saveProfile] taken when [sizeCheck.withinLimit] is false. *)
Definition rejectTooLarge (w : World) (sizeCheck : SizeCheck) : M unit :=
  emit (Log "ERROR" "") ;;;
  emit (Log "ERROR" ("❌ Profile is too large (" ++ sizeFormatted sizeCheck
                     ++ " compressed, " ++ actualSizeFormatted sizeCheck
                     ++ " when base64 encoded) for GitHub Gist")) ;;;
  emit (Log "ERROR" ("   GitHub Gist limit: " ++ formatBytes GIST_SIZE_LIMIT_API)) ;;;
  (if optSkipProjects (options w)
   then emit (Log "ERROR" "   Consider cleaning up ~/.claude/ directory manually")
   else emit (Log "ERROR"
                "   Consider using --skip-projects option to exclude the projects folder")) ;;;
  throw "Profile too large".

(** The lines [saveProfile] logs for an archive above the limit. *)
Definition tooLargeLines (w : World) (sizeCheck : SizeCheck) : list event :=
  [ Log "INFO" ("📦 Archive created: " ++ sizeFormatted sizeCheck);
    Log "ERROR" "";
    Log "ERROR" ("❌ Profile is too large (" ++ sizeFormatted sizeCheck
                 ++ " compressed, " ++ actualSizeFormatted sizeCheck
                 ++ " when base64 encoded) for GitHub Gist");
    Log "ERROR" ("   GitHub Gist limit: " ++ formatBytes GIST_SIZE_LIMIT_API);
    Log "ERROR" (if optSkipProjects (options w)
                 then "   Consider cleaning up ~/.claude/ directory manually"
                 else "   Consider using --skip-projects option to exclude the projects folder") ].

(** The branch of [saveProfile] taken when the upload has failed. *)
Definition rejectUpload (w : World) (gistId stdout : string) (size : Z) : M unit :=
  if includes stdout "422" || includes stdout "contents are too large"
     || includes stdout "too large"
  then
    let sizeCheck := checkSize size false in
    emit (Log "ERROR" ("❌ Failed to upload: HTTP 422 - Content too large ("
                       ++ sizeFormatted sizeCheck ++ " compressed, "
                       ++ actualSizeFormatted sizeCheck ++ " when base64 encoded)")) ;;;
    emit (Log "ERROR" ("   GitHub Gist limit: " ++ formatBytes GIST_SIZE_LIMIT_API)) ;;;
    (if optSkipProjects (options w)
     then emit (Log "ERROR" "   Consider manually cleaning up ~/.claude/ directory")
     else emit (Log "ERROR"
                  "   Try using --skip-projects option to exclude the projects folder")) ;;;
    throw "Profile too large"
  else if includes stdout "rate limit" then
    emit (Log "ERROR" "⚠️  GitHub API rate limit exceeded") ;;;
    emit (Log "ERROR" "   Please wait a few minutes and try again") ;;;
    throw "Rate limit exceeded"
  else if includes stdout "409" || includes stdout "Gist cannot be updated" then
    emit GetDetailedAuthStatus ;;;
    emit (Log "ERROR" "❌ Failed to upload: HTTP 409 - Gist cannot be updated") ;;;
    emit (Log "ERROR" "") ;;;
    match authStatus w with
    | Some status =>
        emit (Log "ERROR" "🔍 Current GitHub Authentication:") ;;;
        emit (Log "ERROR" ("   • Account: " ++ orElse (account status) "Not logged in")) ;;;
        emit (Log "ERROR" ("   • Protocol: " ++ orElse (protocol status) "Unknown")) ;;;
        emit (Log "ERROR" ("   • Token scopes: "
                           ++ orElse (Some (String.concat ", " (scopes status))) "None")) ;;;
        emit (Log "ERROR" ("   • Has gist scope: "
                           ++ if hasGistScope status then "Yes" else "No")) ;;;
        emit (Log "ERROR" "")
    | None => ret tt
    end ;;;
    emit (Log "ERROR" "💡 How to fix:") ;;;
    emit (Log "ERROR" "   • Gist may be owned by a different account") ;;;
    emit (Log "ERROR" ("   • Check gist owner: gh gist view " ++ gistId)) ;;;
    emit (Log "ERROR" "   • Re-authenticate: gh auth refresh -s gist") ;;;
    emit (Log "ERROR" "   • Or login as the gist owner: gh auth login") ;;;
    throw "HTTP 409: Gist cannot be updated"
  else throw ("Failed to upload profile to gist: " ++ stdout).

(** The first part of the [try] of [saveProfile], up to the archive written
    to disk: it returns the staging directory. *)
Definition stageArchive (w : World) : M string :=
  validateProfileName (profileName w) ;;;
  emit (Log "INFO" ("💾 Preparing to save Claude profile: " ++ profileName w)) ;;;
  emit (Log "INFO" "") ;;;
  emit VerifyLocalFiles ;;;
  (if negb (Verifier.valid (localVerification w)) then
     emit (Log "ERROR" "❌ Cannot create profile - essential files are missing") ;;;
     emit (Log "ERROR" "") ;;;
     when (0 <? Z.of_nat (List.length (Verifier.issues (localVerification w))))
       (emit (Log "ERROR" "Issues found:") ;;;
        forEach (Verifier.issues (localVerification w))
          (fun issue => emit (Log "ERROR" ("   • " ++ issue))) ;;;
        emit (Log "ERROR" "")) ;;;
     emit (Log "ERROR" "💡 Tips:") ;;;
     emit (Log "ERROR" "   • Ensure Claude is properly configured") ;;;
     emit (Log "ERROR" "   • Try using Claude at least once to generate config files") ;;;
     emit (Log "ERROR" "   • Check that ~/.claude/ directory exists") ;;;
     exit 1
   else ret tt) ;;;
  emit (Log "INFO" "✅ Local configuration verified") ;;;
  emit (Log "INFO" "") ;;;
  emit DisplayDirectoryTree ;;;
  tempDir <- await (mkdtempResult w) ;;
  emit (Mkdtemp tempDir) ;;;
  added <- addAllToArchive w (getBackupPaths (options w)) false ;;
  hasFiles <- addKeychain w tempDir added ;;
  (if negb hasFiles then
     emit (Log "ERROR" "❌ No Claude configuration files found to backup") ;;;
     emit (Log "ERROR" "") ;;;
     emit (Log "ERROR" "📝 Expected files:") ;;;
     emit (Log "ERROR" "   • ~/.claude/ directory") ;;;
     emit (Log "ERROR" "   • ~/.claude.json file") ;;;
     emit (Log "ERROR" "   • ~/.claude.json.backup file") ;;;
     emit (Log "ERROR" "") ;;;
     emit (Log "ERROR" "🔧 This usually means Claude is not configured yet") ;;;
     emit (Log "ERROR" "   Please use Claude at least once to generate config files") ;;;
     await (rmResult w) ;;;
     emit (Rm tempDir) ;;;
     exit 1
   else ret tt) ;;;
  await (finalizeResult w) ;;;
  ret tempDir.

(** The second part of the [try] of [saveProfile]: the size check, the
    upload and the removal of the staging directory. *)
Definition checkAndUpload (w : World) (tempDir : string) : M unit :=
  size <- await (zipSize w) ;;
  let sizeCheck := checkSize size false in
  emit (Log "INFO" ("📦 Archive created: " ++ sizeFormatted sizeCheck)) ;;;
  when (negb (withinLimit sizeCheck)) (rejectTooLarge w sizeCheck) ;;;
  when (isLarge sizeCheck)
    (emit (Log "INFO" ("⚠️  Large profile detected (" ++ sizeFormatted sizeCheck
                       ++ " compressed, " ++ actualSizeFormatted sizeCheck
                       ++ " when base64 encoded)")) ;;;
     when (exceedsWebLimit sizeCheck)
       (emit (Log "INFO"
                "   Profile exceeds web interface limit, but should work via CLI"))) ;;;
  emit FindOrCreateGist ;;;
  gistId <- ([], gistResult w) ;;
  await (readZipResult w) ;;;
  await (writeBase64Result w) ;;;
  emit (WriteFile (joinPath tempDir (profileName w ++ ".zip.base64"))) ;;;
  emit (Log "INFO" "📤 Uploading profile to gist...") ;;;
  emit (GistUpload (profileName w ++ ".zip.base64")) ;;;
  upload <- await (uploadResult w) ;;
  when (negb (fst upload =? 0) && negb (includes (snd upload) "Added"))
    (rejectUpload w gistId (snd upload) size) ;;;
  await (rmResult w) ;;;
  emit (Rm tempDir) ;;;
  emit (Log "INFO" ("✅ Profile '" ++ profileName w ++ "' saved successfully")) ;;;
  emit (Log "INFO" "") ;;;
  emit (Log "INFO" "💡 To restore this profile later, run:") ;;;
  emit (Log "INFO" ("   ./claude-profiles.mjs --restore " ++ profileName w)).

(** The body of the [try] of [saveProfile]. *)
Definition saveProfileBody (w : World) : M unit :=
  tempDir <- stageArchive w ;;
  checkAndUpload w tempDir.

(** The [catch (error)] of [saveProfile]. *)
Definition saveProfileCatch (w : World) (message : string) : M unit :=
  emit (LogData "ERROR" "❌ Error saving profile:" message) ;;;
  emit (Log "ERROR" "") ;;;
  (if includes message "Profile too large" || includes message "Rate limit"
      || includes message "HTTP 409"
   then ret tt
   else
     emit GetDetailedAuthStatus ;;;
     match authStatus w with
     | Some status =>
         when (negb (hasGistScope status))
           (emit (Log "ERROR" "🔍 Missing gist permissions:") ;;;
            emit (Log "ERROR" ("   • Account: " ++ orElse (account status) "Unknown")) ;;;
            emit (Log "ERROR" "   • Run: gh auth refresh -s gist") ;;;
            emit (Log "ERROR" ""))
     | None => ret tt
     end ;;;
     emit (Log "ERROR" "🔧 Troubleshooting:") ;;;
     emit (Log "ERROR" "   • Check your internet connection") ;;;
     emit (Log "ERROR" ("   • Try creating a test gist: echo " ++ dquote ++ "test" ++ dquote
                        ++ " | gh gist create -")) ;;;
     emit (Log "ERROR" "   • Check available profiles: ./claude-profiles.mjs --list")) ;;;
  exit 1.

(** [saveProfile(profileName, options)]. *)
Definition saveProfile (w : World) : M unit :=
  tryCatch (saveProfileBody w) (saveProfileCatch w).

(** The loop body of [for (const item of backupPaths)] in
    [saveProfileSilent], whose [catch] is empty. *)
Definition addToArchiveSilent (w : World) (item : BackupPath) : M unit :=
  match statSource w (source item) with
  | StatFails _ _ => ret tt
  | DirectoryUnreadable _ _ =>
      if skipProjects item then ret tt else emit (ArchiveDirectory (dest item))
  | IsDirectory entries =>
      if skipProjects item then
        forEach (filter (fun e => archiveFilter (fst e)) entries)
          (fun e => when (snd e)
                      (emit (ArchiveFile (joinPath (dest item) (fst e)))))
      else emit (ArchiveDirectory (dest item))
  | IsFile => emit (ArchiveFile (dest item))
  | IsOther => ret tt
  end.

(** [Math.round(n / 1024)] for a byte length [n], in decimal. *)
Definition roundedKB (n : Z) : string :=
  NilZero.string_of_int (Z.to_int ((n + 512) / 1024)).

(** The branch of [saveProfileSilent] taken when the upload has failed. *)
Definition rejectUploadSilent (w : World) (stdout : string) (size : Z) : M unit :=
  (if includes stdout "422" || includes stdout "contents are too large" then
     let sizeCheck := checkSize size false in
     let errorMsg :=
       "Failed to upload: HTTP 422 - Content too large (" ++ sizeFormatted sizeCheck
       ++ " compressed, " ++ actualSizeFormatted sizeCheck ++ " when base64 encoded)" in
     if optSkipProjects (options w)
     then throw (errorMsg ++ newline ++ "GitHub Gist limit is "
                 ++ formatBytes GIST_SIZE_LIMIT_API ++ "." ++ newline
                 ++ "Consider cleaning up ~/.claude/ directory manually.")
     else throw (errorMsg ++ newline ++ "GitHub Gist limit is "
                 ++ formatBytes GIST_SIZE_LIMIT_API ++ "." ++ newline
                 ++ "Try using --skip-projects option to exclude the projects folder.")
   else ret tt) ;;;
  emit GetDetailedAuthStatus ;;;
  (if includes stdout "409" || includes stdout "Gist cannot be updated" then
     emit (Log "ERROR" "Failed to upload: HTTP 409 - Gist cannot be updated") ;;;
     match authStatus w with
     | Some status =>
         emit (Log "ERROR" "🔍 GitHub Authentication Status:") ;;;
         emit (Log "ERROR" ("   • Account: " ++ orElse (account status) "Not logged in")) ;;;
         emit (Log "ERROR" ("   • Protocol: " ++ orElse (protocol status) "Unknown")) ;;;
         emit (Log "ERROR" ("   • Token scopes: "
                            ++ orElse (Some (String.concat ", " (scopes status))) "None")) ;;;
         emit (Log "ERROR" ("   • Has gist scope: "
                            ++ if hasGistScope status then "Yes" else "No")) ;;;
         when (isVerbose w && negb (String.eqb (rawOutput status) ""))
           (emit (LogData "DEBUG" "Full gh auth status output:" (rawOutput status)))
     | None => ret tt
     end ;;;
     emit (Log "ERROR" "") ;;;
     emit (Log "ERROR" "💡 Possible causes:") ;;;
     emit (Log "ERROR" "   • Gist may be owned by a different account") ;;;
     emit (Log "ERROR" "   • Token may lack write permissions") ;;;
     emit (Log "ERROR" "   • Try: gh auth refresh -s gist") ;;;
     throw "Failed to upload: HTTP 409 - Gist cannot be updated"
   else ret tt) ;;;
  throw ("Failed to upload: " ++ stdout).

(** The message of the error [saveProfileSilent] throws when
    [sizeCheck.withinLimit] is false. *)
Definition tooLargeMessage (w : World) (sizeCheck : SizeCheck) : string :=
  let errorMsg :=
    "Profile too large (" ++ sizeFormatted sizeCheck ++ " compressed, "
    ++ actualSizeFormatted sizeCheck ++ " when base64 encoded) - GitHub Gist limit is "
    ++ formatBytes GIST_SIZE_LIMIT_API in
  if optSkipProjects (options w)
  then errorMsg ++ newline ++ "Consider manually cleaning up ~/.claude/ directory."
  else errorMsg ++ newline
       ++ "Consider using --skip-projects option to exclude the projects folder.".

(** The first part of the [try] of [saveProfileSilent], up to the archive
    written to disk. *)
Definition stageArchiveSilent (w : World) (tempDir : string) : M unit :=
  forEach (getBackupPaths (options w)) (addToArchiveSilent w) ;;;
  when (String.eqb (platform w) "darwin" && keychainCreds w)
    (emit (WriteFile (joinPath tempDir ".macos.credentials.json")) ;;;
     emit (ArchiveFile ".macos.credentials.json")) ;;;
  await (finalizeResult w).

(** The second part of the [try] of [saveProfileSilent]. *)
Definition checkAndUploadSilent (w : World) (tempDir : string) : M unit :=
  size <- await (zipSize w) ;;
  let sizeCheck := checkSize size false in
  emit (Log "INFO" ("📦 Archive created: " ++ sizeFormatted sizeCheck)) ;;;
  when (negb (withinLimit sizeCheck)) (throw (tooLargeMessage w sizeCheck)) ;;;
  emit FindOrCreateGist ;;;
  gistId <- ([], gistResult w) ;;
  await (writeBase64Result w) ;;;
  emit (WriteFile (joinPath tempDir (profileName w ++ ".zip.base64"))) ;;;
  emit (GistUpload (profileName w ++ ".zip.base64")) ;;;
  upload <- await (uploadResult w) ;;
  when (negb (fst upload =? 0) && negb (includes (snd upload) "Added"))
    (rejectUploadSilent w (snd upload) size) ;;;
  emit (Log "DEBUG" ("Profile uploaded successfully - Size: " ++ roundedKB size ++ " KB")).

(** The body of the [try] of [saveProfileSilent]. *)
Definition saveProfileSilentBody (w : World) (tempDir : string) : M unit :=
  stageArchiveSilent w tempDir ;;;
  checkAndUploadSilent w tempDir.

(** [saveProfileSilent(profileName, options)]: the staging directory is
    made before the [try], and the [finally] removes it, the error of the
    removal being swallowed. *)
Definition saveProfileSilent (w : World) : M unit :=
  tempDir <- await (mkdtempResult w) ;;
  emit (Mkdtemp tempDir) ;;;
  tryFinally (saveProfileSilentBody w tempDir) (emit (Rm tempDir)).

End Save.

(** A world for [saveProfile "work"] on Linux: the local configuration is in
    place, every local call succeeds, and the archive has [size] bytes; the
    gist exists and the upload succeeds. *)
Definition linuxWorld (skip : bool) (size : Z) : World :=
  {| profileName := "work";
     options := mkOptions skip;
     isVerbose := false;
     platform := "linux";
     localVerification := Verifier.mkVerification true [];
     mkdtempResult := Js.Ok "/tmp/claude-profile-a1b2c3";
     statSource := fun path =>
       if String.eqb path "~/.claude"
       then IsDirectory [("settings.json", true); ("projects", false);
                         ("projects/p1/chat.jsonl", true)]
       else if String.eqb path "~/.claude.json" then IsFile
       else StatFails "ENOENT" "ENOENT: no such file or directory";
     keychainCreds := false;
     finalizeResult := Js.Ok tt;
     zipSize := Js.Ok size;
     gistResult := Ret "0123456789abcdef";
     readZipResult := Js.Ok tt;
     writeBase64Result := Js.Ok tt;
     uploadResult := Js.Ok (0, "");
     authStatus := Some (mkAuthStatus (Some "octocat") (Some "https") ["gist"; "repo"] true "");
     rmResult := Js.Ok tt |}.

(** A [formatBytes] for the examples: the byte count in decimal. *)
Definition plainBytes (n : Z) : string := NilZero.string_of_int (Z.to_int n) ++ " B".

End Store.

(** ** WatchScheduler: the handlers of [watchProfile] *)

Module Watch.
Import Str.
Local Open Scope Z_scope.

(** [minSaveInterval], in milliseconds. *)
Definition minSaveInterval : Z := 30000.

(** The two callbacks given to [setTimeout]: the one armed by
    [handleFileChange] and the one it arms when a save has to wait. *)
Inductive timerKind : Type := Debounce | Throttle.

(** A callback that has started a save and is suspended at an [await] inside
    its [try]: which callback it is (the debounce callback keeps its [now]),
    and which promise it waits for. *)
Inductive saveOrigin : Type := ByDebounce (now : Z) | ByThrottle.
Inductive savePhase : Type := AwaitSave | AwaitHash.

Record saveTask := mkSaveTask {
  origin : saveOrigin;
  phase : savePhase
}.

(** The variables of the closure of [watchProfile], the timers that are
    armed, the callbacks suspended in a save, the keychain polls suspended
    at their hash, and whether the process is alive. The delay of a timer is
    left out: an armed timer may fire at any later moment. *)
Record WatchState := mkWatchState {
  lastSaveTime : Z;
  pendingSave : bool;
  saveInProgress : bool;
  lastHash : string;
  saveCount : Z;
  pendingSaveTimeout : option nat;
  changeDetected : bool;
  timers : list (nat * timerKind);
  nextTimer : nat;
  savesInFlight : list saveTask;
  pollsInFlight : nat;
  alive : bool
}.

Definition initial (hash : string) : WatchState :=
  {| lastSaveTime := 0; pendingSave := false; saveInProgress := false;
     lastHash := hash; saveCount := 0; pendingSaveTimeout := None;
     changeDetected := false; timers := []; nextTimer := 0%nat;
     savesInFlight := []; pollsInFlight := 0%nat; alive := true |}.

(** What the event loop runs next. *)
Inductive label : Type :=
| FileChange
  (** a watcher reports a change *)
| TimerFires (id : nat) (now : Z)
  (** an armed timer fires; [now] is [Date.now()] *)
| SaveSettles (i : nat) (r : Js.result unit) (now : Z)
  (** [await saveProfileSilent(...)] of the [i]-th suspended callback settles *)
| HashSettles (i : nat) (r : Js.result string)
  (** [await calculateFilesHash(...)] of the [i]-th suspended callback settles *)
| PollFires
  (** the keychain interval, set on macOS, fires *)
| PollSettles (r : Js.result string)
  (** [await calculateFilesHash(...)] of a keychain poll settles *)
| Sigint.

Definition clearTimeout (id : nat) (ts : list (nat * timerKind)) : list (nat * timerKind) :=
  filter (fun t => negb (Nat.eqb (fst t) id)) ts.

Definition findTimer (id : nat) (ts : list (nat * timerKind)) : option timerKind :=
  option_map snd (find (fun t => Nat.eqb (fst t) id) ts).

Fixpoint removeNth {A : Type} (i : nat) (l : list A) : list A :=
  match l, i with
  | [], _ => []
  | _ :: rest, O => rest
  | a :: rest, S j => a :: removeNth j rest
  end.

Fixpoint replaceNth {A : Type} (i : nat) (a : A) (l : list A) : list A :=
  match l, i with
  | [], _ => []
  | _ :: rest, O => a :: rest
  | b :: rest, S j => b :: replaceNth j a rest
  end.

(** [handleFileChange(eventType, filename)]. *)
Definition handleFileChange (s : WatchState) : WatchState :=
  let cleared :=
    match pendingSaveTimeout s with
    | Some id => clearTimeout id (timers s)
    | None => timers s
    end in
  {| lastSaveTime := lastSaveTime s; pendingSave := pendingSave s;
     saveInProgress := saveInProgress s; lastHash := lastHash s;
     saveCount := saveCount s;
     pendingSaveTimeout := Some (nextTimer s);
     changeDetected := true;
     timers := List.app cleared [(nextTimer s, Debounce)];
     nextTimer := S (nextTimer s);
     savesInFlight := savesInFlight s; pollsInFlight := pollsInFlight s;
     alive := alive s |}.

(** [saveInProgress = true] followed by the call of [saveProfileSilent], at
    whose [await] the callback is suspended. *)
Definition startSave (s : WatchState) (o : saveOrigin) : WatchState :=
  {| lastSaveTime := lastSaveTime s; pendingSave := pendingSave s;
     saveInProgress := true; lastHash := lastHash s; saveCount := saveCount s;
     pendingSaveTimeout := pendingSaveTimeout s;
     changeDetected := changeDetected s;
     timers := timers s; nextTimer := nextTimer s;
     savesInFlight := List.app (savesInFlight s) [mkSaveTask o AwaitSave];
     pollsInFlight := pollsInFlight s; alive := alive s |}.

(** The callback armed by [handleFileChange], run to its end or to its
    first [await]; the timer that fired is no longer in [s]. *)
Definition debounceCallback (s : WatchState) (now : Z) : WatchState :=
  if negb (changeDetected s) then s
  else
    let s1 :=
      {| lastSaveTime := lastSaveTime s; pendingSave := pendingSave s;
         saveInProgress := saveInProgress s; lastHash := lastHash s;
         saveCount := saveCount s; pendingSaveTimeout := pendingSaveTimeout s;
         changeDetected := false;
         timers := timers s; nextTimer := nextTimer s;
         savesInFlight := savesInFlight s; pollsInFlight := pollsInFlight s;
         alive := alive s |} in
    let timeSinceLastSave := now - lastSaveTime s in
    if minSaveInterval <=? timeSinceLastSave then
      if saveInProgress s1 then s1
      else startSave s1 (ByDebounce now)
    else if negb (pendingSave s1) then
      {| lastSaveTime := lastSaveTime s1; pendingSave := true;
         saveInProgress := saveInProgress s1; lastHash := lastHash s1;
         saveCount := saveCount s1;
         pendingSaveTimeout := Some (nextTimer s1);
         changeDetected := changeDetected s1;
         timers := List.app (timers s1) [(nextTimer s1, Throttle)];
         nextTimer := S (nextTimer s1);
         savesInFlight := savesInFlight s1; pollsInFlight := pollsInFlight s1;
         alive := alive s1 |}
    else s1.

Definition setPendingSave (s : WatchState) (b : bool) : WatchState :=
  {| lastSaveTime := lastSaveTime s; pendingSave := b;
     saveInProgress := saveInProgress s; lastHash := lastHash s;
     saveCount := saveCount s; pendingSaveTimeout := pendingSaveTimeout s;
     changeDetected := changeDetected s;
     timers := timers s; nextTimer := nextTimer s;
     savesInFlight := savesInFlight s; pollsInFlight := pollsInFlight s;
     alive := alive s |}.

(** The callback armed by the debounce callback when a save has to wait. *)
Definition throttleCallback (s : WatchState) : WatchState :=
  if pendingSave s then
    if saveInProgress s then setPendingSave s false
    else startSave s ByThrottle
  else s.

(** [process.exit(code)]. *)
Definition exitProcess (s : WatchState) : WatchState :=
  {| lastSaveTime := lastSaveTime s; pendingSave := pendingSave s;
     saveInProgress := saveInProgress s; lastHash := lastHash s;
     saveCount := saveCount s; pendingSaveTimeout := pendingSaveTimeout s;
     changeDetected := changeDetected s;
     timers := timers s; nextTimer := nextTimer s;
     savesInFlight := savesInFlight s; pollsInFlight := pollsInFlight s;
     alive := false |}.

(** The [finally] block of either callback, [saveInProgress = false], after
    which the [i]-th suspended callback has ended. *)
Definition finallyBlock (s : WatchState) (i : nat) : WatchState :=
  {| lastSaveTime := lastSaveTime s; pendingSave := pendingSave s;
     saveInProgress := false; lastHash := lastHash s;
     saveCount := saveCount s; pendingSaveTimeout := pendingSaveTimeout s;
     changeDetected := changeDetected s;
     timers := timers s; nextTimer := nextTimer s;
     savesInFlight := removeNth i (savesInFlight s);
     pollsInFlight := pollsInFlight s; alive := alive s |}.

(** The [catch (error)] block of either callback, then its [finally]. *)
Definition catchBlock (s : WatchState) (i : nat) (o : saveOrigin) (message : string)
  : WatchState :=
  if includes message "Profile too large" then exitProcess s
  else
    match o with
    | ByDebounce _ => finallyBlock s i
    | ByThrottle => finallyBlock (setPendingSave s false) i
    end.

(** The statements between the two [await]s of the [try]: the restore of
    the console functions and the write of [lastSaveTime]. *)
Definition afterSave (s : WatchState) (i : nat) (o : saveOrigin) (dateNow : Z)
  : WatchState :=
  {| lastSaveTime := match o with ByDebounce now => now | ByThrottle => dateNow end;
     pendingSave := pendingSave s;
     saveInProgress := saveInProgress s; lastHash := lastHash s;
     saveCount := saveCount s; pendingSaveTimeout := pendingSaveTimeout s;
     changeDetected := changeDetected s;
     timers := timers s; nextTimer := nextTimer s;
     savesInFlight := replaceNth i (mkSaveTask o AwaitHash) (savesInFlight s);
     pollsInFlight := pollsInFlight s; alive := alive s |}.

(** The statements after the second [await] of the [try], then its
    [finally]. *)
Definition afterHash (s : WatchState) (i : nat) (hash : string) : WatchState :=
  finallyBlock
    {| lastSaveTime := lastSaveTime s; pendingSave := false;
       saveInProgress := saveInProgress s; lastHash := hash;
       saveCount := saveCount s + 1; pendingSaveTimeout := pendingSaveTimeout s;
       changeDetected := changeDetected s;
       timers := timers s; nextTimer := nextTimer s;
       savesInFlight := savesInFlight s;
       pollsInFlight := pollsInFlight s; alive := alive s |}
    i.

Definition setTimers (s : WatchState) (ts : list (nat * timerKind)) : WatchState :=
  {| lastSaveTime := lastSaveTime s; pendingSave := pendingSave s;
     saveInProgress := saveInProgress s; lastHash := lastHash s;
     saveCount := saveCount s; pendingSaveTimeout := pendingSaveTimeout s;
     changeDetected := changeDetected s;
     timers := ts; nextTimer := nextTimer s;
     savesInFlight := savesInFlight s; pollsInFlight := pollsInFlight s;
     alive := alive s |}.

Definition setPolls (s : WatchState) (n : nat) : WatchState :=
  {| lastSaveTime := lastSaveTime s; pendingSave := pendingSave s;
     saveInProgress := saveInProgress s; lastHash := lastHash s;
     saveCount := saveCount s; pendingSaveTimeout := pendingSaveTimeout s;
     changeDetected := changeDetected s;
     timers := timers s; nextTimer := nextTimer s;
     savesInFlight := savesInFlight s; pollsInFlight := n;
     alive := alive s |}.

(** One turn of the event loop; [None] when the label cannot happen in the
    state (the process has exited, the timer is not armed, no callback is
    suspended at that promise). *)
Definition step (s : WatchState) (l : label) : option WatchState :=
  if negb (alive s) then None
  else
    match l with
    | FileChange => Some (handleFileChange s)
    | TimerFires id now =>
        match findTimer id (timers s) with
        | Some Debounce => Some (debounceCallback (setTimers s (clearTimeout id (timers s))) now)
        | Some Throttle => Some (throttleCallback (setTimers s (clearTimeout id (timers s))))
        | None => None
        end
    | SaveSettles i r dateNow =>
        match nth_error (savesInFlight s) i with
        | Some (mkSaveTask o AwaitSave) =>
            match r with
            | Js.Ok _ => Some (afterSave s i o dateNow)
            | Js.Throw message => Some (catchBlock s i o message)
            end
        | _ => None
        end
    | HashSettles i r =>
        match nth_error (savesInFlight s) i with
        | Some (mkSaveTask o AwaitHash) =>
            match r with
            | Js.Ok hash => Some (afterHash s i hash)
            | Js.Throw message => Some (catchBlock s i o message)
            end
        | _ => None
        end
    | PollFires =>
        if saveInProgress s then Some s
        else Some (setPolls s (S (pollsInFlight s)))
    | PollSettles r =>
        match pollsInFlight s with
        | O => None
        | S n =>
            match r with
            | Js.Ok currentHash =>
                if negb (String.eqb currentHash (lastHash s))
                then Some (handleFileChange (setPolls s n))
                else Some (setPolls s n)
            | Js.Throw _ => Some (setPolls s n)
            end
        end
    | Sigint => Some (exitProcess s)
    end.

(** The states the scheduler can be in. *)
Inductive reachable (hash : string) : WatchState -> Prop :=
| reachable_initial : reachable hash (initial hash)
| reachable_step (s s' : WatchState) (l : label) :
    reachable hash s -> step s l = Some s' -> reachable hash s'.

(** A run from a list of labels, for examples. *)
Fixpoint run (s : WatchState) (ls : list label) : option WatchState :=
  match ls with
  | [] => Some s
  | l :: rest =>
      match step s l with
      | Some s' => run s' rest
      | None => None
      end
  end.

(** Either a save is in progress and one callback is suspended in it, or
    none is and no callback is suspended. *)
Definition exclusive (s : WatchState) : Prop :=
  (saveInProgress s = true /\ List.length (savesInFlight s) = 1%nat) \/
  (saveInProgress s = false /\ savesInFlight s = []).

End Watch.

(** ** LocalVerifier: [verifyLocalFiles] *)

Module LocalVerifier.
Import Str Js Verifier.
Local Open Scope Z_scope.

(** What the home directory holds at the path of a check: the expanded
    path, what [fs.statSync] gives ([None] when it throws, else
    [isFile()]), and what [readFileSync] followed by [JSON.parse] gives. *)
Record LocalFile (num : Type) := mkLocalFile {
  path : string;
  stat : option bool;
  content : result (value num)
}.
Arguments mkLocalFile {num} path stat content.
Arguments path {num} l.
Arguments stat {num} l.
Arguments content {num} l.

(** The world [verifyLocalFiles] runs in. *)
Record Local (num : Type) := mkLocal {
  (** [process.platform] *)
  platform : string;
  (** whether [getKeychainCredentials()] returns a truthy record *)
  keychainCreds : bool;
  (** [~/.claude/.credentials.json] *)
  credentialsFile : LocalFile num;
  (** [~/.claude.json] *)
  configFile : LocalFile num;
  (** [~/.claude.json.backup] *)
  backupFile : LocalFile num
}.
Arguments mkLocal {num} platform keychainCreds credentialsFile configFile backupFile.
Arguments platform {num} l.
Arguments keychainCreds {num} l.
Arguments credentialsFile {num} l.
Arguments configFile {num} l.
Arguments backupFile {num} l.

(** An entry of [checks]; an absent [skipIfKeychainExists] reads as
    [false]. *)
Record Check (num : Type) := mkCheck {
  file : LocalFile num;
  essential : bool;
  description : string;
  skipIfKeychainExists : bool
}.
Arguments mkCheck {num} file essential description skipIfKeychainExists.
Arguments file {num} c.
Arguments essential {num} c.
Arguments description {num} c.
Arguments skipIfKeychainExists {num} c.

Section VerifyLocal.

Variable num : Type.
Variable numFalsy : num -> bool.

Abbreviation value := (Js.value num).
Abbreviation truthy := (Js.truthy num numFalsy).

(** [requiredFields.filter(f => !record[f])] *)
Definition missingRequired (fields : list (string * value)) : list string :=
  map fst (filter (fun f => negb (truthy (snd f))) fields).

(** The body of the inner [try]: the issue it pushes, if any. The reads of
    the optional fields feed a log line only and cannot throw after the
    reads made here. *)
Definition inspectCredentials (credentials : value) (issues : list string)
  : result (list string) :=
  claudeAiOauth <- getProp credentials "claudeAiOauth" ;;
  if truthy claudeAiOauth then
    accessToken <- getProp claudeAiOauth "accessToken" ;;
    refreshToken <- getProp claudeAiOauth "refreshToken" ;;
    let missing := missingRequired [("accessToken", accessToken);
                                    ("refreshToken", refreshToken)] in
    if 0 <? Z.of_nat (List.length missing)
    then Ok (push issues ("Credentials missing in claudeAiOauth: "
                          ++ String.concat ", " missing))
    else Ok issues
  else
    access_token <- getProp credentials "access_token" ;;
    refresh_token <- getProp credentials "refresh_token" ;;
    let missing := missingRequired [("access_token", access_token);
                                    ("refresh_token", refresh_token)] in
    if 0 <? Z.of_nat (List.length missing)
    then Ok (push issues ("Credentials missing: " ++ String.concat ", " missing))
    else Ok issues.

(** The body of [for (const check of checks)]; the state is
    [(hasAllEssential, issues)]. *)
Definition runCheck (hasKeychainCreds : bool) (st : bool * list string) (check : Check num)
  : bool * list string :=
  if skipIfKeychainExists check && hasKeychainCreds then st
  else
    match stat (file check) with
    | Some true =>
        if includes (path (file check)) ".credentials.json" then
          match content (file check) with
          | Ok credentials =>
              match inspectCredentials credentials (snd st) with
              | Ok issues => (fst st, issues)
              | Throw _ => (fst st, push (snd st) "Credentials file could not be parsed")
              end
          | Throw _ => (fst st, push (snd st) "Credentials file could not be parsed")
          end
        else st
    | Some false => st
    | None =>
        if essential check
        then (false, push (snd st) ("Missing required file: " ++ description check))
        else st
    end.

Definition checks (l : Local num) : list (Check num) :=
  let isMacOS := String.eqb (platform l) "darwin" in
  [ mkCheck (credentialsFile l) (negb isMacOS) "Claude credentials (file)" isMacOS;
    mkCheck (configFile l) true "Claude configuration" false;
    mkCheck (backupFile l) false "Configuration backup" false ].

(** [verifyLocalFiles()]; its log lines are left out: they do not enter the
    result. *)
Definition verifyLocalFiles (l : Local num) : Verification :=
  let isMacOS := String.eqb (platform l) "darwin" in
  let hasKeychainCreds := isMacOS && keychainCreds l in
  let st := fold_left (runCheck hasKeychainCreds) (checks l) (true, []) in
  mkVerification (fst st) (snd st).

End VerifyLocal.

(** Whenever the result is invalid, an issue names a missing file. *)
Definition explained (st : bool * list string) : Prop :=
  fst st = false ->
  exists description, In ("Missing required file: " ++ description) (snd st).

(** A Linux home whose credentials file holds the literal [null]. *)
Definition nullCredentialsHome : Local Z :=
  mkLocal "linux" false
    (mkLocalFile "/home/user/.claude/.credentials.json" (Some true) (Ok VNull))
    (mkLocalFile "/home/user/.claude.json" (Some true) (Ok (VObj [])))
    (mkLocalFile "/home/user/.claude.json.backup" None
       (Throw "ENOENT: no such file or directory")).

(** A macOS home with the credentials in the Keychain. *)
Definition keychainHome : Local Z :=
  mkLocal "darwin" true
    (mkLocalFile "/Users/user/.claude/.credentials.json" None
       (Throw "ENOENT: no such file or directory"))
    (mkLocalFile "/Users/user/.claude.json" (Some true) (Ok (VObj [])))
    (mkLocalFile "/Users/user/.claude.json.backup" None
       (Throw "ENOENT: no such file or directory")).

End LocalVerifier.

(** ** Restorer: the credentials block of [restoreProfile] *)

Module Restore.
Import Str Js Verifier Credentials.

(** What the block asks of the machine. For the Keychain this is the
    command line given to the shell; what the shell makes of the text
    between the double quotes, and so what the Keychain holds afterwards,
    is outside this model. *)
Inductive action (num : Type) : Type :=
| ExecSecurity (command : string)
  (** [execSync(command, { shell: true, ... })] returned *)
| WriteCredentials (data : value num)
  (** [writeFile('~/.claude/.credentials.json', JSON.stringify(data, null, 2))] *)
| CopyCredentials
  (** [copyFile(<extractDir>/.claude/.credentials.json, '~/.claude/.credentials.json')] *).
Arguments ExecSecurity {num} command.
Arguments WriteCredentials {num} data.
Arguments CopyCredentials {num}.

(** [escapedJson], the [replace] of [jsonStr]: a backslash is put before
    every double quote, and no other character is touched. *)
Fixpoint escapeQuotes (s : string) : string :=
  match s with
  | EmptyString => EmptyString
  | String c rest =>
      if Ascii.eqb c "034"%char
      then String backslash (String c (escapeQuotes rest))
      else String c (escapeQuotes rest)
  end.

(** The template literal of [command]. *)
Definition securityCommand (escapedJson : string) : string :=
  "security add-generic-password -U -a $USER -s " ++ Store.dquote
  ++ "Claude Code-credentials" ++ Store.dquote ++ " -w " ++ Store.dquote
  ++ escapedJson ++ Store.dquote.

(** The machine the profile is restored on: its platform, and the result of
    the store of the first source that is tried, and of the second (the
    [security] command on macOS; [mkdir] with [writeFile] or [copyFile]
    elsewhere). *)
Record Host := mkHost {
  platform : string;
  firstStore : result unit;
  secondStore : result unit
}.

Section RestoreCredentials.

Variable num : Type.
Variable numFalsy : num -> bool.

Abbreviation value := (Js.value num).
Abbreviation truthy := (Js.truthy num numFalsy).
Abbreviation convert := (convertCredentialsFormat num numFalsy).

(** [JSON.stringify] on the values of this block, none of which is
    [undefined]: the conversion throws on that one. *)
Variable stringify : value -> string.

(** A [try] whose [catch] only logs, or returns [false]: a throw leaves no
    action and [false]. *)
Definition attempt (r : result (list (action num) * bool)) : list (action num) * bool :=
  match r with
  | Ok done => done
  | Throw _ => ([], false)
  end.

(** [setKeychainCredentials(credentials)]: the actions and the boolean it
    returns; [security] is the result of the [execSync] call. *)
Definition setKeychainCredentials (security : result unit) (credentials : value)
  : list (action num) * bool :=
  attempt (keychainData <- convert credentials "darwin" ;;
           let jsonStr := stringify keychainData in
           let escapedJson := escapeQuotes jsonStr in
           let command := securityCommand escapedJson in
           _ <- security ;;
           Ok ([ExecSecurity command], true)).

(** On macOS, the [try] for [.macos.credentials.json]. *)
Definition fromMacOSOnDarwin (h : Host) (macos : CredFile num)
  : list (action num) * bool :=
  attempt (macosCreds <- parsed macos ;;
           Ok (setKeychainCredentials (firstStore h) macosCreds)).

(** On macOS, the [try] for [.claude/.credentials.json]. *)
Definition fromLinuxOnDarwin (h : Host) (linux : CredFile num)
  : list (action num) * bool :=
  attempt (linuxCreds <- parsed linux ;;
           convertedCreds <- convert linuxCreds "darwin" ;;
           Ok (setKeychainCredentials (secondStore h) convertedCreds)).

(** Elsewhere, the [try] for [.claude/.credentials.json], which starts with
    a [stat] of the file; [!a && b] reads [b] when [a] is falsy. *)
Definition fromLinuxOnLinux (h : Host) (linux : CredFile num)
  : list (action num) * bool :=
  if present linux then
    attempt (linuxCreds <- parsed linux ;;
             claudeAiOauth <- getProp linuxCreds "claudeAiOauth" ;;
             oldFormat <- (if truthy claudeAiOauth then Ok false
                           else access_token <- getProp linuxCreds "access_token" ;;
                                Ok (truthy access_token)) ;;
             if oldFormat then
               convertedCreds <- convert linuxCreds "linux" ;;
               _ <- firstStore h ;;
               Ok ([WriteCredentials convertedCreds], true)
             else
               _ <- firstStore h ;;
               Ok ([CopyCredentials], true))
  else ([], false).

(** Elsewhere, the [try] for [.macos.credentials.json]. *)
Definition fromMacOSOnLinux (h : Host) (macos : CredFile num)
  : list (action num) * bool :=
  attempt (macosCreds <- parsed macos ;;
           convertedCreds <- convert macosCreds "linux" ;;
           _ <- secondStore h ;;
           Ok ([WriteCredentials convertedCreds], true)).

(** The credentials block of [restoreProfile]: the actions made and
    [credentialsRestored]. *)
Definition restoreCredentials (h : Host) (linux macos : CredFile num)
  : list (action num) * bool :=
  if String.eqb (platform h) "darwin" then
    let first := fromMacOSOnDarwin h macos in
    if snd first then first
    else
      let second := fromLinuxOnDarwin h linux in
      (List.app (fst first) (fst second), snd second)
  else
    let first := fromLinuxOnLinux h linux in
    if snd first then first
    else
      let second := fromMacOSOnLinux h macos in
      (List.app (fst first) (fst second), snd second).

(** The record an action hands over is a wrapped record with truthy
    [accessToken] and [refreshToken]: the record whose JSON text, with its
    double quotes escaped, stands in the command; the record written to
    the file; for a copy, the record the file of the archive parses to. *)
Definition leavesUsable (linux : CredFile num) (a : action num) : Prop :=
  match a with
  | ExecSecurity command =>
      exists data,
        command = securityCommand (escapeQuotes (stringify data)) /\
        wrappedUsable num numFalsy data = true
  | WriteCredentials data => wrappedUsable num numFalsy data = true
  | CopyCredentials =>
      exists credentials,
        parsed linux = Ok credentials /\ wrappedUsable num numFalsy credentials = true
  end.

(** What one source contributes: every action leaves a usable record, a
    failure leaves no action, and there is at most one action. *)
Definition sound (linux : CredFile num) (r : list (action num) * bool) : Prop :=
  Forall (leavesUsable linux) (fst r) /\
  (snd r = false -> fst r = []) /\
  (List.length (fst r) <= 1)%nat.

(** A file that [stat] does not find cannot be read. *)
Definition readable (file : CredFile num) : Prop :=
  present file = false -> exists message, parsed file = Throw message.

End RestoreCredentials.

(** A [JSON.stringify] for the examples, on values with whole numbers and
    with strings that hold no control character: members whose value is
    [undefined] are left out, and [undefined] in an array reads [null]. *)
Fixpoint escapeJson (s : string) : string :=
  match s with
  | EmptyString => EmptyString
  | String c rest =>
      if Ascii.eqb c "034"%char || Ascii.eqb c backslash
      then String backslash (String c (escapeJson rest))
      else String c (escapeJson rest)
  end.

Definition quoteJson (s : string) : string :=
  Store.dquote ++ escapeJson s ++ Store.dquote.

Fixpoint stringifyZ (v : Js.value Z) : string :=
  match v with
  | VUndefined | VNull => "null"
  | VBool b => if b then "true" else "false"
  | VNum n => NilZero.string_of_int (Z.to_int n)
  | VStr s => quoteJson s
  | VArr items => "[" ++ String.concat "," (map stringifyZ items) ++ "]"
  | VObj fields =>
      "{" ++ String.concat ","
               ((fix members (fs : list (string * Js.value Z)) : list string :=
                   match fs with
                   | [] => []
                   | (_, VUndefined) :: rest => members rest
                   | (k, member) :: rest =>
                       (quoteJson k ++ ":" ++ stringifyZ member) :: members rest
                   end) fields)
      ++ "}"
  end.

(** A wrapped record whose [accessToken] starts with a dollar sign. *)
Definition dollarRecord : Js.value Z :=
  VObj [("claudeAiOauth",
         VObj [("accessToken", VStr "$HOME-at-1"); ("refreshToken", VStr "rt-1")])].

End Restore.

(** ** ProfileIndex: how the operations look a profile up in the gist *)

Module ProfileIndex.
Import Str.

Definition lineFeed : ascii := "010"%char.

(** [s.split('\n')] *)
Fixpoint splitLines (s : string) : list string :=
  match s with
  | EmptyString => [EmptyString]
  | String c rest =>
      if Ascii.eqb c lineFeed then EmptyString :: splitLines rest
      else match splitLines rest with
           | [] => [String c EmptyString]
           | p :: ps => String c p :: ps
           end
  end.

(** [s.endsWith(suffix)] *)
Fixpoint endsWith (s suffix : string) : bool :=
  String.eqb s suffix
  || match s with
     | EmptyString => false
     | String _ rest => endsWith rest suffix
     end.

(** [s.slice(n)] *)
Fixpoint skip (n : nat) (s : string) : string :=
  match n, s with
  | O, _ => s
  | S _, EmptyString => EmptyString
  | S m, String _ rest => skip m rest
  end.

(** [s.replace(pattern, '')] for a pattern that is a string: the first
    occurrence is removed. *)
Fixpoint removeFirst (s pattern : string) : string :=
  if startsWith s pattern then skip (String.length pattern) s
  else match s with
       | EmptyString => EmptyString
       | String c rest => String c (removeFirst rest pattern)
       end.

(** [`${profileName}.zip.base64`] *)
Definition profileFile (profileName : string) : string := profileName ++ ".zip.base64".

Section Lookup.

(** [String.prototype.trim]. *)
Variable trim : string -> string.

(** [files] of [listProfiles], from the output of [gh gist view --files]. *)
Definition listedFiles (stdout : string) : list string :=
  filter (fun f => endsWith f ".zip.base64") (splitLines (trim stdout)).

(** The profile names [listProfiles] prints. *)
Definition listedNames (stdout : string) : list string :=
  map (fun file => removeFirst file ".zip.base64") (listedFiles stdout).

(** The test of [deleteProfile]: [files.includes(profileFile)], on the
    lines that are not empty. *)
Definition deleteFinds (stdout profileName : string) : bool :=
  existsb (String.eqb (profileFile profileName))
    (filter (fun f => negb (String.eqb f "")) (splitLines (trim stdout))).

(** The first test of [restoreProfile] and of [verifyProfile]:
    [filesResult.stdout.includes(...)]. *)
Definition restoreFinds (stdout profileName : string) : bool :=
  includes stdout (profileFile profileName).

End Lookup.

(** A [trim] returns a part of its argument. *)
Definition cuts (trim : string -> string) : Prop :=
  forall s, exists a b, s = a ++ trim s ++ b.

End ProfileIndex.

(** ** VerifyCommand: the essential files test of [verifyProfile] *)

Module VerifyCommand.
Import Js Verifier.

(** What [verifyProfile] finds in the extracted archive: for each path
    what [stat] gives ([None] when it throws), what the credentials file
    parses to, and what [readdir] of [.claude] gives. *)
Record Archive (num : Type) := mkArchive {
  (** [.claude/.credentials.json]: [isFile()] *)
  credentials : option bool;
  credentialsContent : result (value num);
  (** [.claude.json]: [isFile()] *)
  config : option bool;
  (** [.claude.json.backup]: [isFile()] *)
  backup : option bool;
  (** [.claude]: [isDirectory()] *)
  claudeDirectory : option bool;
  (** the number of entries of [.claude] *)
  claudeEntries : result nat
}.
Arguments mkArchive {num} credentials credentialsContent config backup
  claudeDirectory claudeEntries.
Arguments credentials {num} a.
Arguments credentialsContent {num} a.
Arguments config {num} a.
Arguments backup {num} a.
Arguments claudeDirectory {num} a.
Arguments claudeEntries {num} a.

(** An entry of [checks] with what the archive holds at its path; what
    [stat] answers is [isDirectory()] for an entry with [isDirectory], and
    [isFile()] for the others. *)
Record Check := mkCheck {
  essential : bool;
  isDirectory : bool;
  stats : option bool;
  entries : result nat
}.

(** The body of [for (const check of checks)], on [hasEssentialFiles]. The
    look into the credentials has a [catch] of its own and writes to no
    variable of the loop. *)
Definition runCheck (hasEssentialFiles : bool) (check : Check) : bool :=
  match stats check with
  | Some answer =>
      if isDirectory check then
        if answer then
          match entries check with
          | Ok _ => hasEssentialFiles
          | Throw _ => if essential check then false else hasEssentialFiles
          end
        else hasEssentialFiles
      else
        if answer then hasEssentialFiles
        else if essential check then false else hasEssentialFiles
  | None => if essential check then false else hasEssentialFiles
  end.

Definition checks {num : Type} (a : Archive num) : list Check :=
  [ mkCheck true false (credentials a) (Ok 0%nat);
    mkCheck true false (config a) (Ok 0%nat);
    mkCheck false false (backup a) (Ok 0%nat);
    mkCheck false true (claudeDirectory a) (claudeEntries a) ].

(** [hasEssentialFiles] after the loop: whether [verifyProfile] reports the
    profile as valid and ready to restore. *)
Definition hasEssentialFiles {num : Type} (a : Archive num) : bool :=
  fold_left runCheck (checks a) true.

(** The same archive as [verifyDownloadedProfile] finds it once unpacked,
    with [macos] at [.macos.credentials.json]. *)
Definition asUnpacked {num : Type} (a : Archive num) (macos : CredFile num) : Unpacked num :=
  mkUnpacked None 0
    (mkCredFile (match credentials a with Some _ => true | None => false end)
       (credentialsContent a))
    macos (config a).

(** A profile saved on macOS with the credentials in the Keychain. *)
Definition macosArchive : Archive Z :=
  mkArchive None (Throw "ENOENT: no such file or directory") (Some true) None
    (Some true) (Ok 12%nat).

Definition macosExport : CredFile Z :=
  mkCredFile true
    (Ok (VObj [("claudeAiOauth",
                VObj [("accessToken", VStr "at-1");
                      ("refreshToken", VStr "rt-1");
                      ("expiresAt", VNum 1767225600000%Z);
                      ("scopes", VArr [VStr "user:inference"]);
                      ("subscriptionType", VStr "max")])])).

End VerifyCommand.

(** ** Hasher: [calculateFilesHash] *)

Module Hasher.
Import Str PathFilter.

(** What [calculateFilesHash] finds at the source path of a backup entry.
    For a directory: the paths [readdir] lists, or the error it throws, and
    for each path the bytes read when [stat] succeeds, says it is a file,
    and [readFile] succeeds. *)
Inductive Source : Type :=
| Missing
  (** [stat] throws *)
| Directory (files : Js.result (list string)) (contentOf : string -> option string)
| File (content : Js.result string)
| Other.

Record Machine := mkMachine {
  (** the backup sources, by their [source] property *)
  sourceAt : string -> Source;
  (** [process.platform] *)
  platform : string;
  (** [JSON.stringify(keychainCreds)] when [getKeychainCredentials()] is truthy *)
  keychainJson : option string
}.

(** The bytes read in [for (const file of filteredFiles)]. *)
Definition contents (contentOf : string -> option string) (files : list string)
  : list string :=
  flat_map (fun file => match contentOf file with Some c => [c] | None => [] end) files.

Section Hash.

(** The hexadecimal SHA-256 digest of a sequence of bytes. *)
Variable digest : string -> string.
(** [Array.prototype.sort()] on strings: it sorts the array in place, so the
    loop over [filteredFiles] that follows runs in sorted order. *)
Variable sort : list string -> list string.

(** The arguments of [hash.update] for one backup entry. *)
Definition updatesOf (item : BackupPath) (src : Source) : list string :=
  match src with
  | Directory (Js.Ok files) contentOf =>
      let filteredFiles := sort (hashedPaths item files) in
      String.concat "|" filteredFiles :: contents contentOf filteredFiles
  | Directory (Js.Throw _) _ => []
  | File (Js.Ok content) => [content]
  | File (Js.Throw _) => []
  | Missing | Other => []
  end.

(** The arguments of [hash.update], in order. *)
Definition updates (options : Options) (m : Machine) : list string :=
  List.app
    (flat_map (fun item => updatesOf item (sourceAt m (source item)))
       (getBackupPaths options))
    (if String.eqb (platform m) "darwin" then
       match keychainJson m with
       | Some json => [json]
       | None => []
       end
     else []).

(** [calculateFilesHash(options)]: the digest of the updates, which the
    hash object concatenates. *)
Definition calculateFilesHash (options : Options) (m : Machine) : string :=
  digest (String.concat "" (updates options m)).

End Hash.

(** Two sources that differ at most in the order of a directory listing. *)
Definition reordered (s s' : Source) : Prop :=
  match s, s' with
  | Directory (Js.Ok files) contentOf, Directory (Js.Ok files') contentOf' =>
      Permutation files files' /\ forall file, contentOf file = contentOf' file
  | _, _ => s = s'
  end.

(** A sort for the examples: insertion sort by the order of the bytes. *)
Fixpoint insert (x : string) (l : list string) : list string :=
  match l with
  | [] => [x]
  | y :: rest => if String.leb x y then x :: y :: rest else y :: insert x rest
  end.

Definition byteSort (l : list string) : list string := fold_right insert [] l.

(** A home directory on Linux, listed in the order [names]. *)
Definition homeListed (names : list string) : Machine :=
  mkMachine
    (fun path =>
       if String.eqb path "~/.claude"
       then Directory (Js.Ok names)
              (fun file => if String.eqb file "settings.json" then Some "{}"
                           else if String.eqb file ".credentials.json" then Some "{...}"
                           else None)
       else if String.eqb path "~/.claude.json" then File (Js.Ok "{}")
       else Missing)
    "linux" None.

End Hasher.

(** ** DirectoryTree: the sizes [displayDirectoryTree] shows *)

Module Tree.
Import Str.
Local Open Scope Z_scope.

(** An entry of a directory as [readdir] with [withFileTypes] gives it: a
    file with the size [stat] reports ([None] when [stat] throws), a
    directory with its own entries ([None] when [readdir] throws on it), or
    an entry of another type. *)
#[warnings="-register-all"]
Inductive Node : Type :=
| FileNode (name : string) (size : option Z)
| DirNode (name : string) (entries : option (list Node))
| OtherNode (name : string).

(** An element of [items]. Sizes are byte counts, far below [2^53], where
    the sums of the code are exact. *)
#[warnings="-register-all"]
Inductive Item : Type :=
| FileItem (name : string) (size : Z)
| DirItem (name : string) (size : Z) (items : list Item).

Definition nodeName (n : Node) : string :=
  match n with
  | FileNode name _ | DirNode name _ | OtherNode name => name
  end.

Definition itemName (i : Item) : string :=
  match i with
  | FileItem name _ | DirItem name _ _ => name
  end.

Definition itemSize (i : Item) : Z :=
  match i with
  | FileItem _ size | DirItem _ size _ => size
  end.

(** [entry.name === 'projects' || entry.name.startsWith('projects')] *)
Definition namedProjects (name : string) : bool :=
  String.eqb name "projects" || startsWith name "projects".

(** The body of [for (const entry of entries)], on [(totalSize, items)];
    [recur] is the call of [getDirectorySize] one level down. *)
Definition visit (skipProjects : bool) (recur : option (list Node) -> Z * list Item)
  (acc : Z * list Item) (entry : Node) : Z * list Item :=
  if skipProjects && namedProjects (nodeName entry) then acc
  else
    match entry with
    | DirNode name entries =>
        let subResult := recur entries in
        (fst acc + fst subResult,
         List.app (snd acc) [DirItem name (fst subResult) (snd subResult)])
    | FileNode name (Some size) =>
        (fst acc + size, List.app (snd acc) [FileItem name size])
    | FileNode _ None => acc
    | OtherNode _ => acc
    end.

(** [getDirectorySize(dir, currentDepth)], with [levels] for
    [maxDepth - currentDepth]: [{ size, items }]. *)
Fixpoint getDirectorySize (skipProjects : bool) (levels : nat) (dir : option (list Node))
  : Z * list Item :=
  match levels with
  | O => (0, [])
  | S below =>
      match dir with
      | None => (0, [])
      | Some entries =>
          fold_left (visit skipProjects (getDirectorySize skipProjects below))
            entries (0, [])
      end
  end.

(** [maxDepth], which no caller sets. *)
Definition maxDepth : nat := 3.

(** The sum of the sizes shown for a list of items. *)
Definition shownTotal (items : list Item) : Z :=
  fold_right (fun i total => itemSize i + total) 0 items.

(** Every directory of the tree shows the sum of what is shown below it. *)
Fixpoint addsUp (i : Item) : bool :=
  match i with
  | FileItem _ _ => true
  | DirItem _ size items => (size =? shownTotal items) && forallb addsUp items
  end.

(** No item of the tree, at any depth, has a name that starts with
    [projects]. *)
Fixpoint withoutProjects (i : Item) : bool :=
  negb (namedProjects (itemName i))
  && match i with
     | FileItem _ _ => true
     | DirItem _ _ items => forallb withoutProjects items
     end.

(** The number of levels of an item. *)
Fixpoint height (i : Item) : nat :=
  match i with
  | FileItem _ _ => 1
  | DirItem _ _ items => S (fold_right (fun i h => Nat.max (height i) h) 0%nat items)
  end.

(** A [~/.claude] with a notes file whose name starts with [projects] and a
    file four levels down. *)
Definition sampleHome : list Node :=
  [ FileNode "settings.json" (Some 120);
    FileNode "projects-notes.txt" (Some 50);
    DirNode "projects" (Some [FileNode "chat.jsonl" (Some 4000)]);
    DirNode "a" (Some [DirNode "b" (Some [DirNode "c"
                  (Some [FileNode "deep.bin" (Some 900)])])]) ].

End Tree.

(** ** Encoding: the text that is uploaded *)

Module Encoding.
Local Open Scope Z_scope.

(** The length of [zipBuffer.toString('base64')] for a buffer of
    [sizeBytes] bytes: four characters for every three bytes, the last
    group padded. *)
Definition base64Length (sizeBytes : Z) : Z := 4 * ((sizeBytes + 2) / 3).

End Encoding.

(** ** CommandLine: the [check] of the options and the dispatcher *)

Module Cli.
Import Js.

(** The value of an option in [argv]: absent ([undefined]), a boolean, or
    a string. *)
Inductive argValue : Type :=
| Absent
| Flag (b : bool)
| Text (s : string).

(** Truthiness of an option value, as [filter(Boolean)], [!!v], [if (v)] and
    [a && b] test it. *)
Definition given (v : argValue) : bool :=
  match v with
  | Absent => false
  | Flag b => b
  | Text s => negb (String.eqb s "")
  end.

(** The options of [argv] that the [check] and the dispatcher read. *)
Record Argv := mkArgv {
  argList : argValue;
  argStore : argValue;
  argRestore : argValue;
  argDelete : argValue;
  argVerify : argValue;
  argWatch : argValue
}.

(** [[argv.list, argv.store, argv.restore, argv.delete, argv.verify,
    argv.watch].filter(Boolean)] *)
Definition mainOptions (argv : Argv) : list argValue :=
  filter given [argList argv; argStore argv; argRestore argv;
                argDelete argv; argVerify argv; argWatch argv].

(** The function given to [.check(...)]. *)
Definition check (argv : Argv) : result bool :=
  if Nat.eqb (List.length (mainOptions argv)) 0 then
    Throw ("Please specify one of: --list, --store, --restore, --delete, --verify, "
           ++ "--watch, or combine --restore/--store with --watch")
  else if Nat.ltb 1 (List.length (mainOptions argv)) then
    let hasWatch := given (argWatch argv) in
    let hasRestoreOrStore := given (argRestore argv) || given (argStore argv) in
    let hasOtherOptions :=
      given (argList argv) || given (argDelete argv) || given (argVerify argv) in
    if hasWatch && hasRestoreOrStore && negb hasOtherOptions
       && Nat.eqb (List.length (mainOptions argv)) 2
    then Ok true
    else Throw ("Only --restore/--store can be combined with --watch. "
                ++ "Other options must be used individually.")
  else Ok true.

(** The operations the dispatcher awaits, each with the profile name it is
    given. *)
Inductive command : Type :=
| ListProfiles
| SaveProfile (name : argValue)
| RestoreProfile (name : argValue)
| DeleteProfile (name : argValue)
| VerifyProfile (name : argValue)
| WatchProfile (name : argValue).

(** [typeof v === 'boolean' ? fallback : v] *)
Definition unlessBoolean (v fallback : argValue) : argValue :=
  match v with
  | Flag _ => fallback
  | _ => v
  end.

(** The [if] chain of the main function, once [checkGitHubAuth] has
    answered [true]: the operations it awaits, in order; the second of two
    is reached when the first has returned. *)
Definition dispatch (argv : Argv) : list command :=
  if given (argList argv) then [ListProfiles]
  else if given (argStore argv) && given (argWatch argv) then
    [SaveProfile (unlessBoolean (argStore argv) (argWatch argv));
     WatchProfile (argWatch argv)]
  else if given (argRestore argv) && given (argWatch argv) then
    [RestoreProfile (unlessBoolean (argRestore argv) (argWatch argv));
     WatchProfile (argWatch argv)]
  else if given (argStore argv) then [SaveProfile (argStore argv)]
  else if given (argRestore argv) then [RestoreProfile (argRestore argv)]
  else if given (argDelete argv) then [DeleteProfile (argDelete argv)]
  else if given (argVerify argv) then [VerifyProfile (argVerify argv)]
  else if given (argWatch argv) then [WatchProfile (argWatch argv)]
  else [].

(** The profile name of a command, [None] for [ListProfiles]. *)
Definition nameOf (c : command) : option argValue :=
  match c with
  | ListProfiles => None
  | SaveProfile name | RestoreProfile name | DeleteProfile name
  | VerifyProfile name | WatchProfile name => Some name
  end.

End Cli.

(** ** Predicates on the states of the watch scheduler *)

Module WatchSpec.
Import Watch.
Local Open Scope Z_scope.

(** At most one timer is armed, and [pendingSaveTimeout] refers to it. *)
Definition singleTimer (s : WatchState) : Prop :=
  timers s = [] \/
  exists id kind, timers s = [(id, kind)] /\ pendingSaveTimeout s = Some id.

(** The state after one save that started at [1700000000000], completed
    with hash [h1], and a change five seconds later whose save had to wait:
    the throttle timer is armed. *)
Definition throttled : WatchState :=
  {| lastSaveTime := 1700000000000; pendingSave := true; saveInProgress := false;
     lastHash := "h1"; saveCount := 1; pendingSaveTimeout := Some 2%nat;
     changeDetected := false; timers := [(2%nat, Throttle)]; nextTimer := 3%nat;
     savesInFlight := []; pollsInFlight := 0%nat; alive := true |}.

End WatchSpec.

(** ** Predicates on the traces of the store operations *)

Module StoreSpec.
Import Str Effects.

(** The computation does not end by throwing. *)
Definition neverThrows {A : Type} (m : M A) : Prop :=
  forall message, outcomeOf m <> Thrown message.

(** A log line, or the query of the authentication status. *)
Definition isReport (e : event) : bool :=
  match e with
  | Log _ _ | LogData _ _ _ | GetDetailedAuthStatus => true
  | _ => false
  end.

(** An archive entry that holds the projects folder: the directory
    [.claude] taken whole, or a file below [.claude/projects/]. *)
Definition archivesProjects (e : event) : bool :=
  match e with
  | ArchiveDirectory name => String.eqb name ".claude"
  | ArchiveFile name => startsWith name ".claude/projects/"
  | _ => false
  end.

End StoreSpec.

(** ** Sample values for the examples *)

Module Samples.
Import Js.

(** A record in none of the known formats. *)
Definition sessionRecord : Js.value Z := VObj [("sessionKey", VStr "sk-1")].

(** A wrapped record with every field present and an empty [accessToken],
    and an unpacked profile that holds it. *)
Definition emptyTokenOauth : list (string * Js.value Z) :=
  [("accessToken", VStr "");
   ("refreshToken", VStr "rt-1");
   ("expiresAt", VNum 1767225600000%Z);
   ("scopes", VArr [VStr "user:inference"]);
   ("subscriptionType", VStr "max")].

Definition emptyTokenProfile : Verifier.Unpacked Z :=
  Verifier.mkUnpacked None 0%Z
    (Verifier.mkCredFile true (Ok (VObj [("claudeAiOauth", VObj emptyTokenOauth)])))
    (Verifier.mkCredFile false (Throw "ENOENT: no such file or directory"))
    (Some true).

(** A record in the format with underscores, and one with the field names
    of the wrapped format and no wrapper; the conversion of the credential
    bridge wraps both. *)
Definition flatRecord : Js.value Z :=
  VObj [("access_token", VStr "at-1");
        ("refresh_token", VStr "rt-1");
        ("expiry_date", VNum 1767225600000%Z)].

Definition camelRecord : Js.value Z :=
  VObj [("accessToken", VStr "at-1"); ("refreshToken", VStr "rt-1")].

Definition absentFile : Verifier.CredFile Z :=
  Verifier.mkCredFile false (Throw "ENOENT: no such file or directory").

(** An archive with both exports, the generic file usable and the native
    export in the format with underscores. *)
Definition bothExports : Verifier.Unpacked Z :=
  Verifier.mkUnpacked None 0%Z
    (Verifier.linuxCreds Verifier.linuxProfile)
    (Verifier.mkCredFile true (Ok flatRecord))
    (Some true).

(** An archive with the native export alone, in the format with
    underscores. *)
Definition flatNativeOnly : Verifier.Unpacked Z :=
  Verifier.mkUnpacked None 0%Z absentFile (Verifier.mkCredFile true (Ok flatRecord))
    (Some true).

(** An archive with the generic file alone, without wrapper. *)
Definition camelGenericOnly : Verifier.Unpacked Z :=
  Verifier.mkUnpacked None 0%Z (Verifier.mkCredFile true (Ok camelRecord)) absentFile
    (Some true).

(** An archive whose [.claude/.credentials.json] is not JSON. *)
Definition unparseableArchive : VerifyCommand.Archive Z :=
  VerifyCommand.mkArchive (Some true)
    (Throw "Unexpected token } in JSON at position 1") (Some true) None
    (Some true) (Ok 12%nat).

End Samples.

(** * Properties *)

(** ** Strings *)

Module StrFacts.
Import Str.

Lemma split_nonempty (s : string) : split s <> [].
Proof.
  induction s as [|c rest IH]; simpl; [discriminate|].
  destruct (isSep c); [discriminate|].
  destruct (split rest); [contradiction|discriminate].
Qed.

Lemma startsWith_app (s p : string) :
  startsWith s p = true <-> exists t, s = p ++ t.
Proof.
  unfold startsWith. revert s.
  induction p as [|c p IH]; intros s; simpl.
  - split; [intros _; now exists s | intros _; now destruct s].
  - destruct s as [|d s]; simpl.
    + split; [discriminate | intros [t Ht]; discriminate].
    + destruct (ascii_dec c d) as [->|Hne].
      * rewrite IH. split; intros [t Ht]; exists t; [now subst | now injection Ht].
      * split; [discriminate|].
        intros [t Ht]. injection Ht as E _. now symmetry in E.
Qed.

(** Splitting a separator-free head followed by a separator. *)
Lemma split_head (a : string) (c : ascii) (t : string) :
  sepFree a = true -> isSep c = true ->
  split (a ++ String c t) = a :: split t.
Proof.
  intros Ha Hc. induction a as [|d a IH]; simpl in *.
  - now rewrite Hc.
  - apply andb_true_iff in Ha as [Hd Ha].
    apply negb_true_iff in Hd. rewrite Hd, (IH Ha). reflexivity.
Qed.

(** The first segment is separator-free, and a second segment exists only
    behind a separator. *)
Lemma split_cons_inv (s p q : string) (rest : list string) :
  split s = p :: q :: rest ->
  exists c t, isSep c = true /\ s = p ++ String c t /\ split t = q :: rest.
Proof.
  revert p. induction s as [|d s IH]; intros p; simpl; [discriminate|].
  destruct (isSep d) eqn:Hd.
  - intros H. injection H as <- H. exists d, s. now repeat split.
  - destruct (split s) as [|p' ps] eqn:Hs; [discriminate|].
    intros H. injection H as <- ->.
    destruct (IH p' eq_refl) as (c & t & Hc & -> & Ht).
    exists c, t. now repeat split.
Qed.

End StrFacts.

(** ** PathFilter *)

Module PathFilterFacts.
Import Str StrFacts PathFilter.

Lemma projects_sepFree : sepFree "projects" = true.
Proof. reflexivity. Qed.

(** The two prefixes tested by the code are the segment [projects] followed
    by one separator character. *)
Lemma inProjectsFolder_app (file : string) :
  inProjectsFolder file = true <->
  exists c t, isSep c = true /\ file = "projects" ++ String c t.
Proof.
  unfold inProjectsFolder. rewrite orb_true_iff, !startsWith_app. split.
  - intros [[t ->]|[t ->]].
    + exists slash, t. split; reflexivity.
    + exists backslash, t. split; reflexivity.
  - intros (c & t & Hc & ->). unfold isSep in Hc.
    apply orb_true_iff in Hc as [Hc|Hc]; apply Ascii.eqb_eq in Hc; subst c.
    + left. exists t. reflexivity.
    + right. exists t. reflexivity.
Qed.

(** In terms of segments: the first segment is [projects] and another
    segment follows it. *)
Lemma inProjectsFolder_segments (file : string) :
  inProjectsFolder file = true <->
  exists seg rest, split file = "projects" :: seg :: rest.
Proof.
  rewrite inProjectsFolder_app. split.
  - intros (c & t & Hc & ->).
    rewrite (split_head "projects" c t projects_sepFree Hc).
    destruct (split t) as [|seg rest] eqn:Ht; [now apply split_nonempty in Ht|].
    now exists seg, rest.
  - intros (seg & rest & H).
    destruct (split_cons_inv _ _ _ _ H) as (c & t & Hc & -> & _).
    now exists c, t.
Qed.

Lemma nestedClaudeFrom_spec (pathParts : list string) (i : nat) :
  nestedClaudeFrom i pathParts = true <->
  exists j, 0 < i + j /\ nth_error pathParts j = Some dotClaude.
Proof.
  revert i. induction pathParts as [|part rest IH]; intros i; simpl.
  - split; [discriminate|]. intros (j & _ & H). now destruct j.
  - destruct (String.eqb part dotClaude && Nat.ltb 0 i) eqn:E.
    + split; [intros _|reflexivity].
      apply andb_true_iff in E as [Ep Ei].
      apply String.eqb_eq in Ep. apply Nat.ltb_lt in Ei.
      exists 0. split; [lia|now subst].
    + rewrite IH. split.
      * intros (j & Hj & H). exists (S j). split; [lia|exact H].
      * intros (j & Hj & H). destruct j as [|j]; simpl in H.
        -- injection H as ->. rewrite String.eqb_refl in E. simpl in E.
           apply Nat.ltb_ge in E. lia.
        -- exists j. split; [lia|exact H].
Qed.

Lemma getBackupPaths_skipProjects (options : Options) (item : BackupPath) :
  In item (getBackupPaths options) ->
  skipProjects item = optSkipProjects options && canSkipProjects item.
Proof.
  unfold getBackupPaths. destruct (optSkipProjects options); simpl;
    intros [<-|[<-|[<-|[]]]]; reflexivity.
Qed.

Lemma archiveFilter_eq (file : string) :
  archiveFilter file =
  negb (inProjectsFolder file) && negb (nestedClaude (split file)).
Proof.
  unfold archiveFilter.
  destruct (inProjectsFolder file); [reflexivity|].
  now destruct (nestedClaude (split file)).
Qed.

Lemma hashFilter_eq (file : string) :
  hashFilter file = negb (inProjectsFolder file).
Proof.
  unfold hashFilter, inProjectsFolder. now rewrite negb_orb.
Qed.

(** C1, as stated, fails on the code: with subtree exclusion active for the
    [~/.claude] entry, a path with a [projects] segment below the top level
    is kept by the filter of [saveProfile] and [saveProfileSilent] and by the
    filter of [calculateFilesHash], and so is the path [projects] itself,
    although the rule as the specification words it excludes both. *)
Lemma skipProjects_keeps_nested_and_bare_projects :
  In claudeEntrySkipping (getBackupPaths (mkOptions true)) /\
  specExcludesSubtree "todos/projects/a.json" = true /\
  archivedPaths claudeEntrySkipping ["todos/projects/a.json"] = ["todos/projects/a.json"] /\
  hashedPaths claudeEntrySkipping ["todos/projects/a.json"] = ["todos/projects/a.json"] /\
  specExcludesSubtree "projects" = true /\
  archivedPaths claudeEntrySkipping ["projects"] = ["projects"] /\
  hashedPaths claudeEntrySkipping ["projects"] = ["projects"].
Proof.
  simpl. repeat split; try reflexivity. left. reflexivity.
Qed.

(** C1, amended: when subtree exclusion is active (the option is set and the
    entry allows it), the paths kept for the archive are exactly the listed
    paths that do not have [projects] as their whole first segment followed
    by a further segment and that pass the nested-root rule; the paths kept
    for the hash are exactly the listed paths that do not have [projects] as
    their whole first segment followed by a further segment. *)
Theorem skipProjects_excludes_top_level_projects
  (options : Options) (item : BackupPath) (files : list string) (file : string) :
  In item (getBackupPaths options) ->
  optSkipProjects options = true ->
  canSkipProjects item = true ->
  (In file (archivedPaths item files) <->
   In file files /\
   ~ (exists seg rest, split file = "projects" :: seg :: rest) /\
   nestedClaude (split file) = false) /\
  (In file (hashedPaths item files) <->
   In file files /\
   ~ (exists seg rest, split file = "projects" :: seg :: rest)).
Proof.
  intros Hin Hopt Hcan.
  pose proof (getBackupPaths_skipProjects options item Hin) as Hskip.
  rewrite Hopt, Hcan in Hskip. simpl in Hskip.
  unfold archivedPaths, hashedPaths. rewrite Hskip.
  rewrite !filter_In, archiveFilter_eq, hashFilter_eq, andb_true_iff,
    !negb_true_iff, <- inProjectsFolder_segments.
  split; split.
  - intros (Hf & Hp & Hn). repeat split; [exact Hf| |exact Hn].
    now rewrite Hp.
  - intros (Hf & Hp & Hn). repeat split; [exact Hf| |exact Hn].
    now apply not_true_is_false.
  - intros (Hf & Hp). split; [exact Hf|]. now rewrite Hp.
  - intros (Hf & Hp). split; [exact Hf|]. now apply not_true_is_false.
Qed.

Lemma skipProjects_excludes_top_level_projects_witness :
  In claudeEntrySkipping (getBackupPaths (mkOptions true)) /\
  optSkipProjects (mkOptions true) = true /\
  canSkipProjects claudeEntrySkipping = true /\
  (In "projects/p1/chat.jsonl"
      (archivedPaths claudeEntrySkipping
         ["settings.json"; "projects/p1/chat.jsonl"; "todos/projects/a.json"]) <->
   In "projects/p1/chat.jsonl"
      ["settings.json"; "projects/p1/chat.jsonl"; "todos/projects/a.json"] /\
   ~ (exists seg rest, split "projects/p1/chat.jsonl" = "projects" :: seg :: rest) /\
   nestedClaude (split "projects/p1/chat.jsonl") = false) /\
  (In "projects/p1/chat.jsonl"
      (hashedPaths claudeEntrySkipping
         ["settings.json"; "projects/p1/chat.jsonl"; "todos/projects/a.json"]) <->
   In "projects/p1/chat.jsonl"
      ["settings.json"; "projects/p1/chat.jsonl"; "todos/projects/a.json"] /\
   ~ (exists seg rest, split "projects/p1/chat.jsonl" = "projects" :: seg :: rest)).
Proof.
  assert (Hin : In claudeEntrySkipping (getBackupPaths (mkOptions true)))
    by (simpl; left; reflexivity).
  split; [exact Hin|]. split; [reflexivity|]. split; [reflexivity|].
  exact (skipProjects_excludes_top_level_projects (mkOptions true)
           claudeEntrySkipping
           ["settings.json"; "projects/p1/chat.jsonl"; "todos/projects/a.json"]
           "projects/p1/chat.jsonl" Hin eq_refl eq_refl).
Defined.



Example archiveFilter_top_level_claude :
  archiveFilter ".claude/settings.json" = true /\
  archiveFilter "sub/.claude/settings.json" = false /\
  archiveFilter "a/b/.claude" = false /\
  archiveFilter "sub/.claudex/settings.json" = true.
Proof. repeat split. Qed.

End PathFilterFacts.

(** ** SizeGuard *)

Module SizeGuardFacts.
Import SizeGuard.
Local Open Scope Z_scope.

(** Sample values. The product [300 * 1.33] is a little above 399 before it
    is rounded, and exactly 399 after. *)
Example ceilTimes133_samples :
  ceilTimes133 0 = 0 /\ ceilTimes133 1 = 2 /\ ceilTimes133 100 = 133 /\
  ceilTimes133 300 = 399 /\
  ceilTimes133 (31 * 1024 * 1024) = 43232789 /\
  ceilTimes133 9007199254740991 = 11979575008805518.
Proof. vm_compute. repeat split. Qed.

Lemma round53pos_eq (p : Z) :
  round53pos p = if Z.log2 p - 52 <=? 0 then p else roundAt (Z.log2 p - 52) p.
Proof. reflexivity. Qed.

Lemma roundAt_lower (s p : Z) : 0 < s -> p / 2 ^ s * 2 ^ s <= roundAt s p.
Proof.
  intros Hs. unfold roundAt.
  assert (0 < 2 ^ s) by (apply Z.pow_pos_nonneg; lia).
  destruct (_ || _); nia.
Qed.

Lemma roundAt_upper (s p : Z) : 0 < s -> roundAt s p <= (p / 2 ^ s + 1) * 2 ^ s.
Proof.
  intros Hs. unfold roundAt.
  assert (0 < 2 ^ s) by (apply Z.pow_pos_nonneg; lia).
  destruct (_ || _); nia.
Qed.

Lemma roundAt_mono (s p1 p2 : Z) :
  0 < s -> p1 <= p2 -> roundAt s p1 <= roundAt s p2.
Proof.
  intros Hs Hle.
  assert (Hpos : 0 < 2 ^ s) by (apply Z.pow_pos_nonneg; lia).
  assert (Hq : p1 / 2 ^ s <= p2 / 2 ^ s) by (apply Z.div_le_mono; lia).
  destruct (Z.eq_dec (p1 / 2 ^ s) (p2 / 2 ^ s)) as [E|NE].
  - assert (Hr : p1 mod 2 ^ s <= p2 mod 2 ^ s).
    { rewrite !Z.mod_eq by lia. rewrite E. lia. }
    unfold roundAt. rewrite E.
    destruct ((2 ^ (s - 1) <? p1 mod 2 ^ s)
              || ((p1 mod 2 ^ s =? 2 ^ (s - 1)) && Z.odd (p2 / 2 ^ s))) eqn:B1.
    + assert (B2 : (2 ^ (s - 1) <? p2 mod 2 ^ s)
                   || ((p2 mod 2 ^ s =? 2 ^ (s - 1)) && Z.odd (p2 / 2 ^ s)) = true).
      { apply orb_true_iff in B1 as [B1|B1].
        - apply Z.ltb_lt in B1. apply orb_true_iff. left. apply Z.ltb_lt. lia.
        - apply andb_true_iff in B1 as [B1 Ho]. apply Z.eqb_eq in B1.
          destruct (Z.eq_dec (p2 mod 2 ^ s) (2 ^ (s - 1))) as [E2|N2].
          + apply orb_true_iff. right. rewrite E2, Z.eqb_refl, Ho. reflexivity.
          + apply orb_true_iff. left. apply Z.ltb_lt. lia. }
      rewrite B2. lia.
    + apply Z.mul_le_mono_nonneg_r; [lia|].
      match goal with |- context [if ?b then _ else _] => destruct b end; lia.
  - pose proof (roundAt_upper s p1 Hs). pose proof (roundAt_lower s p2 Hs). nia.
Qed.

Lemma log2_bounds (p : Z) : 0 < p -> 2 ^ Z.log2 p <= p < 2 ^ (Z.log2 p + 1).
Proof. intros Hp. pose proof (Z.log2_spec p Hp). now rewrite <- Z.add_1_r in H. Qed.

(** A number that needs rounding stays within its binade. *)
Lemma roundAt_binade (p : Z) :
  0 < Z.log2 p - 52 ->
  2 ^ Z.log2 p <= roundAt (Z.log2 p - 52) p <= 2 ^ (Z.log2 p + 1).
Proof.
  intros Hs.
  assert (Hp : 0 < p).
  { destruct (Z.lt_ge_cases 0 p) as [|Hn]; [assumption|].
    rewrite (Z.log2_nonpos p Hn) in Hs. lia. }
  set (s := Z.log2 p - 52) in *.
  pose proof (log2_bounds p Hp) as [Hlo Hhi].
  assert (Hpos : 0 < 2 ^ s) by (apply Z.pow_pos_nonneg; lia).
  assert (E1 : 2 ^ Z.log2 p = 2 ^ 52 * 2 ^ s).
  { rewrite <- Z.pow_add_r by lia. f_equal. subst s. lia. }
  assert (E2 : 2 ^ (Z.log2 p + 1) = 2 ^ 53 * 2 ^ s).
  { rewrite <- Z.pow_add_r by lia. f_equal. subst s. lia. }
  pose proof (roundAt_lower s p Hs) as Hl.
  pose proof (roundAt_upper s p Hs) as Hu.
  assert (Hq1 : 2 ^ 52 <= p / 2 ^ s).
  { apply Z.div_le_lower_bound; lia. }
  assert (Hq2 : p / 2 ^ s < 2 ^ 53).
  { apply Z.div_lt_upper_bound; lia. }
  rewrite E1, E2. split; nia.
Qed.

Lemma round53pos_mono (p1 p2 : Z) :
  0 <= p1 -> p1 <= p2 -> round53pos p1 <= round53pos p2.
Proof.
  intros H0 Hle. rewrite !round53pos_eq.
  pose proof (Z.log2_le_mono p1 p2 Hle) as Hlog.
  destruct (Z.leb_spec (Z.log2 p1 - 52) 0) as [S1|S1];
    destruct (Z.leb_spec (Z.log2 p2 - 52) 0) as [S2|S2]; try lia.
  - (* only the larger one is rounded *)
    pose proof (roundAt_binade p2 S2) as [Hlo _].
    destruct (Z.eq_dec p1 0) as [->|Hnz].
    + assert (0 < 2 ^ Z.log2 p2) by (apply Z.pow_pos_nonneg; [lia|apply Z.log2_nonneg]). lia.
    + pose proof (log2_bounds p1 ltac:(lia)) as [_ Hhi].
      assert (2 ^ (Z.log2 p1 + 1) <= 2 ^ Z.log2 p2) by (apply Z.pow_le_mono_r; lia).
      lia.
  - destruct (Z.eq_dec (Z.log2 p1) (Z.log2 p2)) as [E|NE].
    + rewrite E. apply roundAt_mono; lia.
    + pose proof (roundAt_binade p1 S1) as [_ Hhi].
      pose proof (roundAt_binade p2 S2) as [Hlo _].
      assert (2 ^ (Z.log2 p1 + 1) <= 2 ^ Z.log2 p2) by (apply Z.pow_le_mono_r; lia).
      lia.
Qed.

Lemma round53pos_nonneg (p : Z) : 0 <= p -> 0 <= round53pos p.
Proof. intros Hp. now apply (round53pos_mono 0 p). Qed.

Lemma ceilTimes133_mono (a b : Z) :
  0 <= a -> a <= b -> ceilTimes133 a <= ceilTimes133 b.
Proof.
  intros Ha Hab. unfold ceilTimes133, round53, mantissa133.
  destruct (Z.ltb_spec (a * 748723438050345) 0) as [|_]; [lia|].
  destruct (Z.ltb_spec (b * 748723438050345) 0) as [|_]; [lia|].
  assert (H : round53pos (a * 748723438050345) <= round53pos (b * 748723438050345))
    by (apply round53pos_mono; lia).
  apply Z.opp_le_mono. rewrite !Z.opp_involutive.
  apply Z.div_le_mono; [reflexivity|lia].
Qed.

Lemma exceedsApiLimit_withinLimit (formatBytes : Z -> string) (n : Z) (enc : bool) :
  exceedsApiLimit (checkArchiveSize formatBytes n enc)
  = negb (withinLimit (checkArchiveSize formatBytes n enc)).
Proof. simpl. apply Z.ltb_antisym. Qed.

Lemma actualUploadSize_mono (formatBytes : Z -> string) (a b : Z) (enc : bool) :
  0 <= a -> a <= b ->
  actualUploadSize (checkArchiveSize formatBytes a enc)
  <= actualUploadSize (checkArchiveSize formatBytes b enc).
Proof.
  intros Ha Hab. simpl. destruct enc; [exact Hab|now apply ceilTimes133_mono].
Qed.

(** The scenario of the specification: 31 MiB of archive, not yet encoded,
    are estimated at 43232789 bytes (about 41.2 MiB), above the API limit. *)
Example checkArchiveSize_31MiB (formatBytes : Z -> string) :
  actualUploadSize (checkArchiveSize formatBytes (31 * 1024 * 1024) false) = 43232789 /\
  exceedsApiLimit (checkArchiveSize formatBytes (31 * 1024 * 1024) false) = true /\
  withinLimit (checkArchiveSize formatBytes (31 * 1024 * 1024) false) = false.
Proof. vm_compute. repeat split. Qed.

(** C9: the classification is monotonic in the raw size. For byte lengths
    [a <= b] and the same [isBase64Encoded] flag, the estimated upload size of
    [b] is at least that of [a]; if [a] is large, exceeds the web limit or
    exceeds the API limit, so does [b]; and if [b] is within the API limit,
    so is [a]. *)
Theorem checkArchiveSize_monotone
  (formatBytes : Z -> string) (a b : Z) (isBase64Encoded : bool) :
  0 <= a -> a <= b ->
  actualUploadSize (checkArchiveSize formatBytes a isBase64Encoded)
  <= actualUploadSize (checkArchiveSize formatBytes b isBase64Encoded) /\
  (isLarge (checkArchiveSize formatBytes a isBase64Encoded) = true ->
   isLarge (checkArchiveSize formatBytes b isBase64Encoded) = true) /\
  (exceedsWebLimit (checkArchiveSize formatBytes a isBase64Encoded) = true ->
   exceedsWebLimit (checkArchiveSize formatBytes b isBase64Encoded) = true) /\
  (exceedsApiLimit (checkArchiveSize formatBytes a isBase64Encoded) = true ->
   exceedsApiLimit (checkArchiveSize formatBytes b isBase64Encoded) = true) /\
  (withinLimit (checkArchiveSize formatBytes b isBase64Encoded) = true ->
   withinLimit (checkArchiveSize formatBytes a isBase64Encoded) = true).
Proof.
  intros Ha Hab.
  pose proof (actualUploadSize_mono formatBytes a b isBase64Encoded Ha Hab) as H.
  split; [exact H|]. simpl in *.
  repeat split; intros E.
  - apply Z.ltb_lt in E. apply Z.ltb_lt. lia.
  - apply Z.ltb_lt in E. apply Z.ltb_lt. lia.
  - apply Z.ltb_lt in E. apply Z.ltb_lt. lia.
  - apply Z.leb_le in E. apply Z.leb_le. lia.
Qed.

Lemma checkArchiveSize_monotone_witness :
  0 <= 31 * 1024 * 1024 /\ 31 * 1024 * 1024 <= 32 * 1024 * 1024 /\
  (exceedsApiLimit (checkArchiveSize (fun _ => "") (31 * 1024 * 1024) false) = true ->
   exceedsApiLimit (checkArchiveSize (fun _ => "") (32 * 1024 * 1024) false) = true).
Proof.
  split; [lia|]. split; [lia|].
  apply (checkArchiveSize_monotone (fun _ => "") (31 * 1024 * 1024) (32 * 1024 * 1024) false);
    lia.
Defined.

End SizeGuardFacts.

(** ** CredentialBridge *)

Module CredentialsFacts.
Import Js Credentials.

Section ConvertFacts.

Variable num : Type.
Variable numFalsy : num -> bool.

Abbreviation value := (Js.value num).
Abbreviation truthy := (Js.truthy num numFalsy).
Abbreviation jsOr := (Js.jsOr num numFalsy).
Abbreviation convert := (convertCredentialsFormat num numFalsy).

(** What either branch computes on an object, by the first property that is
    truthy. *)
Lemma convert_object (fields : list (string * value)) (targetPlatform : string) :
  convert (VObj fields) targetPlatform =
  Ok (if truthy (lookup "claudeAiOauth" fields) then VObj fields
      else if truthy (lookup "access_token" fields) then
        wrapLegacy num numFalsy
          (lookup "access_token" fields) (lookup "refresh_token" fields)
          (lookup "expiry_date" fields) (lookup "expiresAt" fields)
          (lookup "scopes" fields) (lookup "subscriptionType" fields)
      else if truthy (lookup "accessToken" fields)
        then VObj [("claudeAiOauth", VObj fields)]
      else VObj fields).
Proof.
  unfold convertCredentialsFormat.
  destruct (String.eqb targetPlatform "darwin"); cbn [getProp resultBind];
    destruct (truthy (lookup "claudeAiOauth" fields)); try reflexivity;
    destruct (truthy (lookup "access_token" fields)); try reflexivity;
    destruct (truthy (lookup "accessToken" fields)); reflexivity.
Qed.

(** On a value that is not an object: [null] and [undefined] throw at the
    first property read, anything else is returned as it is. *)
Lemma convert_non_object (credentials : value) (targetPlatform : string) :
  (forall fields, credentials <> VObj fields) ->
  convert credentials targetPlatform =
  (_ <- getProp credentials "claudeAiOauth" ;; Ok credentials).
Proof.
  intros Hno. unfold convertCredentialsFormat.
  destruct credentials; try (destruct (String.eqb targetPlatform "darwin"); reflexivity).
  now contradiction (Hno fields).
Qed.

(** C10: the conversion does not depend on the target platform. *)
Theorem convert_platform_independent
  (credentials : value) (platform1 platform2 : string) :
  convert credentials platform1 = convert credentials platform2.
Proof.
  unfold convertCredentialsFormat.
  destruct (String.eqb platform1 "darwin"), (String.eqb platform2 "darwin");
    reflexivity.
Qed.

(** C8: converting a converted record again changes nothing; a record on
    which the conversion throws ([null] or [undefined]) throws both times. *)
Theorem convert_idempotent (credentials : value) (targetPlatform : string) :
  (converted <- convert credentials targetPlatform ;;
   convert converted targetPlatform)
  = convert credentials targetPlatform.
Proof.
  destruct credentials as [| |b|n|s|items|fields];
    try (destruct (String.eqb targetPlatform "darwin") eqn:E;
         unfold convertCredentialsFormat; rewrite E; cbn; rewrite ?E; reflexivity).
  rewrite convert_object.
  destruct (truthy (lookup "claudeAiOauth" fields)) eqn:Hw; cbn [resultBind].
  { now rewrite convert_object, Hw. }
  destruct (truthy (lookup "access_token" fields)) eqn:Ht.
  { unfold wrapLegacy. now rewrite convert_object. }
  destruct (truthy (lookup "accessToken" fields)) eqn:Ha.
  { now rewrite convert_object. }
  now rewrite convert_object, Hw, Ht, Ha.
Qed.

(** C5, amended: a record whose [claudeAiOauth] is falsy and whose
    [access_token] is truthy is converted, for every target platform, to the
    wrapped record whose three defaults are taken with [||], that is
    whenever the left operand is falsy. *)
Theorem convert_legacy_wraps
  (credentials : value) (fields : list (string * value)) (targetPlatform : string) :
  credentials = VObj fields ->
  truthy (lookup "claudeAiOauth" fields) = false ->
  truthy (lookup "access_token" fields) = true ->
  convert credentials targetPlatform =
  Ok (VObj [("claudeAiOauth",
             VObj [("accessToken", lookup "access_token" fields);
                   ("refreshToken", lookup "refresh_token" fields);
                   ("expiresAt", jsOr (lookup "expiry_date" fields)
                                      (lookup "expiresAt" fields));
                   ("scopes", jsOr (lookup "scopes" fields)
                                   (VArr [VStr "user:inference"]));
                   ("subscriptionType", jsOr (lookup "subscriptionType" fields)
                                             (VStr "max"))])]).
Proof.
  intros -> Hw Ht. now rewrite convert_object, Hw, Ht.
Qed.

End ConvertFacts.

(** C5, as stated, fails on the code: the defaults are taken with [||], so
    an [expiry_date] of [0] gives way to [expiresAt] and an empty
    [subscriptionType] gives way to ['max'], where [??] keeps both; and a
    record whose [access_token] is present but empty is not converted. *)
Lemma convert_legacy_differs_from_nullish_defaults :
  convertCredentialsFormat Z (Z.eqb 0) legacyWithFalsyFields "linux" =
  Ok (VObj [("claudeAiOauth",
             VObj [("accessToken", VStr "at-1");
                   ("refreshToken", VStr "rt-1");
                   ("expiresAt", VNum 1767225600000%Z);
                   ("scopes", VArr [VStr "user:inference"]);
                   ("subscriptionType", VStr "max")])]) /\
  specWrapLegacy Z legacyFalsyFields =
  VObj [("claudeAiOauth",
         VObj [("accessToken", VStr "at-1");
               ("refreshToken", VStr "rt-1");
               ("expiresAt", VNum 0%Z);
               ("scopes", VArr [VStr "user:inference"]);
               ("subscriptionType", VStr "")])] /\
  convertCredentialsFormat Z (Z.eqb 0) legacyWithFalsyFields "linux"
  <> Ok (specWrapLegacy Z legacyFalsyFields) /\
  convertCredentialsFormat Z (Z.eqb 0) legacyWithFalsyFields "darwin"
  <> Ok (specWrapLegacy Z legacyFalsyFields) /\
  convertCredentialsFormat Z (Z.eqb 0) legacyWithEmptyToken "linux"
  = Ok legacyWithEmptyToken /\
  convertCredentialsFormat Z (Z.eqb 0) legacyWithEmptyToken "linux"
  <> Ok (specWrapLegacy Z legacyEmptyTokenFields).
Proof. repeat split; discriminate. Qed.

Lemma convert_legacy_wraps_witness :
  legacyWithFalsyFields = VObj legacyFalsyFields /\
  Js.truthy Z (Z.eqb 0) (lookup "claudeAiOauth" legacyFalsyFields) = false /\
  Js.truthy Z (Z.eqb 0) (lookup "access_token" legacyFalsyFields) = true /\
  convertCredentialsFormat Z (Z.eqb 0) legacyWithFalsyFields "darwin" =
  Ok (VObj [("claudeAiOauth",
             VObj [("accessToken", VStr "at-1");
                   ("refreshToken", VStr "rt-1");
                   ("expiresAt", VNum 1767225600000%Z);
                   ("scopes", VArr [VStr "user:inference"]);
                   ("subscriptionType", VStr "max")])]).
Proof.
  split; [reflexivity|]. split; [reflexivity|]. split; [reflexivity|].
  exact (convert_legacy_wraps Z (Z.eqb 0) legacyWithFalsyFields legacyFalsyFields
           "darwin" eq_refl eq_refl eq_refl).
Defined.

End CredentialsFacts.

(** ** Verifier *)

Module VerifierFacts.
Import Js Verifier.
Local Open Scope Z_scope.

Section VerifyFacts.

Variable num : Type.
Variable numFalsy : num -> bool.

Abbreviation value := (Js.value num).
Abbreviation truthy := (Js.truthy num numFalsy).
Abbreviation verify := (verifyDownloadedProfile num numFalsy).

Lemma grows_refl (st : bool * list string) : grows st st.
Proof. split; [tauto|apply incl_refl]. Qed.

Lemma grows_push (st : bool * list string) (b : bool) (issue : string) :
  (fst st = false -> b = false) -> grows st (b, push (snd st) issue).
Proof.
  intros Hb. split; [exact Hb|]. simpl. unfold push. now apply incl_appl, incl_refl.
Qed.

Lemma in_push (issues : list string) (issue : string) : In issue (push issues issue).
Proof. unfold push. apply in_or_app. right. now left. Qed.

Lemma checkWrapped_grows (label : string) (oauth : value) (st st1 : bool * list string) :
  checkWrapped num numFalsy label oauth st = Ok st1 -> grows st st1.
Proof.
  unfold checkWrapped.
  destruct (getProp oauth "accessToken") as [a|]; [|discriminate].
  destruct (getProp oauth "refreshToken") as [r|]; [|discriminate].
  destruct (getProp oauth "expiresAt") as [e|]; [|discriminate].
  destruct (getProp oauth "scopes") as [s|]; [|discriminate].
  destruct (getProp oauth "subscriptionType") as [t|]; [|discriminate].
  cbn [resultBind]. intros H. injection H as <-.
  split; cbn [fst snd].
  - intros ->. now destruct (_ || _).
  - destruct (0 <? _); [unfold push; apply incl_appl|]; apply incl_refl.
Qed.

Lemma checkLegacy_grows (credentials : value) (st st1 : bool * list string) :
  checkLegacy num numFalsy credentials st = Ok st1 -> grows st st1.
Proof.
  unfold checkLegacy.
  destruct (getProp credentials "access_token") as [a|]; [|discriminate].
  destruct (getProp credentials "refresh_token") as [r|]; [|discriminate].
  destruct (getProp credentials "expiry_date") as [e|]; [|discriminate].
  destruct (getProp credentials "scopes") as [s|]; [|discriminate].
  destruct (getProp credentials "subscriptionType") as [t|]; [|discriminate].
  cbn [resultBind]. intros H. injection H as <-.
  split; cbn [fst snd].
  - intros ->. now destruct (_ || _).
  - destruct (0 <? _); [unfold push; apply incl_appl|]; apply incl_refl.
Qed.

Lemma checkLinuxCreds_grows (file : CredFile num) (st : bool * list string) :
  grows st (checkLinuxCreds num numFalsy file st).
Proof.
  unfold checkLinuxCreds.
  destruct (tryLinuxCreds num numFalsy file st) as [st1|message] eqn:E;
    [|now apply grows_push].
  unfold tryLinuxCreds in E.
  destruct (parsed file) as [credentials|]; [|discriminate]. cbn [resultBind] in E.
  destruct (getProp credentials "claudeAiOauth") as [w|]; [|discriminate].
  cbn [resultBind] in E.
  destruct (truthy w); [now apply checkWrapped_grows in E|].
  destruct (getProp credentials "access_token") as [a|]; [|discriminate].
  cbn [resultBind] in E.
  destruct (truthy a); [now apply checkLegacy_grows in E|].
  injection E as <-. now apply grows_push.
Qed.

Lemma checkMacOSCreds_grows (file : CredFile num) (st : bool * list string) :
  grows st (checkMacOSCreds num numFalsy file st).
Proof.
  unfold checkMacOSCreds.
  destruct (tryMacOSCreds num numFalsy file st) as [st1|message] eqn:E;
    [|now apply grows_push].
  unfold tryMacOSCreds in E.
  destruct (parsed file) as [credentials|]; [|discriminate]. cbn [resultBind] in E.
  destruct (getProp credentials "claudeAiOauth") as [w|]; [|discriminate].
  cbn [resultBind] in E.
  destruct (truthy w); [now apply checkWrapped_grows in E|].
  injection E as <-. now apply grows_push.
Qed.

Lemma checkConfig_grows (configIsFile : option bool) (st : bool * list string) :
  grows st (checkConfig configIsFile st).
Proof.
  destruct configIsFile as [[|]|]; simpl;
    [apply grows_refl|now apply grows_push|now apply grows_push].
Qed.

(** A usable wrapped record leaves [valid] as it was. *)
Lemma checkWrapped_usable (label : string) (oauth : list (string * value))
  (st : bool * list string) :
  truthy (lookup "accessToken" oauth) && truthy (lookup "refreshToken" oauth) = true ->
  exists st1, checkWrapped num numFalsy label (VObj oauth) st = Ok st1 /\ fst st1 = fst st.
Proof.
  intros H. apply andb_true_iff in H as [Ha Hr].
  unfold checkWrapped. cbn [getProp resultBind]. eexists. split; [reflexivity|].
  cbn [fst]. now rewrite Ha, Hr.
Qed.

Lemma checkLinuxCreds_usable (file : CredFile num) (st : bool * list string) :
  linuxUsable num numFalsy file = true ->
  fst (checkLinuxCreds num numFalsy file st) = fst st.
Proof.
  unfold linuxUsable, checkLinuxCreds, tryLinuxCreds.
  destruct (parsed file) as [credentials|]; [|discriminate]. cbn [resultBind].
  intros H. apply orb_true_iff in H.
  destruct credentials as [| | | | | |fields];
    try (destruct H as [H|H]; discriminate H).
  cbn [getProp resultBind].
  destruct H as [H|H].
  - unfold wrappedUsable in H.
    destruct (lookup "claudeAiOauth" fields) as [| | | | | |oauth]; try discriminate H.
    cbn [Js.truthy].
    destruct (checkWrapped_usable "Linux credentials (.credentials.json)" oauth st H)
      as (st1 & -> & E). exact E.
  - unfold legacyUsable in H.
    apply andb_true_iff in H as [H Hr]. apply andb_true_iff in H as [Hw Ha].
    apply negb_true_iff in Hw. rewrite Hw, Ha.
    unfold checkLegacy. cbn [getProp resultBind fst]. now rewrite Ha, Hr.
Qed.

Lemma checkMacOSCreds_usable (file : CredFile num) (st : bool * list string) :
  macosUsable num numFalsy file = true ->
  fst (checkMacOSCreds num numFalsy file st) = fst st.
Proof.
  unfold macosUsable, checkMacOSCreds, tryMacOSCreds.
  destruct (parsed file) as [credentials|]; [|discriminate]. cbn [resultBind].
  intros H.
  destruct credentials as [| | | | | |fields]; try discriminate H.
  cbn [getProp resultBind]. unfold wrappedUsable in H.
  destruct (lookup "claudeAiOauth" fields) as [| | | | | |oauth]; try discriminate H.
  cbn [Js.truthy].
  destruct (checkWrapped_usable "macOS credentials (.macos.credentials.json)" oauth st H)
    as (st1 & -> & E). exact E.
Qed.

Lemma checkLinuxCreds_unparseable (file : CredFile num) (st : bool * list string)
  (message : string) :
  parsed file = Throw message ->
  checkLinuxCreds num numFalsy file st
  = (false, push (snd st) ("Linux credentials file is not valid JSON: " ++ message)).
Proof. intros H. unfold checkLinuxCreds, tryLinuxCreds. now rewrite H. Qed.

Lemma checkMacOSCreds_unparseable (file : CredFile num) (st : bool * list string)
  (message : string) :
  parsed file = Throw message ->
  checkMacOSCreds num numFalsy file st
  = (false, push (snd st) ("macOS credentials file is not valid JSON: " ++ message)).
Proof. intros H. unfold checkMacOSCreds, tryMacOSCreds. now rewrite H. Qed.

(** A usable record resolves, by the conversion of the credential bridge, to
    a wrapped record whose [accessToken] and [refreshToken] are truthy. *)
Lemma usable_resolves_to_wrapped (credentials : value) (targetPlatform : string) :
  wrappedUsable num numFalsy credentials || legacyUsable num numFalsy credentials = true ->
  exists fields oauth,
    Credentials.convertCredentialsFormat num numFalsy credentials targetPlatform
    = Ok (VObj fields) /\
    lookup "claudeAiOauth" fields = VObj oauth /\
    truthy (lookup "accessToken" oauth) = true /\
    truthy (lookup "refreshToken" oauth) = true.
Proof.
  intros H. apply orb_true_iff in H.
  destruct credentials as [| | | | | |fields]; try (destruct H as [H|H]; discriminate H).
  rewrite CredentialsFacts.convert_object. destruct H as [H|H].
  - unfold wrappedUsable in H.
    destruct (lookup "claudeAiOauth" fields) as [| | | | | |oauth] eqn:E; try discriminate H.
    apply andb_true_iff in H as [Ha Hr]. cbn [Js.truthy].
    exists fields, oauth. now repeat split.
  - unfold legacyUsable in H.
    apply andb_true_iff in H as [H Hr]. apply andb_true_iff in H as [Hw Ha].
    apply negb_true_iff in Hw. rewrite Hw, Ha. unfold Credentials.wrapLegacy.
    eexists. eexists. split; [reflexivity|]. split; [reflexivity|]. now split.
Qed.

(** The result on an unpacked archive, as the three checks in sequence. *)
Lemma verify_unpacked (u : Unpacked num) :
  mkdirError u = None -> unzipCode u = 0 ->
  verify u =
  let st1 :=
    if negb (present (linuxCreds u) || present (macosCreds u)) then
      (false,
       push []
         "Missing: Claude credentials (no .credentials.json or .macos.credentials.json found)")
    else
      let stL := if present (linuxCreds u)
                 then checkLinuxCreds num numFalsy (linuxCreds u) (true, [])
                 else (true, []) in
      if present (macosCreds u)
      then checkMacOSCreds num numFalsy (macosCreds u) stL else stL in
  mkVerification (fst (checkConfig (configIsFile u) st1))
                 (snd (checkConfig (configIsFile u) st1)).
Proof.
  intros Hm Hz. unfold verifyDownloadedProfile. now rewrite Hm, Hz.
Qed.

Lemma checkWrapped_valid (label : string) (oauth : value) (st st1 : bool * list string) :
  truthy oauth = true ->
  checkWrapped num numFalsy label oauth st = Ok st1 ->
  fst st1 = fst st
            && match oauth with
               | VObj o => truthy (lookup "accessToken" o) && truthy (lookup "refreshToken" o)
               | _ => false
               end.
Proof.
  intros Ht. unfold checkWrapped.
  destruct oauth as [| |b|n|s|items|o]; try discriminate Ht;
    cbn [getProp resultBind]; intros H; injection H as <-; cbn [fst];
    try (cbn; now rewrite andb_false_r).
  destruct (truthy (lookup "accessToken" o)), (truthy (lookup "refreshToken" o));
    cbn; now rewrite ?andb_true_r, ?andb_false_r.
Qed.

Lemma checkWrapped_returns (label : string) (oauth : value) (st : bool * list string) :
  truthy oauth = true ->
  exists st1, checkWrapped num numFalsy label oauth st = Ok st1.
Proof.
  intros Ht. unfold checkWrapped.
  destruct oauth; try discriminate Ht; cbn [getProp resultBind]; eexists; reflexivity.
Qed.

(** The generic file keeps [valid] exactly when it is usable. *)
Lemma checkLinuxCreds_valid (file : CredFile num) (st : bool * list string) :
  fst (checkLinuxCreds num numFalsy file st)
  = fst st && linuxUsable num numFalsy file.
Proof.
  unfold checkLinuxCreds, tryLinuxCreds, linuxUsable.
  destruct (parsed file) as [credentials|message]; cbn [resultBind];
    [|cbn; now rewrite andb_false_r].
  destruct credentials as [| |b|n|s|items|fields];
    cbn [getProp resultBind Js.truthy wrappedUsable legacyUsable orb];
    try (cbn; now rewrite andb_false_r).
  destruct (truthy (lookup "claudeAiOauth" fields)) eqn:Hw.
  - destruct (checkWrapped_returns "Linux credentials (.credentials.json)" _ st Hw)
      as [st1 E].
    rewrite E. rewrite (checkWrapped_valid _ _ _ _ Hw E).
    cbn [negb andb]. rewrite orb_false_r. reflexivity.
  - assert (Hno : match lookup "claudeAiOauth" fields with
                  | VObj oauth =>
                      truthy (lookup "accessToken" oauth)
                      && truthy (lookup "refreshToken" oauth)
                  | _ => false
                  end = false).
    { destruct (lookup "claudeAiOauth" fields); try reflexivity. discriminate Hw. }
    rewrite Hno. cbn [negb andb orb].
    destruct (truthy (lookup "access_token" fields)) eqn:Ha.
    + unfold checkLegacy. cbn [getProp resultBind fst]. rewrite Ha. cbn [negb orb].
      destruct (truthy (lookup "refresh_token" fields)); cbn;
        now rewrite ?andb_true_r, ?andb_false_r.
    + cbn. now rewrite andb_false_r.
Qed.

(** The native export keeps [valid] exactly when it is usable. *)
Lemma checkMacOSCreds_valid (file : CredFile num) (st : bool * list string) :
  fst (checkMacOSCreds num numFalsy file st)
  = fst st && macosUsable num numFalsy file.
Proof.
  unfold checkMacOSCreds, tryMacOSCreds, macosUsable.
  destruct (parsed file) as [credentials|message]; cbn [resultBind];
    [|cbn; now rewrite andb_false_r].
  destruct credentials as [| |b|n|s|items|fields];
    cbn [getProp resultBind Js.truthy wrappedUsable];
    try (cbn; now rewrite andb_false_r).
  destruct (truthy (lookup "claudeAiOauth" fields)) eqn:Hw.
  - destruct (checkWrapped_returns "macOS credentials (.macos.credentials.json)" _ st Hw)
      as [st1 E].
    rewrite E. now rewrite (checkWrapped_valid _ _ _ _ Hw E).
  - destruct (lookup "claudeAiOauth" fields); try (cbn; now rewrite andb_false_r).
    discriminate Hw.
Qed.

Lemma checkConfig_valid (configIsFile : option bool) (st : bool * list string) :
  fst (checkConfig configIsFile st)
  = fst st && match configIsFile with Some true => true | _ => false end.
Proof.
  destruct configIsFile as [[|]|]; cbn; now rewrite ?andb_true_r, ?andb_false_r.
Qed.

(** What [verifyProfile] reports follows from two [stat] calls. *)
Lemma hasEssentialFiles_eq (a : VerifyCommand.Archive num) :
  VerifyCommand.hasEssentialFiles a
  = match VerifyCommand.credentials a, VerifyCommand.config a with
    | Some true, Some true => true
    | _, _ => false
    end.
Proof.
  unfold VerifyCommand.hasEssentialFiles, VerifyCommand.checks. cbn [fold_left].
  unfold VerifyCommand.runCheck.
  cbn [VerifyCommand.stats VerifyCommand.isDirectory VerifyCommand.essential
       VerifyCommand.entries].
  destruct (VerifyCommand.credentials a) as [[|]|], (VerifyCommand.config a) as [[|]|],
    (VerifyCommand.backup a) as [[|]|], (VerifyCommand.claudeDirectory a) as [[|]|],
    (VerifyCommand.claudeEntries a); reflexivity.
Qed.

(** C6: on an unpacked archive the check that [restoreProfile] runs is
    valid exactly when [.claude.json] is a file, at least one credential
    export is present, and every export that is present passes the field
    check of its file: a record with the [claudeAiOauth] wrapper and truthy
    [accessToken] and [refreshToken], or, for [.claude/.credentials.json]
    only, a record without wrapper with truthy [access_token] and
    [refresh_token]. When both exports are absent the result is invalid,
    with the issue that names the two files; an export that is present but
    cannot be read and parsed makes the result invalid, with the issue that
    carries the error. [verifyProfile] follows another rule: it reports the
    profile as ready to restore exactly when [.claude/.credentials.json] and
    [.claude.json] are files, whatever they hold. *)
Theorem verifyDownloadedProfile_credentials (u : Unpacked num) :
  mkdirError u = None ->
  unzipCode u = 0 ->
  (valid (verify u) = true <->
   configIsFile u = Some true /\
   (present (linuxCreds u) = true \/ present (macosCreds u) = true) /\
   (present (linuxCreds u) = true -> linuxUsable num numFalsy (linuxCreds u) = true) /\
   (present (macosCreds u) = true -> macosUsable num numFalsy (macosCreds u) = true)) /\
  (present (linuxCreds u) = false -> present (macosCreds u) = false ->
   valid (verify u) = false /\
   In "Missing: Claude credentials (no .credentials.json or .macos.credentials.json found)"
      (issues (verify u))) /\
  (forall message,
     present (linuxCreds u) = true -> parsed (linuxCreds u) = Throw message ->
     valid (verify u) = false /\
     In ("Linux credentials file is not valid JSON: " ++ message) (issues (verify u))) /\
  (forall message,
     present (macosCreds u) = true -> parsed (macosCreds u) = Throw message ->
     valid (verify u) = false /\
     In ("macOS credentials file is not valid JSON: " ++ message) (issues (verify u))) /\
  (forall a : VerifyCommand.Archive num,
     VerifyCommand.hasEssentialFiles a = true <->
     VerifyCommand.credentials a = Some true /\ VerifyCommand.config a = Some true).
Proof.
  intros Hm Hz. rewrite (verify_unpacked u Hm Hz). cbn zeta. cbn [valid issues].
  split; [|split; [|split; [|split]]].
  - (* the exact condition *)
    rewrite checkConfig_valid.
    destruct (present (linuxCreds u)) eqn:Hl, (present (macosCreds u)) eqn:Hx;
      cbn [orb negb fst].
    + rewrite checkMacOSCreds_valid, checkLinuxCreds_valid. cbn [andb].
      rewrite !andb_true_iff. split.
      * intros [[H1 H2] H3].
        destruct (configIsFile u) as [[|]|]; try discriminate H3. tauto.
      * intros (-> & _ & H1 & H2). rewrite H1, H2 by reflexivity. tauto.
    + rewrite checkLinuxCreds_valid. cbn [andb]. rewrite andb_true_iff. split.
      * intros [H1 H3].
        destruct (configIsFile u) as [[|]|]; try discriminate H3.
        repeat split; try tauto. discriminate.
      * intros (-> & _ & H1 & _). rewrite H1 by reflexivity. tauto.
    + rewrite checkMacOSCreds_valid. cbn [andb]. rewrite andb_true_iff. split.
      * intros [H1 H3].
        destruct (configIsFile u) as [[|]|]; try discriminate H3.
        repeat split; try tauto. discriminate.
      * intros (-> & _ & _ & H1). rewrite H1 by reflexivity. tauto.
    + cbn [andb]. split; [discriminate|]. intros (_ & [H|H] & _); discriminate H.
  - (* no export *)
    intros Hl Hx. rewrite Hl, Hx. cbn [orb negb]. split.
    + now apply (checkConfig_grows (configIsFile u)).
    + apply (checkConfig_grows (configIsFile u)). cbn [snd]. apply in_push.
  - (* the generic file cannot be parsed *)
    intros message Hl Hp. rewrite Hl. cbn [orb negb].
    rewrite (checkLinuxCreds_unparseable _ _ _ Hp). split.
    + apply (checkConfig_grows (configIsFile u)).
      destruct (present (macosCreds u)); [|reflexivity].
      now apply (checkMacOSCreds_grows (macosCreds u)).
    + apply (checkConfig_grows (configIsFile u)).
      destruct (present (macosCreds u)).
      * apply (checkMacOSCreds_grows (macosCreds u)). cbn [snd]. apply in_push.
      * cbn [snd]. apply in_push.
  - (* the native export cannot be parsed *)
    intros message Hx Hp. rewrite Hx, orb_true_r. cbn [negb].
    rewrite (checkMacOSCreds_unparseable _ _ _ Hp). split.
    + now apply (checkConfig_grows (configIsFile u)).
    + apply (checkConfig_grows (configIsFile u)). cbn [snd]. apply in_push.
  - (* the other verifier *)
    intros a. rewrite hasEssentialFiles_eq.
    destruct (VerifyCommand.credentials a) as [[|]|], (VerifyCommand.config a) as [[|]|];
      split; try discriminate; try tauto; intros [H1 H2]; discriminate.
Qed.

End VerifyFacts.

Lemma verifyDownloadedProfile_credentials_witness :
  mkdirError linuxProfile = None /\
  unzipCode linuxProfile = 0 /\
  valid (verifyDownloadedProfile Z (Z.eqb 0) linuxProfile) = true.
Proof.
  split; [reflexivity|]. split; [reflexivity|].
  apply (proj1 (verifyDownloadedProfile_credentials Z (Z.eqb 0) linuxProfile
                  eq_refl eq_refl)).
  split; [reflexivity|]. split; [now left|]. split; [reflexivity|discriminate].
Defined.

Example verifyDownloadedProfile_samples :
  verifyDownloadedProfile Z (Z.eqb 0) linuxProfile = mkVerification true [] /\
  verifyDownloadedProfile Z (Z.eqb 0)
    (mkUnpacked None 0
       (mkCredFile false (Throw "ENOENT"))
       (mkCredFile true (Throw "Unexpected token } in JSON at position 1"))
       (Some true))
  = mkVerification false
      ["macOS credentials file is not valid JSON: Unexpected token } in JSON at position 1"] /\
  verifyDownloadedProfile Z (Z.eqb 0)
    (mkUnpacked None 0
       (mkCredFile false (Throw "ENOENT")) (mkCredFile false (Throw "ENOENT")) None)
  = mkVerification false
      ["Missing: Claude credentials (no .credentials.json or .macos.credentials.json found)";
       "Missing: Claude configuration"].
Proof. repeat split. Qed.

End VerifierFacts.

(** ** Effects *)

Module EffectsFacts.
Import Effects.

Lemma avoids_nil (P : event -> bool) : avoids P [].
Proof. constructor. Qed.

Lemma avoids_app (P : event -> bool) (t1 t2 : list event) :
  avoids P t1 -> avoids P t2 -> avoids P (List.app t1 t2).
Proof. intros H1 H2. apply Forall_app. now split. Qed.

Lemma avoids_In (P : event -> bool) (t : list event) (e : event) :
  avoids P t -> P e = true -> ~ In e t.
Proof.
  intros Ha He Hin. unfold avoids in Ha. rewrite Forall_forall in Ha.
  specialize (Ha e Hin). congruence.
Qed.

Section Compositional.

Variable P : event -> bool.

Lemma avoids_ret {A : Type} (a : A) : avoids P (trace (ret a)).
Proof. constructor. Qed.

Lemma avoids_throw {A : Type} (message : string) : avoids P (trace (@throw A message)).
Proof. constructor. Qed.

Lemma avoids_exit {A : Type} (code : Z) : avoids P (trace (@exit A code)).
Proof. constructor. Qed.

Lemma avoids_await {A : Type} (r : Js.result A) : avoids P (trace (await r)).
Proof. destruct r; constructor. Qed.

Lemma avoids_emit (e : event) : P e = false -> avoids P (trace (emit e)).
Proof. intros H. constructor; [exact H|constructor]. Qed.

Lemma avoids_bind {A B : Type} (m : M A) (k : A -> M B) :
  avoids P (trace m) -> (forall a, avoids P (trace (k a))) ->
  avoids P (trace (bind m k)).
Proof.
  intros Hm Hk. destruct m as [t [a|message|code]]; simpl in *; try exact Hm.
  specialize (Hk a). destruct (k a) as [t' o]. simpl in *. now apply avoids_app.
Qed.

Lemma avoids_when (b : bool) (m : M unit) :
  avoids P (trace m) -> avoids P (trace (when b m)).
Proof. intros H. destruct b; [exact H|constructor]. Qed.

Lemma avoids_forEach {A : Type} (l : list A) (body : A -> M unit) :
  (forall a, avoids P (trace (body a))) -> avoids P (trace (forEach l body)).
Proof.
  intros H. induction l as [|a rest IH]; simpl; [constructor|].
  apply avoids_bind; [apply H|intros _; exact IH].
Qed.

Lemma avoids_tryCatch {A : Type} (body : M A) (handler : string -> M A) :
  avoids P (trace body) -> (forall message, avoids P (trace (handler message))) ->
  avoids P (trace (tryCatch body handler)).
Proof.
  intros Hb Hh. destruct body as [t [a|message|code]]; simpl in *; try exact Hb.
  specialize (Hh message). destruct (handler message) as [t' o]. simpl in *.
  now apply avoids_app.
Qed.

Lemma avoids_tryFinally {A : Type} (body : M A) (cleanup : M unit) :
  avoids P (trace body) -> avoids P (trace cleanup) ->
  avoids P (trace (tryFinally body cleanup)).
Proof.
  intros Hb Hc. destruct body as [t [a|message|code]], cleanup as [t' [u|m'|c']];
    simpl in *; try exact Hb; now apply avoids_app.
Qed.

End Compositional.

(** A computation that returns [a] has run [k a] after it. *)
Lemma bind_ret {A B : Type} (m : M A) (k : A -> M B) (a : A) :
  outcomeOf m = Ret a ->
  bind m k = (List.app (trace m) (trace (k a)), outcomeOf (k a)).
Proof.
  destruct m as [t o]. simpl. intros ->. simpl. now destruct (k a).
Qed.

(** A computation that does not return ends the sequence. *)
Lemma bind_thrown {A B : Type} (m : M A) (k : A -> M B) (message : string) :
  outcomeOf m = Thrown message -> bind m k = (trace m, Thrown message).
Proof. destruct m as [t o]. simpl. now intros ->. Qed.

Lemma bind_exited {A B : Type} (m : M A) (k : A -> M B) (code : Z) :
  outcomeOf m = Exited code -> bind m k = (trace m, Exited code).
Proof. destruct m as [t o]. simpl. now intros ->. Qed.

End EffectsFacts.

(** ** Store *)

Module StoreFacts.
Import Str PathFilter SizeGuard Effects EffectsFacts Store.
Local Open Scope Z_scope.

(** Steps through a computation whose events are all outside [P]: the
    hypothesis [HP] says that [P] holds of network events only. *)
Ltac avoid_steps HP :=
  repeat first
    [ apply avoids_ret | apply avoids_throw | apply avoids_exit | apply avoids_await
    | apply avoids_emit; first [reflexivity | apply HP; reflexivity]
    | apply avoids_when
    | apply avoids_forEach; intros ?
    | apply avoids_bind; [|intros ?]
    | match goal with
      | |- avoids _ (trace (if ?b then _ else _)) => destruct b
      | |- avoids _ (trace (match ?x with _ => _ end)) => destruct x
      end ].

Section Local.

Variable P : event -> bool.
Hypothesis HP : forall e, isNetwork e = false -> P e = false.

Lemma addToArchive_local (w : World) (item : BackupPath) :
  avoids P (trace (addToArchive w item)).
Proof. unfold addToArchive. avoid_steps HP. Qed.

Lemma addAllToArchive_local (w : World) (items : list BackupPath) (hasFiles : bool) :
  avoids P (trace (addAllToArchive w items hasFiles)).
Proof.
  revert hasFiles.
  induction items as [|item rest IH]; intros hasFiles; cbn [addAllToArchive].
  - apply avoids_ret.
  - apply avoids_bind; [apply addToArchive_local|intros added; apply IH].
Qed.

Lemma addKeychain_local (w : World) (tempDir : string) (hasFiles : bool) :
  avoids P (trace (addKeychain w tempDir hasFiles)).
Proof. unfold addKeychain. avoid_steps HP. Qed.

Lemma validateProfileName_local (name : string) :
  avoids P (trace (validateProfileName name)).
Proof. unfold validateProfileName. avoid_steps HP. Qed.

(** Staging makes no network call. *)
Lemma stageArchive_local (w : World) : avoids P (trace (stageArchive w)).
Proof.
  unfold stageArchive.
  apply avoids_bind; [apply validateProfileName_local|intros _].
  do 4 (apply avoids_bind; [avoid_steps HP|intros _]).
  do 3 (apply avoids_bind; [avoid_steps HP|intros _]).
  apply avoids_bind; [apply avoids_await|intros tempDir].
  apply avoids_bind; [avoid_steps HP|intros _].
  apply avoids_bind; [apply addAllToArchive_local|intros added].
  apply avoids_bind; [apply addKeychain_local|intros hasFiles].
  avoid_steps HP.
Qed.

Lemma addToArchiveSilent_local (w : World) (item : BackupPath) :
  avoids P (trace (addToArchiveSilent w item)).
Proof. unfold addToArchiveSilent. avoid_steps HP. Qed.

Lemma stageArchiveSilent_local (w : World) (tempDir : string) :
  avoids P (trace (stageArchiveSilent w tempDir)).
Proof.
  unfold stageArchiveSilent.
  apply avoids_bind; [|intros _].
  - apply avoids_forEach. intros item. apply addToArchiveSilent_local.
  - avoid_steps HP.
Qed.

End Local.

Section TooLarge.

Variable formatBytes : Z -> string.

Abbreviation checkSize := (checkArchiveSize formatBytes).

Lemma checkAndUpload_too_large (w : World) (tempDir : string) (size : Z) :
  zipSize w = Js.Ok size ->
  withinLimit (checkSize size false) = false ->
  checkAndUpload formatBytes w tempDir
  = (tooLargeLines formatBytes w (checkSize size false), Thrown "Profile too large").
Proof.
  intros Hsize Hlimit. unfold checkAndUpload, tooLargeLines, rejectTooLarge.
  rewrite Hsize.
  cbn [await Effects.bind ret emit List.app]. rewrite Hlimit.
  cbn [negb when Effects.bind emit throw List.app].
  now destruct (optSkipProjects (options w)).
Qed.

Lemma saveProfileCatch_too_large (w : World) :
  saveProfileCatch w "Profile too large"
  = ([LogData "ERROR" "❌ Error saving profile:" "Profile too large"; Log "ERROR" ""],
     Exited 1).
Proof. reflexivity. Qed.

(** [saveProfile] on an archive above the limit, once staging has returned. *)
Lemma saveProfile_too_large (w : World) (tempDir : string) (size : Z) :
  outcomeOf (stageArchive w) = Ret tempDir ->
  zipSize w = Js.Ok size ->
  withinLimit (checkSize size false) = false ->
  saveProfile formatBytes w
  = (List.app (trace (stageArchive w))
       (List.app (tooLargeLines formatBytes w (checkSize size false))
          [LogData "ERROR" "❌ Error saving profile:" "Profile too large";
           Log "ERROR" ""]),
     Exited 1).
Proof.
  intros Hstage Hsize Hlimit. unfold saveProfile, saveProfileBody.
  rewrite (bind_ret _ _ _ Hstage), (checkAndUpload_too_large w tempDir size Hsize Hlimit).
  cbn [trace outcomeOf fst snd tryCatch]. rewrite saveProfileCatch_too_large.
  now rewrite <- List.app_assoc.
Qed.

Lemma checkAndUploadSilent_too_large (w : World) (tempDir : string) (size : Z) :
  zipSize w = Js.Ok size ->
  withinLimit (checkSize size false) = false ->
  checkAndUploadSilent formatBytes w tempDir
  = ([Log "INFO" ("📦 Archive created: " ++ sizeFormatted (checkSize size false))],
     Thrown (tooLargeMessage formatBytes w (checkSize size false))).
Proof.
  intros Hsize Hlimit. unfold checkAndUploadSilent.
  rewrite Hsize.
  cbn [await Effects.bind ret emit List.app]. rewrite Hlimit. reflexivity.
Qed.

(** [saveProfileSilent] once the staging directory is made. *)
Lemma saveProfileSilent_staged (w : World) (tempDir : string) :
  mkdtempResult w = Js.Ok tempDir ->
  saveProfileSilent formatBytes w
  = (Mkdtemp tempDir
       :: trace (tryFinally (saveProfileSilentBody formatBytes w tempDir)
                   (emit (Rm tempDir))),
     outcomeOf (tryFinally (saveProfileSilentBody formatBytes w tempDir)
               (emit (Rm tempDir)))).
Proof.
  intros Hdir. unfold saveProfileSilent. rewrite Hdir.
  cbn [await ret emit Effects.bind List.app].
  now destruct (tryFinally _ _).
Qed.

(** [saveProfileSilent] on an archive above the limit, once staging has
    returned. *)
Lemma saveProfileSilent_too_large (w : World) (tempDir : string) (size : Z) :
  mkdtempResult w = Js.Ok tempDir ->
  outcomeOf (stageArchiveSilent w tempDir) = Ret tt ->
  zipSize w = Js.Ok size ->
  withinLimit (checkSize size false) = false ->
  saveProfileSilent formatBytes w
  = (Mkdtemp tempDir
       :: List.app (trace (stageArchiveSilent w tempDir))
            [Log "INFO" ("📦 Archive created: " ++ sizeFormatted (checkSize size false));
             Rm tempDir],
     Thrown (tooLargeMessage formatBytes w (checkSize size false))).
Proof.
  intros Hdir Hstage Hsize Hlimit.
  rewrite (saveProfileSilent_staged w tempDir Hdir). unfold saveProfileSilentBody.
  rewrite (bind_ret _ _ _ Hstage),
    (checkAndUploadSilent_too_large w tempDir size Hsize Hlimit).
  cbn [emit tryFinally trace outcomeOf fst snd List.app].
  now rewrite <- List.app_assoc.
Qed.

End TooLarge.

Lemma isUpload_network (e : event) : isNetwork e = false -> isUpload e = false.
Proof. now destruct e. Qed.

Lemma isNetwork_network (e : event) : isNetwork e = false -> isNetwork e = false.
Proof. trivial. Qed.

Lemma append_cancel (p a b : string) : p ++ a = p ++ b -> a = b.
Proof.
  induction p as [|c p IH]; simpl; [trivial|].
  intros H. injection H as H. now apply IH.
Qed.

Section Oversized.

Variable formatBytes : Z -> string.

Abbreviation checkSize := (checkArchiveSize formatBytes).

Lemma saveProfileCatch_no_upload (w : World) (message : string) :
  avoids isUpload (trace (saveProfileCatch w message)).
Proof. unfold saveProfileCatch. avoid_steps isUpload_network. Qed.

Lemma tooLargeLines_local (w : World) (sizeCheck : SizeCheck) :
  avoids isNetwork (tooLargeLines formatBytes w sizeCheck).
Proof. unfold tooLargeLines. repeat constructor. Qed.

Lemma avoids_weaken (t : list event) : avoids isNetwork t -> avoids isUpload t.
Proof.
  intros H. unfold avoids in *. rewrite Forall_forall in *.
  intros e He. apply isUpload_network. now apply H.
Qed.

Lemma saveProfile_no_upload (w : World) (size : Z) :
  zipSize w = Js.Ok size ->
  withinLimit (checkSize size false) = false ->
  avoids isUpload (trace (saveProfile formatBytes w)).
Proof.
  intros Hsize Hlimit. unfold saveProfile, saveProfileBody.
  apply avoids_tryCatch; [|apply saveProfileCatch_no_upload].
  apply avoids_bind; [apply (stageArchive_local _ isUpload_network)|].
  intros tempDir. rewrite (checkAndUpload_too_large formatBytes w tempDir size Hsize Hlimit).
  apply avoids_weaken, tooLargeLines_local.
Qed.

Lemma saveProfileSilent_no_upload (w : World) (size : Z) :
  zipSize w = Js.Ok size ->
  withinLimit (checkSize size false) = false ->
  avoids isUpload (trace (saveProfileSilent formatBytes w)).
Proof.
  intros Hsize Hlimit. unfold saveProfileSilent.
  apply avoids_bind; [apply avoids_await|intros tempDir].
  apply avoids_bind; [apply avoids_emit; reflexivity|intros _].
  apply avoids_tryFinally; [|apply avoids_emit; reflexivity].
  unfold saveProfileSilentBody.
  apply avoids_bind; [apply (stageArchiveSilent_local _ isUpload_network)|intros _].
  rewrite (checkAndUploadSilent_too_large formatBytes w tempDir size Hsize Hlimit).
  repeat constructor.
Qed.


End Oversized.


(** *** The staging directory *)

Lemma staysAlive_ret {A : Type} (a : A) : staysAlive (ret a).
Proof. intros code. discriminate. Qed.

Lemma staysAlive_throw {A : Type} (message : string) : staysAlive (@throw A message).
Proof. intros code. discriminate. Qed.

Lemma staysAlive_emit (e : event) : staysAlive (emit e).
Proof. intros code. discriminate. Qed.

Lemma staysAlive_await {A : Type} (r : Js.result A) : staysAlive (await r).
Proof. intros code. destruct r; discriminate. Qed.

Lemma staysAlive_bind {A B : Type} (m : M A) (k : A -> M B) :
  staysAlive m -> (forall a, staysAlive (k a)) -> staysAlive (Effects.bind m k).
Proof.
  intros Hm Hk code. destruct m as [t [a|message|c]]; simpl.
  - specialize (Hk a code). destruct (k a) as [t' o]. exact Hk.
  - discriminate.
  - intros H. injection H as ->. now apply (Hm code).
Qed.

Lemma staysAlive_when (b : bool) (m : M unit) : staysAlive m -> staysAlive (when b m).
Proof. intros H. destruct b; [exact H|apply staysAlive_ret]. Qed.

Lemma staysAlive_forEach {A : Type} (l : list A) (body : A -> M unit) :
  (forall a, staysAlive (body a)) -> staysAlive (forEach l body).
Proof.
  intros H. induction l as [|a rest IH]; cbn [forEach]; [apply staysAlive_ret|].
  apply staysAlive_bind; [apply H|intros _; exact IH].
Qed.

Ltac alive_steps :=
  repeat first
    [ apply staysAlive_ret | apply staysAlive_throw | apply staysAlive_emit
    | apply staysAlive_await
    | apply staysAlive_when
    | apply staysAlive_forEach; intros ?
    | apply staysAlive_bind; [|intros ?]
    | match goal with
      | |- staysAlive (if ?b then _ else _) => destruct b
      | |- staysAlive (match ?x with _ => _ end) => destruct x
      end ].

(** [tryFinally] runs its cleanup after a body that stays alive. *)
Lemma tryFinally_cleanup {A : Type} (body : M A) (e : event) :
  staysAlive body -> In e (trace (tryFinally body (emit e))).
Proof.
  intros H. destruct body as [t [a|message|code]]; cbn.
  - apply in_or_app. right. now left.
  - apply in_or_app. right. now left.
  - now contradiction (H code).
Qed.

(** The sibling path: [saveProfileSilent] removes its staging directory on
    every path on which [findOrCreateGist] does not end the process. *)
Lemma saveProfileSilent_removes_staging_directory
  (formatBytes : Z -> string) (w : World) (tempDir : string) :
  mkdtempResult w = Js.Ok tempDir ->
  (forall code, gistResult w <> Exited code) ->
  In (Rm tempDir) (trace (saveProfileSilent formatBytes w)).
Proof.
  intros Hdir Hgist. rewrite (saveProfileSilent_staged formatBytes w tempDir Hdir).
  cbn [trace fst]. right. apply tryFinally_cleanup.
  unfold saveProfileSilentBody, stageArchiveSilent, checkAndUploadSilent,
    addToArchiveSilent, rejectUploadSilent.
  apply staysAlive_bind; [alive_steps|intros _].
  apply staysAlive_bind; [alive_steps|intros size].
  do 3 (apply staysAlive_bind; [alive_steps|intros _]).
  apply staysAlive_bind; [exact Hgist|intros gistId].
  alive_steps.
Qed.

(** C7 fails on the code at this input: [saveProfile] on a staged archive of
    31 MiB makes the staging directory, throws ['Profile too large'], and
    leaves through its [catch] with [process.exit(1)]; no removal of the
    directory is in its trace. *)
Theorem saveProfile_oversized_leaves_staging_directory (formatBytes : Z -> string) :
  In (Mkdtemp "/tmp/claude-profile-a1b2c3")
     (trace (saveProfile formatBytes (linuxWorld false (31 * 1024 * 1024)))) /\
  (forall path,
     ~ In (Rm path) (trace (saveProfile formatBytes (linuxWorld false (31 * 1024 * 1024))))) /\
  outcomeOf (saveProfile formatBytes (linuxWorld false (31 * 1024 * 1024))) = Exited 1.
Proof.
  rewrite (saveProfile_too_large formatBytes (linuxWorld false (31 * 1024 * 1024))
             "/tmp/claude-profile-a1b2c3" (31 * 1024 * 1024) eq_refl eq_refl eq_refl).
  cbn [trace outcomeOf fst snd]. split; [|split; [|reflexivity]].
  - apply in_or_app. left. vm_compute. tauto.
  - intros path Hin. apply in_app_or in Hin as [Hin|Hin].
    + vm_compute in Hin. intuition discriminate.
    + apply in_app_or in Hin as [Hin|Hin]; cbn in Hin; intuition discriminate.
Qed.

(** The same leak when the upload is refused: the error is thrown before
    the removal at the end of the [try]. *)
Example saveProfile_rate_limit_leaves_staging_directory :
  saveProfile plainBytes
    {| profileName := "work"; options := mkOptions false; isVerbose := false;
       platform := "linux";
       localVerification := Verifier.mkVerification true [];
       mkdtempResult := Js.Ok "/tmp/claude-profile-a1b2c3";
       statSource := fun path =>
         if String.eqb path "~/.claude.json" then IsFile
         else StatFails "ENOENT" "ENOENT: no such file or directory";
       keychainCreds := false;
       finalizeResult := Js.Ok tt;
       zipSize := Js.Ok 2048;
       gistResult := Ret "0123456789abcdef";
       readZipResult := Js.Ok tt;
       writeBase64Result := Js.Ok tt;
       uploadResult := Js.Ok (1, "rate limit exceeded");
       authStatus := None;
       rmResult := Js.Ok tt |}
  = ([Log "INFO" "💾 Preparing to save Claude profile: work";
      Log "INFO" ""; VerifyLocalFiles;
      Log "INFO" "✅ Local configuration verified";
      Log "INFO" ""; DisplayDirectoryTree;
      Mkdtemp "/tmp/claude-profile-a1b2c3";
      ArchiveFile ".claude.json";
      Log "INFO" "📄 Added file: ~/.claude.json";
      Log "INFO" "📦 Archive created: 2048 B";
      FindOrCreateGist;
      WriteFile "/tmp/claude-profile-a1b2c3/work.zip.base64";
      Log "INFO" "📤 Uploading profile to gist...";
      GistUpload "work.zip.base64";
      Log "ERROR" "⚠️  GitHub API rate limit exceeded";
      Log "ERROR" "   Please wait a few minutes and try again";
      LogData "ERROR" "❌ Error saving profile:" "Rate limit exceeded";
      Log "ERROR" ""],
     Exited 1).
Proof. vm_compute. reflexivity. Qed.

End StoreFacts.

(** ** WatchScheduler *)

Module WatchFacts.
Import Watch.
Local Open Scope Z_scope.

Lemma removeNth_single {A : Type} (l : list A) (i : nat) (a : A) :
  List.length l = 1%nat -> nth_error l i = Some a -> removeNth i l = [].
Proof.
  destruct l as [|b [|c rest]]; try discriminate. intros _.
  destruct i as [|i]; [reflexivity|]. now destruct i.
Qed.

Lemma replaceNth_length {A : Type} (l : list A) (i : nat) (a : A) :
  List.length (replaceNth i a l) = List.length l.
Proof.
  revert i. induction l as [|b rest IH]; intros i; [now destruct i|].
  destruct i; simpl; [reflexivity|]. now rewrite IH.
Qed.

Lemma nth_error_nil_some {A : Type} (i : nat) (a : A) : nth_error [] i <> Some a.
Proof. now destruct i. Qed.

Lemma exclusive_initial (hash : string) : exclusive (initial hash).
Proof. right. split; reflexivity. Qed.

(** The exclusion reads two fields of the state only. *)
Lemma exclusive_ext (s s' : WatchState) :
  saveInProgress s' = saveInProgress s ->
  savesInFlight s' = savesInFlight s ->
  exclusive s -> exclusive s'.
Proof. unfold exclusive. now intros -> ->. Qed.

Lemma exclusive_handleFileChange (s : WatchState) :
  exclusive s -> exclusive (handleFileChange s).
Proof. now apply exclusive_ext. Qed.

Lemma exclusive_startSave (s : WatchState) (o : saveOrigin) :
  exclusive s -> saveInProgress s = false -> exclusive (startSave s o).
Proof.
  intros [[H _]|[_ H]] Hfree; [congruence|].
  left. simpl. now rewrite H.
Qed.

Lemma exclusive_debounceCallback (s : WatchState) (now : Z) :
  exclusive s -> exclusive (debounceCallback s now).
Proof.
  intros H. unfold debounceCallback.
  destruct (changeDetected s); cbn [negb]; [|exact H].
  destruct (minSaveInterval <=? now - lastSaveTime s).
  - cbn [saveInProgress]. destruct (saveInProgress s) eqn:E.
    + apply (exclusive_ext s); [now rewrite E|reflexivity|exact H].
    + apply exclusive_startSave; [|reflexivity].
      apply (exclusive_ext s); [now rewrite E|reflexivity|exact H].
  - cbn [pendingSave]. destruct (pendingSave s); cbn [negb];
      now apply (exclusive_ext s).
Qed.

Lemma exclusive_throttleCallback (s : WatchState) :
  exclusive s -> exclusive (throttleCallback s).
Proof.
  intros H. unfold throttleCallback.
  destruct (pendingSave s); [|exact H].
  destruct (saveInProgress s) eqn:E; [now apply (exclusive_ext s)|].
  now apply exclusive_startSave.
Qed.

Lemma exclusive_finallyBlock (s : WatchState) (i : nat) (t : saveTask) :
  exclusive s -> nth_error (savesInFlight s) i = Some t ->
  exclusive (finallyBlock s i).
Proof.
  intros [[_ H]|[_ H]] Hi.
  - right. split; [reflexivity|]. simpl. exact (removeNth_single _ _ _ H Hi).
  - rewrite H in Hi. now apply nth_error_nil_some in Hi.
Qed.

Lemma exclusive_catchBlock (s : WatchState) (i : nat) (t : saveTask)
  (o : saveOrigin) (message : string) :
  exclusive s -> nth_error (savesInFlight s) i = Some t ->
  exclusive (catchBlock s i o message).
Proof.
  intros H Hi. unfold catchBlock.
  destruct (Str.includes message "Profile too large"); [now apply (exclusive_ext s)|].
  destruct o; apply (exclusive_finallyBlock _ i t); first [exact H | exact Hi].
Qed.

Lemma exclusive_afterSave (s : WatchState) (i : nat) (o : saveOrigin) (dateNow : Z) :
  exclusive s -> exclusive (afterSave s i o dateNow).
Proof.
  intros [[H1 H2]|[H1 H2]].
  - left. split; [exact H1|]. simpl. now rewrite replaceNth_length.
  - right. split; [exact H1|]. simpl. rewrite H2. now destruct i.
Qed.

Lemma exclusive_afterHash (s : WatchState) (i : nat) (t : saveTask) (hash : string) :
  exclusive s -> nth_error (savesInFlight s) i = Some t ->
  exclusive (afterHash s i hash).
Proof.
  intros H Hi. unfold afterHash. apply (exclusive_finallyBlock _ i t); [|exact Hi].
  now apply (exclusive_ext s).
Qed.

(** Every turn of the event loop keeps the exclusion. *)
Lemma exclusive_step (s s' : WatchState) (l : label) :
  exclusive s -> step s l = Some s' -> exclusive s'.
Proof.
  intros H. unfold step. destruct (alive s); cbn [negb]; [|discriminate].
  destruct l as [|id now|i r dateNow|i r| |r|].
  - intros E. injection E as <-. now apply exclusive_handleFileChange.
  - assert (Ht : exclusive (setTimers s (clearTimeout id (timers s))))
      by now apply (exclusive_ext s).
    destruct (findTimer id (timers s)) as [[|]|]; [| |discriminate];
      intros E; injection E as <-.
    + now apply exclusive_debounceCallback.
    + now apply exclusive_throttleCallback.
  - destruct (nth_error (savesInFlight s) i) as [[o [|]]|] eqn:Hi; try discriminate.
    destruct r as [u|message]; intros E; injection E as <-.
    + now apply exclusive_afterSave.
    + now apply (exclusive_catchBlock _ _ _ _ _ H Hi).
  - destruct (nth_error (savesInFlight s) i) as [[o [|]]|] eqn:Hi; try discriminate.
    destruct r as [hash|message]; intros E; injection E as <-.
    + now apply (exclusive_afterHash _ _ _ _ H Hi).
    + now apply (exclusive_catchBlock _ _ _ _ _ H Hi).
  - destruct (saveInProgress s); intros E; injection E as <-;
      [exact H|now apply (exclusive_ext s)].
  - destruct (pollsInFlight s) as [|n]; [discriminate|].
    assert (Hp : exclusive (setPolls s n)) by now apply (exclusive_ext s).
    destruct r as [currentHash|message]; [|intros E; injection E as <-; exact Hp].
    destruct (negb (String.eqb currentHash (lastHash s)));
      intros E; injection E as <-; [|exact Hp].
    now apply exclusive_handleFileChange.
  - intros E. injection E as <-. now apply (exclusive_ext s).
Qed.

Lemma reachable_exclusive (hash : string) (s : WatchState) :
  reachable hash s -> exclusive s.
Proof.
  induction 1 as [|s s' l _ IH Hstep].
  - apply exclusive_initial.
  - exact (exclusive_step s s' l IH Hstep).
Qed.

Lemma reachable_run (hash : string) (s s' : WatchState) (ls : list label) :
  reachable hash s -> run s ls = Some s' -> reachable hash s'.
Proof.
  revert s. induction ls as [|l rest IH]; intros s Hs; simpl.
  - intros E. injection E as <-. exact Hs.
  - destruct (step s l) as [s1|] eqn:E1; [|discriminate].
    apply IH. exact (reachable_step hash s s1 l Hs E1).
Qed.

Lemma debounceCallback_busy (s : WatchState) (now : Z) :
  saveInProgress s = true ->
  savesInFlight (debounceCallback s now) = savesInFlight s /\
  saveInProgress (debounceCallback s now) = true.
Proof.
  intros Hbusy. unfold debounceCallback.
  destruct (changeDetected s); cbn [negb]; [|now split].
  destruct (minSaveInterval <=? now - lastSaveTime s); simpl.
  - rewrite Hbusy. now split.
  - destruct (pendingSave s); now split.
Qed.

Lemma throttleCallback_busy (s : WatchState) :
  saveInProgress s = true ->
  savesInFlight (throttleCallback s) = savesInFlight s /\
  saveInProgress (throttleCallback s) = true.
Proof.
  intros Hbusy. unfold throttleCallback.
  destruct (pendingSave s); [|now split]. rewrite Hbusy. now split.
Qed.

Lemma debounceCallback_dropped (s : WatchState) (now : Z) :
  saveInProgress s = true -> changeDetected s = true ->
  minSaveInterval <= now - lastSaveTime s ->
  timers (debounceCallback s now) = timers s /\
  savesInFlight (debounceCallback s now) = savesInFlight s /\
  nextTimer (debounceCallback s now) = nextTimer s.
Proof.
  intros Hbusy Hc Ht. unfold debounceCallback. rewrite Hc. cbn [negb].
  apply Z.leb_le in Ht. rewrite Ht. simpl. rewrite Hbusy. now repeat split.
Qed.

Lemma throttleCallback_dropped (s : WatchState) :
  saveInProgress s = true -> pendingSave s = true ->
  timers (throttleCallback s) = timers s /\
  savesInFlight (throttleCallback s) = savesInFlight s /\
  nextTimer (throttleCallback s) = nextTimer s.
Proof.
  intros Hbusy Hp. unfold throttleCallback. rewrite Hp, Hbusy. now repeat split.
Qed.

(** The branch of the debounce callback that does not read
    [saveInProgress]: within [minSaveInterval] of [lastSaveTime], and with no
    save pending, it arms the throttle timer. *)
Lemma debounceCallback_deferred (s : WatchState) (now : Z) :
  changeDetected s = true -> now - lastSaveTime s < minSaveInterval ->
  pendingSave s = false ->
  timers (debounceCallback s now) = List.app (timers s) [(nextTimer s, Throttle)] /\
  pendingSave (debounceCallback s now) = true /\
  savesInFlight (debounceCallback s now) = savesInFlight s.
Proof.
  intros Hc Ht Hp. unfold debounceCallback. rewrite Hc. cbn [negb].
  apply Z.leb_gt in Ht. rewrite Ht. simpl. rewrite Hp. now repeat split.
Qed.

(** A timer that fires while a save is in progress starts no save. *)
Lemma timer_during_save (s s' : WatchState) (id : nat) (now : Z) :
  saveInProgress s = true ->
  step s (TimerFires id now) = Some s' ->
  savesInFlight s' = savesInFlight s /\ saveInProgress s' = true.
Proof.
  intros Hbusy. unfold step. destruct (alive s); cbn [negb]; [|discriminate].
  destruct (findTimer id (timers s)) as [[|]|]; [| |discriminate];
    intros E; injection E as <-.
  - now apply (debounceCallback_busy (setTimers s (clearTimeout id (timers s)))).
  - now apply (throttleCallback_busy (setTimers s (clearTimeout id (timers s)))).
Qed.

(** When the callback of the timer reaches its test of [saveInProgress]
    during a save, the request is dropped: the state afterwards has no new
    timer and no new suspended callback. *)
Lemma timer_request_dropped (s s' : WatchState) (id : nat) (now : Z) :
  saveInProgress s = true ->
  step s (TimerFires id now) = Some s' ->
  (findTimer id (timers s) = Some Debounce /\ changeDetected s = true /\
   minSaveInterval <= now - lastSaveTime s) \/
  (findTimer id (timers s) = Some Throttle /\ pendingSave s = true) ->
  timers s' = clearTimeout id (timers s) /\
  savesInFlight s' = savesInFlight s /\
  nextTimer s' = nextTimer s.
Proof.
  intros Hbusy. unfold step. destruct (alive s); cbn [negb]; [|discriminate].
  intros E [(Hk & Hc & Ht)|(Hk & Hp)]; rewrite Hk in E; injection E as <-.
  - now apply (debounceCallback_dropped (setTimers s (clearTimeout id (timers s)))).
  - now apply (throttleCallback_dropped (setTimers s (clearTimeout id (timers s)))).
Qed.

Lemma timer_request_deferred (s s' : WatchState) (id : nat) (now : Z) :
  step s (TimerFires id now) = Some s' ->
  findTimer id (timers s) = Some Debounce ->
  changeDetected s = true ->
  now - lastSaveTime s < minSaveInterval ->
  pendingSave s = false ->
  timers s' = List.app (clearTimeout id (timers s)) [(nextTimer s, Throttle)] /\
  pendingSave s' = true /\
  savesInFlight s' = savesInFlight s.
Proof.
  unfold step. destruct (alive s); cbn [negb]; [|discriminate].
  intros E Hk Hc Ht Hp. rewrite Hk in E. injection E as <-.
  now apply (debounceCallback_deferred (setTimers s (clearTimeout id (timers s)))).
Qed.

(** A turn that ends a suspended save has reset [saveInProgress]. *)
Lemma save_finished_resets (s s' : WatchState) (l : label) :
  exclusive s ->
  step s l = Some s' ->
  (List.length (savesInFlight s') < List.length (savesInFlight s))%nat ->
  saveInProgress s' = false.
Proof.
  intros H Hstep Hless.
  destruct (exclusive_step s s' l H Hstep) as [[_ H1]|[H0 _]]; [|exact H0].
  destruct H as [[_ H2]|[_ H2]]; [lia|]. rewrite H2 in Hless. simpl in Hless. lia.
Qed.

(** The settling of a promise starts no save: nothing is queued behind the
    save in flight. *)
Lemma removeNth_length {A : Type} (l : list A) (i : nat) :
  (List.length (removeNth i l) <= List.length l)%nat.
Proof.
  revert i. induction l as [|a rest IH]; intros i; [now destruct i|].
  destruct i as [|i]; simpl; [lia|]. specialize (IH i). lia.
Qed.

Lemma catchBlock_starts_nothing (s : WatchState) (i : nat) (o : saveOrigin)
  (message : string) :
  (List.length (savesInFlight (catchBlock s i o message))
   <= List.length (savesInFlight s))%nat.
Proof.
  unfold catchBlock. destruct (Str.includes message "Profile too large"); [simpl; lia|].
  destruct o; simpl; apply removeNth_length.
Qed.

Lemma settling_starts_nothing (s s' : WatchState) (l : label) :
  step s l = Some s' ->
  (exists i r now, l = SaveSettles i r now) \/ (exists i r, l = HashSettles i r) ->
  (List.length (savesInFlight s') <= List.length (savesInFlight s))%nat.
Proof.
  unfold step. destruct (alive s); cbn [negb]; [|discriminate].
  intros E [(i & r & now & ->)|(i & r & ->)].
  - destruct (nth_error (savesInFlight s) i) as [[o [|]]|]; try discriminate.
    destruct r as [u|message]; injection E as <-.
    + simpl. rewrite replaceNth_length. lia.
    + apply catchBlock_starts_nothing.
  - destruct (nth_error (savesInFlight s) i) as [[o [|]]|]; try discriminate.
    destruct r as [hash|message]; injection E as <-.
    + simpl. apply removeNth_length.
    + apply catchBlock_starts_nothing.
Qed.

(** What the debounce callback does to the timers and to [pendingSave]: it
    arms the throttle timer in one case, and changes neither in every
    other. *)
Lemma debounceCallback_request (s : WatchState) (now : Z) :
  (changeDetected s = true /\ now - lastSaveTime s < minSaveInterval /\
   pendingSave s = false ->
   timers (debounceCallback s now) = List.app (timers s) [(nextTimer s, Throttle)] /\
   pendingSaveTimeout (debounceCallback s now) = Some (nextTimer s) /\
   pendingSave (debounceCallback s now) = true) /\
  (~ (changeDetected s = true /\ now - lastSaveTime s < minSaveInterval /\
      pendingSave s = false) ->
   timers (debounceCallback s now) = timers s /\
   nextTimer (debounceCallback s now) = nextTimer s /\
   pendingSaveTimeout (debounceCallback s now) = pendingSaveTimeout s /\
   pendingSave (debounceCallback s now) = pendingSave s).
Proof.
  unfold debounceCallback. split.
  - intros (Hc & Ht & Hp). rewrite Hc. cbn [negb].
    apply Z.leb_gt in Ht. rewrite Ht. cbn [pendingSave]. rewrite Hp. now repeat split.
  - intros Hnot. destruct (changeDetected s) eqn:Hc; cbn [negb]; [|now repeat split].
    destruct (Z.leb_spec minSaveInterval (now - lastSaveTime s)) as [Ht|Ht];
      cbn [saveInProgress pendingSave].
    + destruct (saveInProgress s); now repeat split.
    + destruct (pendingSave s) eqn:Hp; cbn [negb]; [now repeat split|].
      exfalso. apply Hnot. now repeat split.
Qed.

(** The throttle callback arms nothing and never sets [pendingSave]. *)
Lemma throttleCallback_request (s : WatchState) :
  timers (throttleCallback s) = timers s /\
  nextTimer (throttleCallback s) = nextTimer s /\
  pendingSaveTimeout (throttleCallback s) = pendingSaveTimeout s /\
  (pendingSave (throttleCallback s) = true -> pendingSave s = true).
Proof.
  unfold throttleCallback. destruct (pendingSave s) eqn:Hp.
  - destruct (saveInProgress s); now repeat split.
  - repeat split; try reflexivity. intros H. congruence.
Qed.

(** A timer that fires during a save: its request is deferred in one case,
    and dropped in every other. *)
Lemma timer_request_during_save (s s' : WatchState) (id : nat) (now : Z) :
  step s (TimerFires id now) = Some s' ->
  (findTimer id (timers s) = Some Debounce /\ changeDetected s = true /\
   now - lastSaveTime s < minSaveInterval /\ pendingSave s = false ->
   timers s' = List.app (clearTimeout id (timers s)) [(nextTimer s, Throttle)] /\
   pendingSaveTimeout s' = Some (nextTimer s) /\
   pendingSave s' = true) /\
  (~ (findTimer id (timers s) = Some Debounce /\ changeDetected s = true /\
      now - lastSaveTime s < minSaveInterval /\ pendingSave s = false) ->
   timers s' = clearTimeout id (timers s) /\
   nextTimer s' = nextTimer s /\
   pendingSaveTimeout s' = pendingSaveTimeout s /\
   (pendingSave s' = true -> pendingSave s = true)).
Proof.
  unfold step. destruct (alive s); cbn [negb]; [|discriminate].
  destruct (findTimer id (timers s)) as [[|]|]; [| |discriminate];
    intros E; injection E as <-.
  - destruct (debounceCallback_request (setTimers s (clearTimeout id (timers s))) now)
      as [Hdefer Hdrop].
    split.
    + intros (_ & H). exact (Hdefer H).
    + intros Hnot. destruct Hdrop as (H1 & H2 & H3 & H4).
      * intros H. apply Hnot. split; [reflexivity|exact H].
      * rewrite H1, H2, H3, H4. now repeat split.
  - split; [intros (H & _); discriminate H|intros _].
    apply (throttleCallback_request (setTimers s (clearTimeout id (timers s)))).
Qed.

(** The turn that ends a save: the [finally] block resets [saveInProgress]
    and nothing is left in flight; on the size error the process ends
    instead. *)
Lemma catchBlock_ends_save (s : WatchState) (i : nat) (t : saveTask) (message : string) :
  exclusive s -> alive s = true -> nth_error (savesInFlight s) i = Some t ->
  if Str.includes message "Profile too large"
  then alive (catchBlock s i (origin t) message) = false
  else saveInProgress (catchBlock s i (origin t) message) = false /\
       savesInFlight (catchBlock s i (origin t) message) = [] /\
       alive (catchBlock s i (origin t) message) = true.
Proof.
  intros H Halive Hnth. unfold catchBlock.
  destruct (Str.includes message "Profile too large"); [reflexivity|].
  assert (Hone : removeNth i (savesInFlight s) = []).
  { destruct H as [[_ H]|[_ H]]; [now apply (removeNth_single _ i t)|].
    rewrite H in Hnth. now destruct (nth_error_nil_some i t). }
  destruct (origin t); cbn; rewrite Hone; now repeat split.
Qed.

Lemma afterHash_ends_save (s : WatchState) (i : nat) (t : saveTask) (h : string) :
  exclusive s -> alive s = true -> nth_error (savesInFlight s) i = Some t ->
  saveInProgress (afterHash s i h) = false /\
  savesInFlight (afterHash s i h) = [] /\
  pendingSave (afterHash s i h) = false /\
  alive (afterHash s i h) = true.
Proof.
  intros H Halive Hnth.
  assert (Hone : removeNth i (savesInFlight s) = []).
  { destruct H as [[_ H]|[_ H]]; [now apply (removeNth_single _ i t)|].
    rewrite H in Hnth. now destruct (nth_error_nil_some i t). }
  cbn. rewrite Hone. now repeat split.
Qed.

(** C3: in every state the scheduler can reach, at most one save is in
    flight, and [saveInProgress] is true exactly while one is. A debounce or
    throttle timer that fires while [saveInProgress] is true starts no save.
    Its request is deferred in one case: the debounce callback that runs
    within [minSaveInterval] of [lastSaveTime] with [pendingSave] unset does
    not read [saveInProgress], it sets [pendingSave] and arms the throttle
    timer; in every other case the request is dropped, with no timer armed
    and [pendingSave] not set. The settling of a promise starts no save.
    While the save waits for the hash it is still the one in flight; the
    turn that ends it resets [saveInProgress] with nothing left in flight,
    a completed save also clearing [pendingSave]; on the size error the
    process ends instead. *)
Theorem at_most_one_save_in_flight (hash : string) (s : WatchState) :
  reachable hash s ->
  (List.length (savesInFlight s) <= 1)%nat /\
  (saveInProgress s = true <-> List.length (savesInFlight s) = 1%nat) /\
  (forall id now s',
     saveInProgress s = true ->
     step s (TimerFires id now) = Some s' ->
     savesInFlight s' = savesInFlight s /\ saveInProgress s' = true) /\
  (forall id now s',
     saveInProgress s = true ->
     step s (TimerFires id now) = Some s' ->
     (findTimer id (timers s) = Some Debounce /\ changeDetected s = true /\
      now - lastSaveTime s < minSaveInterval /\ pendingSave s = false ->
      timers s' = List.app (clearTimeout id (timers s)) [(nextTimer s, Throttle)] /\
      pendingSaveTimeout s' = Some (nextTimer s) /\
      pendingSave s' = true) /\
     (~ (findTimer id (timers s) = Some Debounce /\ changeDetected s = true /\
         now - lastSaveTime s < minSaveInterval /\ pendingSave s = false) ->
      timers s' = clearTimeout id (timers s) /\
      nextTimer s' = nextTimer s /\
      pendingSaveTimeout s' = pendingSaveTimeout s /\
      (pendingSave s' = true -> pendingSave s = true))) /\
  (forall l s',
     step s l = Some s' ->
     (exists i r now, l = SaveSettles i r now) \/ (exists i r, l = HashSettles i r) ->
     (List.length (savesInFlight s') <= List.length (savesInFlight s))%nat) /\
  (forall i u now s',
     step s (SaveSettles i (Js.Ok u) now) = Some s' ->
     saveInProgress s' = true /\ List.length (savesInFlight s') = 1%nat) /\
  (forall i h s',
     step s (HashSettles i (Js.Ok h)) = Some s' ->
     saveInProgress s' = false /\ savesInFlight s' = [] /\
     pendingSave s' = false /\ alive s' = true) /\
  (forall l message s',
     step s l = Some s' ->
     (exists i now, l = SaveSettles i (Js.Throw message) now) \/
     (exists i, l = HashSettles i (Js.Throw message)) ->
     if Str.includes message "Profile too large"
     then alive s' = false
     else saveInProgress s' = false /\ savesInFlight s' = [] /\ alive s' = true).
Proof.
  intros Hreach. pose proof (reachable_exclusive hash s Hreach) as H.
  split; [|split; [|split; [|split; [|split; [|split; [|split]]]]]].
  - destruct H as [[_ H]|[_ H]]; rewrite H; simpl; lia.
  - destruct H as [[H1 H2]|[H1 H2]]; rewrite H1, H2; simpl; split; congruence.
  - intros id now s'. apply timer_during_save.
  - intros id now s' _. apply timer_request_during_save.
  - intros l s'. apply settling_starts_nothing.
  - intros i u now s' E.
    pose proof (exclusive_step s s' _ H E) as H'.
    assert (Hlen : List.length (savesInFlight s') = List.length (savesInFlight s)).
    { revert E. unfold step. destruct (alive s); cbn [negb]; [|discriminate].
      destruct (nth_error (savesInFlight s) i) as [[o [|]]|]; try discriminate.
      intros E. injection E as <-. cbn. apply replaceNth_length. }
    assert (Hin : savesInFlight s <> []).
    { revert E. unfold step. destruct (alive s); cbn [negb]; [|discriminate].
      destruct (nth_error (savesInFlight s) i) eqn:En; [|discriminate].
      intros _ Hnil. rewrite Hnil in En. now destruct (nth_error_nil_some i s0). }
    destruct H' as [[H1 H2]|[_ H2]]; [now split|].
    rewrite H2 in Hlen. destruct (savesInFlight s); [contradiction|discriminate].
  - intros i h s'. unfold step. destruct (alive s) eqn:Halive; cbn [negb]; [|discriminate].
    destruct (nth_error (savesInFlight s) i) as [[o [|]]|] eqn:En; try discriminate.
    intros E. injection E as <-. exact (afterHash_ends_save s i _ h H Halive En).
  - intros l message s' E [(i & now & ->)|(i & ->)]; revert E; unfold step;
      destruct (alive s) eqn:Halive; cbn [negb]; try discriminate;
      destruct (nth_error (savesInFlight s) i) as [[o [|]]|] eqn:En; try discriminate;
      intros E; injection E as <-;
      exact (catchBlock_ends_save s i _ message H Halive En).
Qed.

(** The branch of the debounce callback that does not read
    [saveInProgress]: while the callback of the save waits for the hash,
    [lastSaveTime] is written already, and the debounce timer of a new
    change sets [pendingSave] and arms the throttle timer; the end of the
    save clears [pendingSave], and the throttle timer then starts nothing. *)
Example deferred_request_cleared_by_completion :
  run (initial "h0")
    [FileChange; TimerFires 0 40000; SaveSettles 0 (Js.Ok tt) 45000; FileChange;
     TimerFires 1 47000]
  = Some {| lastSaveTime := 40000; pendingSave := true; saveInProgress := true;
            lastHash := "h0"; saveCount := 0; pendingSaveTimeout := Some 2%nat;
            changeDetected := false; timers := [(2%nat, Throttle)]; nextTimer := 3%nat;
            savesInFlight := [mkSaveTask (ByDebounce 40000) AwaitHash];
            pollsInFlight := 0%nat; alive := true |} /\
  run (initial "h0")
    [FileChange; TimerFires 0 40000; SaveSettles 0 (Js.Ok tt) 45000; FileChange;
     TimerFires 1 47000; HashSettles 0 (Js.Ok "h1"); TimerFires 2 70000]
  = Some {| lastSaveTime := 40000; pendingSave := false; saveInProgress := false;
            lastHash := "h1"; saveCount := 1; pendingSaveTimeout := Some 2%nat;
            changeDetected := false; timers := []; nextTimer := 3%nat;
            savesInFlight := []; pollsInFlight := 0%nat; alive := true |}.
Proof. split; reflexivity. Qed.

(** A change, its debounce timer after 40 s, a second change during the
    save, and the debounce timer of that one: the second request is
    dropped, and the save in flight is the only one. *)
Example second_request_dropped :
  run (initial "h0") [FileChange; TimerFires 0 40000; FileChange; TimerFires 1 80000]
  = Some {| lastSaveTime := 0; pendingSave := false; saveInProgress := true;
            lastHash := "h0"; saveCount := 0; pendingSaveTimeout := Some 1%nat;
            changeDetected := false; timers := []; nextTimer := 2%nat;
            savesInFlight := [mkSaveTask (ByDebounce 40000) AwaitSave];
            pollsInFlight := 0%nat; alive := true |}.
Proof. reflexivity. Qed.

Example save_completes :
  run (initial "h0")
    [FileChange; TimerFires 0 40000; SaveSettles 0 (Js.Ok tt) 41000;
     HashSettles 0 (Js.Ok "h1")]
  = Some {| lastSaveTime := 40000; pendingSave := false; saveInProgress := false;
            lastHash := "h1"; saveCount := 1; pendingSaveTimeout := Some 0%nat;
            changeDetected := false; timers := []; nextTimer := 1%nat;
            savesInFlight := []; pollsInFlight := 0%nat; alive := true |}.
Proof. reflexivity. Qed.

(** C3, as stated, fails on the code: a request during a save is not
    always dropped. A save starts at [1700000000000], its upload
    succeeds, and while it waits for the hash the debounce timer of a new
    change fires five seconds after the start: [saveInProgress] is true, and
    the request is queued, [pendingSave] set and the throttle timer armed.
    If the hash then fails, the queued request starts a save when the
    throttle timer fires; if the hash succeeds, the timer starts nothing. *)
Lemma request_during_hash_is_queued :
  run (initial "h0")
    [FileChange; TimerFires 0 1700000000000; SaveSettles 0 (Js.Ok tt) 1700000004000;
     FileChange; TimerFires 1 1700000005000]
  = Some {| lastSaveTime := 1700000000000; pendingSave := true; saveInProgress := true;
            lastHash := "h0"; saveCount := 0; pendingSaveTimeout := Some 2%nat;
            changeDetected := false; timers := [(2%nat, Throttle)]; nextTimer := 3%nat;
            savesInFlight := [mkSaveTask (ByDebounce 1700000000000) AwaitHash];
            pollsInFlight := 0%nat; alive := true |} /\
  option_map savesInFlight
    (run (initial "h0")
       [FileChange; TimerFires 0 1700000000000; SaveSettles 0 (Js.Ok tt) 1700000004000;
        FileChange; TimerFires 1 1700000005000;
        HashSettles 0 (Js.Throw "EIO: i/o error, read"); TimerFires 2 1700000030000])
  = Some [mkSaveTask ByThrottle AwaitSave] /\
  option_map savesInFlight
    (run (initial "h0")
       [FileChange; TimerFires 0 1700000000000; SaveSettles 0 (Js.Ok tt) 1700000004000;
        FileChange; TimerFires 1 1700000005000;
        HashSettles 0 (Js.Ok "h1"); TimerFires 2 1700000030000])
  = Some [].
Proof. repeat split. Qed.

Lemma at_most_one_save_in_flight_witness :
  reachable "h0"
    {| lastSaveTime := 0; pendingSave := false; saveInProgress := true;
       lastHash := "h0"; saveCount := 0; pendingSaveTimeout := Some 1%nat;
       changeDetected := false; timers := []; nextTimer := 2%nat;
       savesInFlight := [mkSaveTask (ByDebounce 40000) AwaitSave];
       pollsInFlight := 0%nat; alive := true |} /\
  (List.length [mkSaveTask (ByDebounce 40000) AwaitSave] <= 1)%nat.
Proof.
  assert (H : reachable "h0"
    {| lastSaveTime := 0; pendingSave := false; saveInProgress := true;
       lastHash := "h0"; saveCount := 0; pendingSaveTimeout := Some 1%nat;
       changeDetected := false; timers := []; nextTimer := 2%nat;
       savesInFlight := [mkSaveTask (ByDebounce 40000) AwaitSave];
       pollsInFlight := 0%nat; alive := true |}).
  { apply (reachable_run "h0" (initial "h0") _
             [FileChange; TimerFires 0 40000; FileChange; TimerFires 1 80000]).
    - apply reachable_initial.
    - reflexivity. }
  split; [exact H|].
  exact (proj1 (at_most_one_save_in_flight "h0" _ H)).
Defined.

End WatchFacts.

(** * Further properties of the code *)

(** ** PathFilter: the two filters side by side *)

Module PathFilterLaws.
Import Str StrFacts PathFilter PathFilterFacts.

(** X1: every path the archive filter keeps is kept by the hash filter, and
    the paths the hash filter keeps and the archive filter drops are exactly
    those outside the projects folder with [.claude] below the first
    segment. *)
Theorem archived_paths_are_hashed (item : BackupPath) (files : list string) (file : string) :
  (In file (archivedPaths item files) -> In file (hashedPaths item files)) /\
  (In file (hashedPaths item files) /\ ~ In file (archivedPaths item files) <->
   skipProjects item = true /\ In file files /\
   inProjectsFolder file = false /\
   exists i, 0 < i /\ nth_error (split file) i = Some ".claude").
Proof.
  unfold archivedPaths, hashedPaths.
  destruct (skipProjects item).
  - rewrite !filter_In, archiveFilter_eq, hashFilter_eq, andb_true_iff, !negb_true_iff.
    assert (Hn : nestedClaude (split file) = true <->
                 exists i, 0 < i /\ nth_error (split file) i = Some ".claude").
    { unfold nestedClaude. now rewrite nestedClaudeFrom_spec. }
    rewrite <- Hn. split; [tauto|]. split.
    + intros [[Hf Hp] Hno]. repeat split; try assumption.
      destruct (nestedClaude (split file)); [reflexivity|]. exfalso. apply Hno. tauto.
    + intros (_ & Hf & Hp & Hnest). split; [tauto|].
      intros (_ & _ & H). congruence.
  - split; [tauto|]. split; [tauto|]. intros [H _]. discriminate H.
Qed.

(** X2: without the option [skipProjects] no entry is filtered: every listed
    path of a directory is archived and hashed, the ones in the projects
    folder and the ones below a nested [.claude] included. *)
Theorem no_filter_without_skipProjects
  (options : Options) (item : BackupPath) (files : list string) :
  optSkipProjects options = false ->
  In item (getBackupPaths options) ->
  archivedPaths item files = files /\ hashedPaths item files = files.
Proof.
  intros Hopt Hin.
  pose proof (getBackupPaths_skipProjects options item Hin) as Hskip.
  rewrite Hopt in Hskip. simpl in Hskip.
  unfold archivedPaths, hashedPaths. now rewrite Hskip.
Qed.

Lemma no_filter_without_skipProjects_witness :
  optSkipProjects (mkOptions false) = false /\
  In (mkBackupPath "~/.claude" ".claude" true false) (getBackupPaths (mkOptions false)) /\
  archivedPaths (mkBackupPath "~/.claude" ".claude" true false)
    ["projects/p1/chat.jsonl"; "plugins/.claude/settings.json"]
  = ["projects/p1/chat.jsonl"; "plugins/.claude/settings.json"].
Proof.
  assert (Hin : In (mkBackupPath "~/.claude" ".claude" true false)
                   (getBackupPaths (mkOptions false))) by (simpl; left; reflexivity).
  split; [reflexivity|]. split; [exact Hin|].
  exact (proj1 (no_filter_without_skipProjects (mkOptions false) _
                  ["projects/p1/chat.jsonl"; "plugins/.claude/settings.json"]
                  eq_refl Hin)).
Defined.

End PathFilterLaws.

(** ** SizeGuard: bounds and thresholds of the estimate *)

Module SizeGuardLaws.
Import SizeGuard SizeGuardFacts.
Local Open Scope Z_scope.

(** Rounding moves a number by less than one part in [2 ^ 52]. *)
Lemma round53pos_close (p : Z) :
  0 <= p ->
  (2 ^ 52 - 1) * p <= 2 ^ 52 * round53pos p <= (2 ^ 52 + 1) * p.
Proof.
  intros Hp. rewrite round53pos_eq.
  destruct (Z.leb_spec (Z.log2 p - 52) 0) as [S0|S0]; [lia|].
  set (s := Z.log2 p - 52) in *.
  assert (Hpos : 0 < p).
  { destruct (Z.eq_dec p 0) as [->|]; [|lia]. subst s. simpl in S0. lia. }
  pose proof (log2_bounds p Hpos) as [Hlo _].
  assert (Hs : 0 < 2 ^ s) by (apply Z.pow_pos_nonneg; lia).
  assert (E : 2 ^ Z.log2 p = 2 ^ 52 * 2 ^ s).
  { rewrite <- Z.pow_add_r by lia. f_equal. subst s. lia. }
  pose proof (roundAt_lower s p S0) as Hl.
  pose proof (roundAt_upper s p S0) as Hu.
  pose proof (Z.mod_pos_bound p (2 ^ s) Hs) as Hm.
  pose proof (Z.div_mod p (2 ^ s) ltac:(lia)) as Hd.
  split; nia.
Qed.

Lemma ceilTimes133_bounds (n : Z) :
  0 <= n -> n <= ceilTimes133 n /\ 100 * ceilTimes133 n <= 134 * n + 100.
Proof.
  intros Hn. unfold ceilTimes133, round53, scale133.
  destruct (Z.ltb_spec (n * mantissa133) 0) as [Hneg|_];
    [unfold mantissa133 in Hneg; lia|].
  pose proof (round53pos_close (n * mantissa133) ltac:(unfold mantissa133; lia)) as [Hlo Hhi].
  set (r := round53pos (n * mantissa133)) in *.
  assert (H49 : 0 < 2 ^ 49) by reflexivity.
  pose proof (Z.div_mod (- r) (2 ^ 49) ltac:(lia)) as Hd.
  pose proof (Z.mod_pos_bound (- r) (2 ^ 49) H49) as Hm.
  unfold mantissa133 in *.
  change (2 ^ 52) with 4503599627370496 in *.
  change (2 ^ 49) with 562949953421312 in *.
  split; lia.
Qed.

(** X3: for a byte length, the estimated upload size is at least the raw
    size and at most 1.34 times the raw size plus one byte. *)
Theorem actualUploadSize_bounds (formatBytes : Z -> string) (sizeBytes : Z) :
  0 <= sizeBytes ->
  sizeBytes <= actualUploadSize (checkArchiveSize formatBytes sizeBytes false) /\
  100 * actualUploadSize (checkArchiveSize formatBytes sizeBytes false)
  <= 134 * sizeBytes + 100.
Proof. intros H. simpl. now apply ceilTimes133_bounds. Qed.

Lemma actualUploadSize_bounds_witness :
  0 <= 7884030 /\
  7884030 <= actualUploadSize (checkArchiveSize (fun _ => "") 7884030 false).
Proof.
  split; [lia|].
  exact (proj1 (actualUploadSize_bounds (fun _ => "") 7884030 ltac:(lia))).
Defined.

(** X4: the raw sizes at which the flags of a not yet encoded archive turn.
    The archive is within the API limit up to 31536120 bytes, exceeds the web
    limit above 15768060 bytes, and is large above 7884030 bytes. *)
Theorem checkArchiveSize_thresholds (formatBytes : Z -> string) (sizeBytes : Z) :
  0 <= sizeBytes ->
  (withinLimit (checkArchiveSize formatBytes sizeBytes false) = true
   <-> sizeBytes <= 31536120) /\
  (exceedsApiLimit (checkArchiveSize formatBytes sizeBytes false) = true
   <-> 31536120 < sizeBytes) /\
  (exceedsWebLimit (checkArchiveSize formatBytes sizeBytes false) = true
   <-> 15768060 < sizeBytes) /\
  (isLarge (checkArchiveSize formatBytes sizeBytes false) = true
   <-> 7884030 < sizeBytes).
Proof.
  intros Hn. cbn [withinLimit exceedsApiLimit exceedsWebLimit isLarge checkArchiveSize].
  assert (A1 : ceilTimes133 31536120 = 41943040) by (vm_compute; reflexivity).
  assert (A2 : ceilTimes133 31536121 = 41943041) by (vm_compute; reflexivity).
  assert (W1 : ceilTimes133 15768060 = 20971520) by (vm_compute; reflexivity).
  assert (W2 : ceilTimes133 15768061 = 20971522) by (vm_compute; reflexivity).
  assert (L1 : ceilTimes133 7884030 = 10485760) by (vm_compute; reflexivity).
  assert (L2 : ceilTimes133 7884031 = 10485762) by (vm_compute; reflexivity).
  change GIST_SIZE_LIMIT_API with 41943040.
  change GIST_SIZE_LIMIT_WEB with 20971520.
  change GIST_SIZE_WARNING with 10485760.
  rewrite Z.leb_le, !Z.ltb_lt.
  repeat split; intros H.
  - destruct (Z.le_gt_cases sizeBytes 31536120) as [|G]; [assumption|].
    pose proof (ceilTimes133_mono 31536121 sizeBytes ltac:(lia) ltac:(lia)). lia.
  - pose proof (ceilTimes133_mono sizeBytes 31536120 Hn H). lia.
  - destruct (Z.le_gt_cases sizeBytes 31536120) as [L|G]; [|lia].
    pose proof (ceilTimes133_mono sizeBytes 31536120 Hn L). lia.
  - pose proof (ceilTimes133_mono 31536121 sizeBytes ltac:(lia) ltac:(lia)). lia.
  - destruct (Z.le_gt_cases sizeBytes 15768060) as [L|G]; [|lia].
    pose proof (ceilTimes133_mono sizeBytes 15768060 Hn L). lia.
  - pose proof (ceilTimes133_mono 15768061 sizeBytes ltac:(lia) ltac:(lia)). lia.
  - destruct (Z.le_gt_cases sizeBytes 7884030) as [L|G]; [|lia].
    pose proof (ceilTimes133_mono sizeBytes 7884030 Hn L). lia.
  - pose proof (ceilTimes133_mono 7884031 sizeBytes ltac:(lia) ltac:(lia)). lia.
Qed.

Lemma checkArchiveSize_thresholds_witness :
  0 <= 31536120 /\
  (withinLimit (checkArchiveSize (fun _ => "") 31536120 false) = true
   <-> 31536120 <= 31536120).
Proof.
  split; [lia|].
  exact (proj1 (checkArchiveSize_thresholds (fun _ => "") 31536120 ltac:(lia))).
Defined.

End SizeGuardLaws.

(** ** CredentialBridge: when the conversion throws, and what it returns *)

Module CredentialsLaws.
Import Js Credentials CredentialsFacts.

Section ConvertLaws.

Variable num : Type.
Variable numFalsy : num -> bool.

Abbreviation value := (Js.value num).
Abbreviation truthy := (Js.truthy num numFalsy).
Abbreviation convert := (convertCredentialsFormat num numFalsy).

(** X5: the conversion throws exactly on [null] and [undefined]; on every
    other value it returns. *)
Theorem convert_throws_iff_nullish (credentials : value) (targetPlatform : string) :
  (exists message, convert credentials targetPlatform = Throw message) <->
  credentials = VNull \/ credentials = VUndefined.
Proof.
  split.
  - intros [message H].
    destruct credentials as [| |b|n|s|items|fields]; try tauto;
      try (rewrite convert_non_object in H by discriminate; discriminate H).
    rewrite convert_object in H. discriminate H.
  - intros [->| ->]; rewrite convert_non_object by discriminate; eexists; reflexivity.
Qed.

(** X6: what the conversion returns is either an object whose
    [claudeAiOauth] is truthy, or the input itself, and the input itself
    only when it is no object or none of [claudeAiOauth], [access_token] and
    [accessToken] is truthy in it. *)
Theorem convert_result_shape
  (credentials converted : value) (targetPlatform : string) :
  convert credentials targetPlatform = Ok converted ->
  (exists fields,
     converted = VObj fields /\ truthy (lookup "claudeAiOauth" fields) = true) \/
  (converted = credentials /\
   forall fields,
     credentials = VObj fields ->
     truthy (lookup "claudeAiOauth" fields) = false /\
     truthy (lookup "access_token" fields) = false /\
     truthy (lookup "accessToken" fields) = false).
Proof.
  intros H.
  destruct credentials as [| |b|n|s|items|fields];
    try (rewrite convert_non_object in H by discriminate; cbn in H;
         first [discriminate H | injection H as <-; right; split;
                                 [reflexivity|intros f E; discriminate E]]).
  rewrite convert_object in H. injection H as <-.
  destruct (truthy (lookup "claudeAiOauth" fields)) eqn:Hw.
  { left. now exists fields. }
  destruct (truthy (lookup "access_token" fields)) eqn:Ht.
  { left. eexists. split; [reflexivity|reflexivity]. }
  destruct (truthy (lookup "accessToken" fields)) eqn:Ha.
  { left. eexists. split; [reflexivity|reflexivity]. }
  right. split; [reflexivity|]. intros f E. injection E as <-. now repeat split.
Qed.

End ConvertLaws.

Lemma convert_result_shape_witness :
  convertCredentialsFormat Z (Z.eqb 0) Samples.sessionRecord "linux"
  = Ok Samples.sessionRecord /\
  ((exists fields,
      Samples.sessionRecord = VObj fields /\
      Js.truthy Z (Z.eqb 0) (lookup "claudeAiOauth" fields) = true) \/
   (Samples.sessionRecord = Samples.sessionRecord /\
    forall fields,
      Samples.sessionRecord = VObj fields ->
      Js.truthy Z (Z.eqb 0) (lookup "claudeAiOauth" fields) = false /\
      Js.truthy Z (Z.eqb 0) (lookup "access_token" fields) = false /\
      Js.truthy Z (Z.eqb 0) (lookup "accessToken" fields) = false)).
Proof.
  split; [reflexivity|].
  exact (convert_result_shape Z (Z.eqb 0) Samples.sessionRecord
           Samples.sessionRecord "linux" eq_refl).
Defined.

End CredentialsLaws.

(** ** Verifier: when a downloaded profile is valid *)

Module VerifierLaws.
Import Str Js Verifier VerifierFacts.
Local Open Scope Z_scope.

Section VerifyLaws.

Variable num : Type.
Variable numFalsy : num -> bool.

Abbreviation value := (Js.value num).
Abbreviation truthy := (Js.truthy num numFalsy).
Abbreviation verify := (verifyDownloadedProfile num numFalsy).

(** X7: a downloaded profile is valid exactly when the verification
    directory could be made, the archive unpacked, [.claude.json] is a file,
    at least one credential export is present, and every credential export
    that is present is usable. *)
Theorem verifyDownloadedProfile_valid_iff (u : Unpacked num) :
  valid (verify u) = true <->
  mkdirError u = None /\
  unzipCode u = 0 /\
  configIsFile u = Some true /\
  (present (linuxCreds u) = true \/ present (macosCreds u) = true) /\
  (present (linuxCreds u) = true -> linuxUsable num numFalsy (linuxCreds u) = true) /\
  (present (macosCreds u) = true -> macosUsable num numFalsy (macosCreds u) = true).
Proof.
  unfold verifyDownloadedProfile.
  destruct (mkdirError u) as [message|]; cbn [valid];
    [split; [discriminate|intros (H & _); discriminate H]|].
  destruct (Z.eqb_spec (unzipCode u) 0) as [Hz|Hz]; cbn [negb valid];
    [|split; [discriminate|intros (_ & H & _); contradiction]].
  cbn zeta. rewrite checkConfig_valid.
  destruct (present (linuxCreds u)) eqn:Hl, (present (macosCreds u)) eqn:Hx;
    cbn [orb negb fst].
  - rewrite checkMacOSCreds_valid, checkLinuxCreds_valid. cbn [andb].
    rewrite !andb_true_iff. split.
    + intros [[H1 H2] H3].
      destruct (configIsFile u) as [[|]|]; try discriminate H3. tauto.
    + intros (_ & _ & -> & _ & H1 & H2). rewrite H1, H2 by reflexivity. tauto.
  - rewrite checkLinuxCreds_valid. cbn [andb]. rewrite andb_true_iff. split.
    + intros [H1 H3].
      destruct (configIsFile u) as [[|]|]; try discriminate H3.
      repeat split; try tauto. discriminate.
    + intros (_ & _ & -> & _ & H1 & _). rewrite H1 by reflexivity. tauto.
  - rewrite checkMacOSCreds_valid. cbn [andb]. rewrite andb_true_iff. split.
    + intros [H1 H3].
      destruct (configIsFile u) as [[|]|]; try discriminate H3.
      repeat split; try tauto. discriminate.
    + intros (_ & _ & -> & _ & _ & H1). rewrite H1 by reflexivity. tauto.
  - cbn [andb]. split; [discriminate|]. intros (_ & _ & _ & [H|H] & _); discriminate H.
Qed.

(** X8: a wrapped record in [.claude/.credentials.json] whose five fields
    are all present, but whose [accessToken] or [refreshToken] is falsy (the
    empty string, say), makes the result invalid without any issue: with the
    native export absent and [.claude.json] in place the result is
    [{ valid: false, issues: [] }]. *)
Theorem verifyDownloadedProfile_invalid_without_issue
  (u : Unpacked num) (fields oauth : list (string * value)) :
  mkdirError u = None ->
  unzipCode u = 0 ->
  configIsFile u = Some true ->
  present (macosCreds u) = false ->
  present (linuxCreds u) = true ->
  parsed (linuxCreds u) = Ok (VObj fields) ->
  lookup "claudeAiOauth" fields = VObj oauth ->
  isNullish (lookup "accessToken" oauth) = false ->
  isNullish (lookup "refreshToken" oauth) = false ->
  isNullish (lookup "expiresAt" oauth) = false ->
  isNullish (lookup "scopes" oauth) = false ->
  isNullish (lookup "subscriptionType" oauth) = false ->
  truthy (lookup "accessToken" oauth) && truthy (lookup "refreshToken" oauth) = false ->
  verify u = mkVerification false [].
Proof.
  intros Hm Hz Hc Hx Hl Hp Hw N1 N2 N3 N4 N5 Hfalsy.
  rewrite (verify_unpacked num numFalsy u Hm Hz). cbn zeta.
  rewrite Hl, Hx, Hc. cbn [orb negb checkConfig fst snd].
  unfold checkLinuxCreds, tryLinuxCreds. rewrite Hp. cbn [resultBind getProp].
  rewrite Hw. cbn [Js.truthy]. unfold checkWrapped. cbn [getProp resultBind].
  unfold missingFields. cbn [filter snd map]. rewrite N1, N2, N3, N4, N5.
  cbn [List.length Z.of_nat Z.ltb Z.compare fst snd].
  apply andb_false_iff in Hfalsy as [-> | ->]; cbn [negb orb]; [reflexivity|].
  now rewrite orb_true_r.
Qed.

End VerifyLaws.

Lemma verifyDownloadedProfile_invalid_without_issue_witness :
  mkdirError Samples.emptyTokenProfile = None /\
  unzipCode Samples.emptyTokenProfile = 0 /\
  verifyDownloadedProfile Z (Z.eqb 0) Samples.emptyTokenProfile = mkVerification false [].
Proof.
  split; [reflexivity|]. split; [reflexivity|].
  exact (verifyDownloadedProfile_invalid_without_issue Z (Z.eqb 0)
           Samples.emptyTokenProfile
           [("claudeAiOauth", VObj Samples.emptyTokenOauth)] Samples.emptyTokenOauth
           eq_refl eq_refl eq_refl eq_refl eq_refl eq_refl eq_refl
           eq_refl eq_refl eq_refl eq_refl eq_refl eq_refl).
Defined.

(** X9: a record that the check of a downloaded profile accepts converts,
    for every target platform, to a wrapped record whose [accessToken] and
    [refreshToken] are truthy. *)
Theorem accepted_record_converts_to_usable
  (num : Type) (numFalsy : num -> bool)
  (credentials : Js.value num) (targetPlatform : string) :
  wrappedUsable num numFalsy credentials || legacyUsable num numFalsy credentials = true ->
  exists fields oauth,
    Credentials.convertCredentialsFormat num numFalsy credentials targetPlatform
    = Ok (VObj fields) /\
    lookup "claudeAiOauth" fields = VObj oauth /\
    wrappedUsable num numFalsy (VObj fields) = true.
Proof.
  intros H.
  destruct (usable_resolves_to_wrapped num numFalsy credentials targetPlatform H)
    as (fields & oauth & Hc & Hw & Ha & Hr).
  exists fields, oauth. repeat split; try assumption.
  unfold wrappedUsable. now rewrite Hw, Ha, Hr.
Qed.

Lemma accepted_record_converts_to_usable_witness :
  wrappedUsable Z (Z.eqb 0) Credentials.legacyWithFalsyFields
  || legacyUsable Z (Z.eqb 0) Credentials.legacyWithFalsyFields = true /\
  exists fields oauth,
    Credentials.convertCredentialsFormat Z (Z.eqb 0) Credentials.legacyWithFalsyFields "darwin"
    = Ok (VObj fields) /\
    lookup "claudeAiOauth" fields = VObj oauth /\
    wrappedUsable Z (Z.eqb 0) (VObj fields) = true.
Proof.
  split; [reflexivity|].
  exact (accepted_record_converts_to_usable Z (Z.eqb 0)
           Credentials.legacyWithFalsyFields "darwin" eq_refl).
Defined.

End VerifierLaws.

(** ** Store: how [saveProfile] ends *)

Module StoreLaws.
Import Str StrFacts PathFilter PathFilterFacts SizeGuard Effects EffectsFacts Store
  StoreFacts StoreSpec.
Local Open Scope Z_scope.

(** *** Computations that return *)

Lemma bind_Ret_inv {A B : Type} (m : M A) (k : A -> M B) (b : B) :
  outcomeOf (Effects.bind m k) = Ret b ->
  exists a, outcomeOf m = Ret a /\ outcomeOf (k a) = Ret b.
Proof.
  destruct m as [t [a|message|code]]; simpl; try discriminate.
  intros H. exists a. split; [reflexivity|]. now destruct (k a).
Qed.

Lemma await_Ret {A : Type} (r : Js.result A) (a : A) :
  outcomeOf (await r) = Ret a -> r = Js.Ok a.
Proof. destruct r; simpl; [intros H; now injection H as ->|discriminate]. Qed.

Lemma when_Ret (b : bool) (m : M unit) (u : unit) :
  outcomeOf (when b m) = Ret u -> b = false \/ outcomeOf m = Ret u.
Proof. destruct b; [now right|now left]. Qed.

Lemma in_trace_bind_left {A B : Type} (m : M A) (k : A -> M B) (e : event) :
  In e (trace m) -> In e (trace (Effects.bind m k)).
Proof.
  destruct m as [t [a|message|code]]; simpl; try tauto.
  intros H. destruct (k a). simpl. apply in_or_app. now left.
Qed.

Lemma in_trace_bind_right {A B : Type} (m : M A) (k : A -> M B) (a : A) (e : event) :
  outcomeOf m = Ret a -> In e (trace (k a)) -> In e (trace (Effects.bind m k)).
Proof.
  intros Hm H. rewrite (bind_ret m k a Hm). simpl. apply in_or_app. now right.
Qed.

(** Splits a sequence that has returned into its steps. *)
Ltac split_steps H :=
  repeat (apply bind_Ret_inv in H; destruct H as (? & ? & H); cbv beta in H).

(** Walks down a sequence whose steps have returned to the step that makes
    the event. *)
Ltac find_event :=
  repeat first
    [ apply in_trace_bind_left; simpl; left; reflexivity
    | eapply in_trace_bind_right; [eassumption|cbv beta] ];
  try (simpl; left; reflexivity).

(** *** Computations that do not throw *)

Lemma neverThrows_ret {A : Type} (a : A) : neverThrows (ret a).
Proof. intros message. discriminate. Qed.

Lemma neverThrows_emit (e : event) : neverThrows (emit e).
Proof. intros message. discriminate. Qed.

Lemma neverThrows_exit {A : Type} (code : Z) : neverThrows (@exit A code).
Proof. intros message. discriminate. Qed.

Lemma neverThrows_bind {A B : Type} (m : M A) (k : A -> M B) :
  neverThrows m -> (forall a, neverThrows (k a)) -> neverThrows (Effects.bind m k).
Proof.
  intros Hm Hk message. destruct m as [t [a|message'|c]]; simpl.
  - specialize (Hk a message). destruct (k a) as [t' o]. exact Hk.
  - intros H. injection H as ->. now apply (Hm message).
  - discriminate.
Qed.

Lemma neverThrows_when (b : bool) (m : M unit) : neverThrows m -> neverThrows (when b m).
Proof. intros H. destruct b; [exact H|apply neverThrows_ret]. Qed.

Lemma neverThrows_tryCatch {A : Type} (body : M A) (handler : string -> M A) :
  (forall message, neverThrows (handler message)) -> neverThrows (tryCatch body handler).
Proof.
  intros Hh message. destruct body as [t [a|message'|c]]; simpl; try discriminate.
  specialize (Hh message' message). destruct (handler message') as [t' o]. exact Hh.
Qed.

Ltac nothrow_steps :=
  repeat first
    [ apply neverThrows_ret | apply neverThrows_emit | apply neverThrows_exit
    | apply neverThrows_when
    | apply neverThrows_bind; [|intros ?]
    | match goal with
      | |- neverThrows (if ?b then _ else _) => destruct b
      | |- neverThrows (match ?x with _ => _ end) => destruct x
      end ].

Lemma saveProfileCatch_never_throws (w : World) (message : string) :
  neverThrows (saveProfileCatch w message).
Proof. unfold saveProfileCatch. nothrow_steps. Qed.

(** The [catch] of [saveProfile] always ends the process with code 1. *)
Lemma saveProfileCatch_exits (w : World) (message : string) :
  outcomeOf (saveProfileCatch w message) = Exited 1.
Proof.
  unfold saveProfileCatch.
  destruct (includes message "Profile too large" || includes message "Rate limit"
            || includes message "HTTP 409"); [reflexivity|].
  destruct (authStatus w) as [status|]; [|reflexivity].
  destruct (hasGistScope status); reflexivity.
Qed.

(** X10: [saveProfile] never throws to its caller: it returns, or it ends
    the process. *)
Theorem saveProfile_never_throws (formatBytes : Z -> string) (w : World) :
  neverThrows (saveProfile formatBytes w).
Proof.
  unfold saveProfile. apply neverThrows_tryCatch. apply saveProfileCatch_never_throws.
Qed.

(** *** A save that returns *)

Lemma tryCatch_Ret_inv {A : Type} (body : M A) (handler : string -> M A) (a : A) :
  (forall message, outcomeOf (handler message) <> Ret a) ->
  outcomeOf (tryCatch body handler) = Ret a ->
  tryCatch body handler = body.
Proof.
  intros Hh. destruct body as [t [b|message|code]]; simpl; try reflexivity.
  specialize (Hh message). destruct (handler message) as [t' o]. simpl in *.
  intros H. contradiction.
Qed.

Lemma rejectTooLarge_no_return (formatBytes : Z -> string) (w : World)
  (sizeCheck : SizeCheck) (u : unit) :
  outcomeOf (rejectTooLarge formatBytes w sizeCheck) <> Ret u.
Proof. unfold rejectTooLarge. now destruct (optSkipProjects (options w)). Qed.

Lemma rejectUpload_no_return (formatBytes : Z -> string) (w : World)
  (gistId stdout : string) (size : Z) (u : unit) :
  outcomeOf (rejectUpload formatBytes w gistId stdout size) <> Ret u.
Proof.
  unfold rejectUpload.
  destruct (includes stdout "422" || includes stdout "contents are too large"
            || includes stdout "too large").
  { now destruct (optSkipProjects (options w)). }
  destruct (includes stdout "rate limit"); [discriminate|].
  destruct (includes stdout "409" || includes stdout "Gist cannot be updated");
    [|discriminate].
  destruct (authStatus w) as [status|]; discriminate.
Qed.

Lemma stageArchive_returns (w : World) (tempDir : string) :
  outcomeOf (stageArchive w) = Ret tempDir ->
  matchesProfileName (profileName w) = true /\
  Verifier.valid (localVerification w) = true /\
  mkdtempResult w = Js.Ok tempDir /\
  In (Mkdtemp tempDir) (trace (stageArchive w)).
Proof.
  intros H. pose proof H as Hall. unfold stageArchive in H. split_steps H.
  simpl in H. injection H as ->.
  split; [|split; [|split]].
  - match goal with
    | Hv : outcomeOf (validateProfileName _) = Ret _ |- _ =>
        unfold validateProfileName in Hv;
        destruct (matchesProfileName (profileName w)); [reflexivity|discriminate Hv]
    end.
  - match goal with
    | Hv : outcomeOf (if negb (Verifier.valid _) then _ else _) = Ret _ |- _ =>
        destruct (Verifier.valid (localVerification w)); [reflexivity|];
        exfalso; cbn [negb] in Hv; split_steps Hv; discriminate Hv
    end.
  - match goal with
    | Hv : outcomeOf (await (mkdtempResult w)) = Ret _ |- _ => now apply await_Ret in Hv
    end.
  - unfold stageArchive. find_event.
Qed.

Section Returns.

Variable formatBytes : Z -> string.

Abbreviation checkSize := (checkArchiveSize formatBytes).

Lemma checkAndUpload_returns (w : World) (tempDir : string) (u : unit) :
  outcomeOf (checkAndUpload formatBytes w tempDir) = Ret u ->
  (exists size, zipSize w = Js.Ok size /\ withinLimit (checkSize size false) = true) /\
  (exists code stdout,
     uploadResult w = Js.Ok (code, stdout) /\ (code = 0 \/ includes stdout "Added" = true)) /\
  In (GistUpload (profileName w ++ ".zip.base64"))
     (trace (checkAndUpload formatBytes w tempDir)) /\
  In (Rm tempDir) (trace (checkAndUpload formatBytes w tempDir)).
Proof.
  intros H. unfold checkAndUpload in H.
  apply bind_Ret_inv in H. destruct H as (size & Hsize & H). cbv beta zeta in H.
  split_steps H.
  split; [|split; [|split]].
  - exists size. split; [now apply await_Ret|].
    match goal with
    | Hv : outcomeOf (when (negb (withinLimit _)) _) = Ret _ |- _ =>
        apply when_Ret in Hv; destruct Hv as [Hv|Hv];
        [now destruct (withinLimit (checkSize size false))
        |now apply rejectTooLarge_no_return in Hv]
    end.
  - match goal with
    | Hu : outcomeOf (await (uploadResult w)) = Ret ?up,
      Hv : outcomeOf (when (negb (fst ?up =? 0) && _) _) = Ret _ |- _ =>
        apply await_Ret in Hu; destruct up as [code stdout];
        exists code, stdout; split; [exact Hu|];
        apply when_Ret in Hv; destruct Hv as [Hv|Hv];
        [|now apply rejectUpload_no_return in Hv];
        cbn [fst snd] in Hv; destruct (Z.eqb_spec code 0) as [->|_]; [now left|right];
        now destruct (includes stdout "Added")
    end.
  - unfold checkAndUpload.
    eapply in_trace_bind_right; [exact Hsize|cbv beta zeta]. find_event.
  - unfold checkAndUpload.
    eapply in_trace_bind_right; [exact Hsize|cbv beta zeta]. find_event.
Qed.

(** X11: when [saveProfile] returns, the profile name was valid, the local
    configuration was verified, the archive was within the limit, the
    upload was accepted (exit code 0, or [Added] in its output), and the
    staging directory that was made has been removed. *)
Theorem saveProfile_returns (w : World) :
  outcomeOf (saveProfile formatBytes w) = Ret tt ->
  matchesProfileName (profileName w) = true /\
  Verifier.valid (localVerification w) = true /\
  (exists size, zipSize w = Js.Ok size /\ withinLimit (checkSize size false) = true) /\
  (exists code stdout,
     uploadResult w = Js.Ok (code, stdout) /\ (code = 0 \/ includes stdout "Added" = true)) /\
  In (GistUpload (profileName w ++ ".zip.base64")) (trace (saveProfile formatBytes w)) /\
  exists tempDir,
    mkdtempResult w = Js.Ok tempDir /\
    In (Mkdtemp tempDir) (trace (saveProfile formatBytes w)) /\
    In (Rm tempDir) (trace (saveProfile formatBytes w)).
Proof.
  intros H. unfold saveProfile in *.
  rewrite (tryCatch_Ret_inv _ _ tt) in *; try exact H;
    try (intros message; rewrite saveProfileCatch_exits; discriminate).
  unfold saveProfileBody in *.
  apply bind_Ret_inv in H. destruct H as (tempDir & Hstage & Hup).
  destruct (stageArchive_returns w tempDir Hstage) as (Hname & Hvalid & Hdir & Hmk).
  destruct (checkAndUpload_returns w tempDir tt Hup) as (Hsize & Hcode & Hupload & Hrm).
  split; [exact Hname|]. split; [exact Hvalid|]. split; [exact Hsize|].
  split; [exact Hcode|]. split.
  - eapply in_trace_bind_right; [exact Hstage|exact Hupload].
  - exists tempDir. split; [exact Hdir|]. split.
    + now apply in_trace_bind_left.
    + eapply in_trace_bind_right; [exact Hstage|exact Hrm].
Qed.

End Returns.

Lemma saveProfile_returns_witness :
  outcomeOf (saveProfile plainBytes (linuxWorld true 1000)) = Ret tt /\
  In (GistUpload "work.zip.base64") (trace (saveProfile plainBytes (linuxWorld true 1000))).
Proof.
  split; [reflexivity|].
  exact (proj1 (proj2 (proj2 (proj2 (proj2
    (saveProfile_returns plainBytes (linuxWorld true 1000) eq_refl)))))).
Defined.

(** *** A profile name that is refused *)

Lemma tryCatch_thrown {A : Type} (message : string) (handler : string -> M A) :
  tryCatch ([], Thrown message) handler = handler message.
Proof. simpl. now destruct (handler message). Qed.

Lemma saveProfileCatch_reports (w : World) (message : string) :
  Forall (fun e => isReport e = true) (trace (saveProfileCatch w message)).
Proof.
  unfold saveProfileCatch.
  destruct (includes message "Profile too large" || includes message "Rate limit"
            || includes message "HTTP 409"); [repeat constructor|].
  destruct (authStatus w) as [status|]; [|repeat constructor].
  destruct (hasGistScope status); repeat constructor.
Qed.

(** X12: [saveProfile] on a name that the pattern of profile names refuses
    does nothing but report: its trace holds log lines and at most the query
    of the authentication status, the first line carries the message of
    [validateProfileName], and the process ends with code 1. No staging
    directory is made and no gist is looked up. *)
Theorem saveProfile_invalid_name (formatBytes : Z -> string) (w : World) :
  matchesProfileName (profileName w) = false ->
  outcomeOf (saveProfile formatBytes w) = Exited 1 /\
  Forall (fun e => isReport e = true) (trace (saveProfile formatBytes w)) /\
  hd_error (trace (saveProfile formatBytes w))
  = Some (LogData "ERROR" "❌ Error saving profile:"
            ("Invalid profile name: " ++ profileName w
             ++ ". Only lowercase letters, numbers, and hyphens are allowed.")).
Proof.
  intros H.
  assert (E : saveProfile formatBytes w
              = saveProfileCatch w
                  ("Invalid profile name: " ++ profileName w
                   ++ ". Only lowercase letters, numbers, and hyphens are allowed.")).
  { unfold saveProfile, saveProfileBody, stageArchive, validateProfileName.
    rewrite H. cbn [Effects.bind throw]. apply tryCatch_thrown. }
  rewrite E. split; [apply saveProfileCatch_exits|]. split; [apply saveProfileCatch_reports|].
  unfold saveProfileCatch. cbn [emit Effects.bind].
  match goal with |- context [Effects.bind ?m ?k] => destruct (Effects.bind m k) end.
  reflexivity.
Qed.

Lemma saveProfile_invalid_name_witness :
  outcomeOf (saveProfile plainBytes
               (mkWorld "My Profile" (options (linuxWorld false 1000)) false "linux"
                  (Verifier.mkVerification true []) (Js.Ok "/tmp/claude-profile-a1b2c3")
                  (fun _ => IsFile) false (Js.Ok tt) (Js.Ok 1000) (Ret "0123456789abcdef")
                  (Js.Ok tt) (Js.Ok tt) (Js.Ok (0, "")) None (Js.Ok tt)))
  = Exited 1.
Proof.
  exact (proj1 (saveProfile_invalid_name plainBytes
    (mkWorld "My Profile" (options (linuxWorld false 1000)) false "linux"
       (Verifier.mkVerification true []) (Js.Ok "/tmp/claude-profile-a1b2c3")
       (fun _ => IsFile) false (Js.Ok tt) (Js.Ok 1000) (Ret "0123456789abcdef")
       (Js.Ok tt) (Js.Ok tt) (Js.Ok (0, "")) None (Js.Ok tt)) eq_refl)).
Defined.

(** *** What the option [skipProjects] keeps out of the archive *)

Lemma avoids_forEach_filter {A : Type} (P : event -> bool) (f : A -> bool)
  (l : list A) (body : A -> M unit) :
  (forall a, f a = true -> avoids P (trace (body a))) ->
  avoids P (trace (forEach (filter f l) body)).
Proof.
  intros H. induction l as [|a rest IH]; simpl; [constructor|].
  destruct (f a) eqn:E; [|exact IH].
  simpl. apply avoids_bind; [now apply H|intros _; exact IH].
Qed.

(** A path that the archive filter keeps is not archived below
    [.claude/projects/]. *)
Lemma kept_path_outside_projects (file : string) :
  archiveFilter file = true ->
  archivesProjects (ArchiveFile (joinPath ".claude" file)) = false.
Proof.
  unfold archiveFilter, inProjectsFolder. intros H.
  change (archivesProjects (ArchiveFile (joinPath ".claude" file)))
    with (startsWith file projectsSlash).
  now destruct (startsWith file projectsSlash).
Qed.

Lemma keptEntries_outside_projects (entries : list (string * bool)) :
  avoids archivesProjects
    (trace (forEach (filter (fun e => archiveFilter (fst e)) entries)
              (fun e => when (snd e) (emit (ArchiveFile (joinPath ".claude" (fst e))))))).
Proof.
  apply avoids_forEach_filter. intros e He. apply avoids_when, avoids_emit.
  now apply kept_path_outside_projects.
Qed.

Ltac quiet_steps :=
  repeat first
    [ apply avoids_ret | apply avoids_throw | apply avoids_exit | apply avoids_await
    | apply avoids_emit; reflexivity
    | apply keptEntries_outside_projects
    | apply avoids_when
    | apply avoids_forEach; intros ?
    | apply avoids_bind; [|intros ?]
    | match goal with
      | |- avoids _ (trace (if ?b then _ else _)) => destruct b
      | |- avoids _ (trace (match ?x with _ => _ end)) => destruct x
      | |- avoids _ (trace (_, _)) => exact (Forall_nil _)
      end ].

Lemma stageArchive_skips_projects (w : World) :
  optSkipProjects (options w) = true ->
  avoids archivesProjects (trace (stageArchive w)).
Proof.
  intros H. unfold stageArchive, validateProfileName, addKeychain.
  do 10 (apply avoids_bind; [quiet_steps|intros ?]).
  apply avoids_bind; [|intros ?; quiet_steps].
  unfold getBackupPaths. rewrite H.
  cbn [map BACKUP_PATHS canSkipProjects source dest addAllToArchive].
  unfold addToArchive. cbn [source dest skipProjects]. quiet_steps.
Qed.

Lemma stageArchiveSilent_skips_projects (w : World) (tempDir : string) :
  optSkipProjects (options w) = true ->
  avoids archivesProjects (trace (stageArchiveSilent w tempDir)).
Proof.
  intros H. unfold stageArchiveSilent.
  apply avoids_bind; [|intros ?; quiet_steps].
  unfold getBackupPaths. rewrite H.
  cbn [map BACKUP_PATHS canSkipProjects source dest forEach].
  unfold addToArchiveSilent. cbn [source dest skipProjects]. quiet_steps.
Qed.

(** X13: with the option [skipProjects], neither [saveProfile] nor
    [saveProfileSilent] puts the projects folder into the archive: the
    directory [.claude] is never added whole, and no file is added under a
    name below [.claude/projects/], whatever the file system holds and
    however the operation ends. *)
Theorem skipProjects_keeps_projects_out (formatBytes : Z -> string) (w : World) :
  optSkipProjects (options w) = true ->
  avoids archivesProjects (trace (saveProfile formatBytes w)) /\
  avoids archivesProjects (trace (saveProfileSilent formatBytes w)).
Proof.
  intros H. split.
  - unfold saveProfile, saveProfileBody.
    apply avoids_tryCatch; [|intros message; unfold saveProfileCatch; quiet_steps].
    apply avoids_bind; [now apply stageArchive_skips_projects|intros tempDir].
    unfold checkAndUpload, rejectTooLarge, rejectUpload. quiet_steps.
  - unfold saveProfileSilent.
    do 2 (apply avoids_bind; [quiet_steps|intros ?]).
    apply avoids_tryFinally; [|quiet_steps].
    unfold saveProfileSilentBody.
    apply avoids_bind; [now apply stageArchiveSilent_skips_projects|intros ?].
    unfold checkAndUploadSilent, rejectUploadSilent. quiet_steps.
Qed.

Lemma skipProjects_keeps_projects_out_witness :
  avoids archivesProjects (trace (saveProfile plainBytes (linuxWorld true 1000))) /\
  In (ArchiveFile ".claude/settings.json")
     (trace (saveProfile plainBytes (linuxWorld true 1000))).
Proof.
  split.
  - exact (proj1 (skipProjects_keeps_projects_out plainBytes (linuxWorld true 1000) eq_refl)).
  - vm_compute. tauto.
Defined.

(** Without the option the directory is archived whole, projects folder
    included. *)
Example without_skipProjects_archives_whole_directory :
  In (ArchiveDirectory ".claude") (trace (saveProfile plainBytes (linuxWorld false 1000))).
Proof. vm_compute. tauto. Qed.

(** *** The staging directory of [saveProfileSilent] *)

Lemma tryFinally_emit {A : Type} (body : M A) (e : event) :
  staysAlive body ->
  tryFinally body (emit e) = (List.app (trace body) [e], outcomeOf body).
Proof.
  intros H. destruct body as [t [a|message|code]]; cbn; try reflexivity.
  now contradiction (H code).
Qed.

(** X14: once its staging directory is made, and unless [findOrCreateGist]
    ends the process, [saveProfileSilent] makes the directory first and
    removes it last, and it returns or throws as the body of its [try]
    does: the [finally] changes neither. *)
Theorem saveProfileSilent_brackets_staging_directory
  (formatBytes : Z -> string) (w : World) (tempDir : string) :
  mkdtempResult w = Js.Ok tempDir ->
  (forall code, gistResult w <> Exited code) ->
  trace (saveProfileSilent formatBytes w)
  = List.app (Mkdtemp tempDir :: trace (saveProfileSilentBody formatBytes w tempDir))
      [Rm tempDir] /\
  outcomeOf (saveProfileSilent formatBytes w)
  = outcomeOf (saveProfileSilentBody formatBytes w tempDir) /\
  staysAlive (saveProfileSilent formatBytes w).
Proof.
  intros Hdir Hgist.
  assert (Halive : staysAlive (saveProfileSilentBody formatBytes w tempDir)).
  { unfold saveProfileSilentBody, stageArchiveSilent, checkAndUploadSilent,
      addToArchiveSilent, rejectUploadSilent.
    apply staysAlive_bind; [alive_steps|intros _].
    apply staysAlive_bind; [alive_steps|intros size].
    do 3 (apply staysAlive_bind; [alive_steps|intros _]).
    apply staysAlive_bind; [exact Hgist|intros gistId].
    alive_steps. }
  rewrite (saveProfileSilent_staged formatBytes w tempDir Hdir).
  rewrite (tryFinally_emit _ _ Halive). cbn [trace outcomeOf fst snd].
  split; [reflexivity|]. split; [reflexivity|].
  intros code. cbn [outcomeOf snd]. apply Halive.
Qed.

Lemma saveProfileSilent_brackets_staging_directory_witness :
  outcomeOf (saveProfileSilent plainBytes (linuxWorld false (31 * 1024 * 1024)))
  = outcomeOf (saveProfileSilentBody plainBytes (linuxWorld false (31 * 1024 * 1024))
                 "/tmp/claude-profile-a1b2c3").
Proof.
  refine (proj1 (proj2 (saveProfileSilent_brackets_staging_directory plainBytes
    (linuxWorld false (31 * 1024 * 1024)) "/tmp/claude-profile-a1b2c3" eq_refl _))).
  intros code. discriminate.
Defined.

(** *** Profile names *)

Lemma isProfileChar_not_sep (c : ascii) : isProfileChar c = true -> isSep c = false.
Proof.
  destruct c as [[] [] [] [] [] [] [] []]; vm_compute; congruence.
Qed.

Lemma isProfileChar_not_dot (c : ascii) :
  isProfileChar c = true -> Ascii.eqb c "."%char = false.
Proof.
  destruct c as [[] [] [] [] [] [] [] []]; vm_compute; congruence.
Qed.

Lemma allProfileChars_split (s : string) :
  allProfileChars s = true -> split s = [s].
Proof.
  induction s as [|c rest IH]; simpl; [reflexivity|].
  intros H. apply andb_true_iff in H. destruct H as [Hc Hrest].
  rewrite (isProfileChar_not_sep c Hc), (IH Hrest). reflexivity.
Qed.

Lemma allProfileChars_no_dot (s : string) :
  allProfileChars s = true -> includes s "." = false.
Proof.
  induction s as [|c rest IH]; [reflexivity|].
  cbn [allProfileChars includes].
  intros H. apply andb_true_iff in H. destruct H as [Hc Hrest].
  rewrite (IH Hrest), orb_false_r. unfold startsWith. cbn [String.prefix].
  pose proof (isProfileChar_not_dot c Hc) as Hd.
  destruct (ascii_dec "." c) as [<-|_]; [discriminate Hd|reflexivity].
Qed.

(** X15: a name that [validateProfileName] accepts is one path segment: it
    is not empty, it holds no [/] and no [\], and it holds no dot, so the
    file names built from it ([<name>.zip], [<name>.zip.base64]) stay in the
    directory they are joined to. *)
Theorem valid_name_is_one_segment (name : string) :
  outcomeOf (validateProfileName name) = Ret tt ->
  name <> "" /\ split name = [name] /\ includes name "." = false /\
  split (name ++ ".zip.base64") = [name ++ ".zip.base64"].
Proof.
  unfold validateProfileName, matchesProfileName.
  destruct (String.eqb_spec name "") as [->|Hne]; [discriminate|].
  destruct (allProfileChars name) eqn:E; [|discriminate].
  intros _. split; [exact Hne|]. split; [now apply allProfileChars_split|].
  split; [now apply allProfileChars_no_dot|].
  clear Hne. induction name as [|c rest IH]; [reflexivity|].
  simpl in E. apply andb_true_iff in E. destruct E as [Hc Hrest].
  simpl. rewrite (isProfileChar_not_sep c Hc), (IH Hrest). reflexivity.
Qed.

Lemma valid_name_is_one_segment_witness :
  split "work-2" = ["work-2"].
Proof.
  exact (proj1 (proj2 (valid_name_is_one_segment "work-2" eq_refl))).
Defined.

End StoreLaws.

(** ** WatchScheduler: timers and bookkeeping *)

Module WatchLaws.
Import Watch WatchFacts WatchSpec.
Local Open Scope Z_scope.

Lemma singleTimer_ext (s s' : WatchState) :
  timers s' = timers s -> pendingSaveTimeout s' = pendingSaveTimeout s ->
  singleTimer s -> singleTimer s'.
Proof. unfold singleTimer. intros -> ->. trivial. Qed.

Lemma clearTimeout_same (id : nat) (kind : timerKind) : clearTimeout id [(id, kind)] = [].
Proof. unfold clearTimeout. simpl. now rewrite Nat.eqb_refl. Qed.

(** [handleFileChange] leaves its own debounce timer armed and no other. *)
Lemma handleFileChange_timers (s : WatchState) :
  singleTimer s -> timers (handleFileChange s) = [(nextTimer s, Debounce)].
Proof.
  intros [H|(id & kind & H & Hp)]; unfold handleFileChange; cbn [timers]; rewrite H.
  - now destruct (pendingSaveTimeout s).
  - rewrite Hp, clearTimeout_same. reflexivity.
Qed.

Lemma singleTimer_handleFileChange (s : WatchState) :
  singleTimer s -> singleTimer (handleFileChange s).
Proof.
  intros H. right. exists (nextTimer s), Debounce.
  split; [now apply handleFileChange_timers|reflexivity].
Qed.

(** The timer that fires is the one armed: none is left. *)
Lemma fired_timer_was_alone (s : WatchState) (id : nat) (kind : timerKind) :
  singleTimer s -> findTimer id (timers s) = Some kind ->
  clearTimeout id (timers s) = [].
Proof.
  intros [H|(id' & kind' & H & _)]; rewrite H; [discriminate|].
  unfold findTimer, clearTimeout. simpl.
  destruct (Nat.eqb id' id); [reflexivity|discriminate].
Qed.

Lemma singleTimer_debounceCallback (s : WatchState) (now : Z) :
  timers s = [] -> singleTimer (debounceCallback s now).
Proof.
  intros H. unfold debounceCallback.
  destruct (negb (changeDetected s)); [now left|].
  destruct (minSaveInterval <=? now - lastSaveTime s); cbn [saveInProgress pendingSave].
  - destruct (saveInProgress s); now left.
  - destruct (pendingSave s); cbn [negb]; [now left|].
    right. exists (nextTimer s), Throttle. cbn. rewrite H. now split.
Qed.

Lemma singleTimer_throttleCallback (s : WatchState) :
  timers s = [] -> singleTimer (throttleCallback s).
Proof.
  intros H. unfold throttleCallback.
  destruct (pendingSave s); [|now left]. destruct (saveInProgress s); now left.
Qed.

Lemma singleTimer_catchBlock (s : WatchState) (i : nat) (o : saveOrigin) (message : string) :
  singleTimer s -> singleTimer (catchBlock s i o message).
Proof.
  unfold catchBlock. destruct (Str.includes message "Profile too large"); [trivial|].
  now destruct o.
Qed.

Lemma singleTimer_step (s s' : WatchState) (l : label) :
  singleTimer s -> step s l = Some s' -> singleTimer s'.
Proof.
  intros H. unfold step. destruct (alive s); cbn [negb]; [|discriminate].
  destruct l as [|id now|i r now|i r| |r|].
  - intros E. injection E as <-. now apply singleTimer_handleFileChange.
  - destruct (findTimer id (timers s)) as [kind|] eqn:Ek; [|discriminate].
    pose proof (fired_timer_was_alone s id kind H Ek) as Hnone. rewrite Hnone.
    destruct kind; intros E; injection E as <-.
    + now apply singleTimer_debounceCallback.
    + now apply singleTimer_throttleCallback.
  - destruct (nth_error (savesInFlight s) i) as [[o [|]]|]; try discriminate.
    destruct r as [u|message]; intros E; injection E as <-.
    + exact H.
    + now apply singleTimer_catchBlock.
  - destruct (nth_error (savesInFlight s) i) as [[o [|]]|]; try discriminate.
    destruct r as [hash|message]; intros E; injection E as <-.
    + exact H.
    + now apply singleTimer_catchBlock.
  - destruct (saveInProgress s); intros E; injection E as <-; exact H.
  - destruct (pollsInFlight s) as [|n]; [discriminate|].
    destruct r as [currentHash|message].
    + destruct (negb (String.eqb currentHash (lastHash s)));
        intros E; injection E as <-; [|exact H].
      now apply singleTimer_handleFileChange.
    + intros E. injection E as <-. exact H.
  - intros E. injection E as <-. exact H.
Qed.

Lemma reachable_singleTimer (hash : string) (s : WatchState) :
  reachable hash s -> singleTimer s.
Proof.
  induction 1 as [|s s' l _ IH Hstep]; [now left|].
  exact (singleTimer_step s s' l IH Hstep).
Qed.

(** X16: in every state the scheduler can reach at most one timer is armed,
    and it is the one [pendingSaveTimeout] refers to; so the [clearTimeout]
    of [handleFileChange] and of the [SIGINT] handler cancels every callback
    that is still to run, and a timer that fires leaves none armed behind
    it. *)
Theorem one_timer_armed (hash : string) (s : WatchState) :
  reachable hash s ->
  singleTimer s /\
  (forall id kind, findTimer id (timers s) = Some kind ->
     pendingSaveTimeout s = Some id /\ clearTimeout id (timers s) = []).
Proof.
  intros Hreach. pose proof (reachable_singleTimer hash s Hreach) as H.
  split; [exact H|]. intros id kind Hk.
  split; [|exact (fired_timer_was_alone s id kind H Hk)].
  destruct H as [H|(id' & kind' & H & Hp)]; rewrite H in Hk; [discriminate|].
  unfold findTimer in Hk. simpl in Hk.
  destruct (Nat.eqb_spec id' id) as [<-|_]; [exact Hp|discriminate].
Qed.

Lemma throttled_reachable : reachable "h0" throttled.
Proof.
  apply (reachable_run "h0" (initial "h0") _
           [FileChange; TimerFires 0 1700000000000;
            SaveSettles 0 (Js.Ok tt) 1700000003000; HashSettles 0 (Js.Ok "h1");
            FileChange; TimerFires 1 1700000005000]).
  - apply reachable_initial.
  - reflexivity.
Defined.

Lemma one_timer_armed_witness :
  reachable "h0" throttled /\ pendingSaveTimeout throttled = Some 2%nat.
Proof.
  split; [exact throttled_reachable|].
  exact (proj1 (proj2 (one_timer_armed "h0" throttled throttled_reachable)
                  2%nat Throttle eq_refl)).
Defined.

Lemma run_app (s : WatchState) (ls ls' : list label) :
  run s (List.app ls ls') = match run s ls with Some s' => run s' ls' | None => None end.
Proof.
  revert s. induction ls as [|l rest IH]; intros s; simpl; [reflexivity|].
  destruct (step s l); [apply IH|reflexivity].
Qed.

(** X17: a burst of file changes is coalesced. After any number [n >= 1] of
    changes in a row, one debounce timer is armed, the one of the last
    change; every earlier timer, a throttle timer included, is cancelled; no
    save has started, and the other variables are as before. *)
Theorem burst_of_changes_arms_one_timer (hash : string) (s : WatchState) (n : nat) :
  reachable hash s -> alive s = true -> (0 < n)%nat ->
  exists s',
    run s (repeat FileChange n) = Some s' /\
    timers s' = [((nextTimer s + n - 1)%nat, Debounce)] /\
    pendingSaveTimeout s' = Some (nextTimer s + n - 1)%nat /\
    changeDetected s' = true /\
    savesInFlight s' = savesInFlight s /\
    saveInProgress s' = saveInProgress s /\
    pendingSave s' = pendingSave s /\
    lastSaveTime s' = lastSaveTime s.
Proof.
  intros Hreach Halive Hn.
  pose proof (reachable_singleTimer hash s Hreach) as Hone. clear Hreach.
  destruct n as [|n]; [lia|]. clear Hn.
  revert s Halive Hone. induction n as [|n IH]; intros s Halive Hone.
  - exists (handleFileChange s). cbn [repeat run]. unfold step. rewrite Halive.
    cbn [negb]. split; [reflexivity|].
    rewrite (handleFileChange_timers s Hone).
    replace (nextTimer s + 1 - 1)%nat with (nextTimer s) by lia.
    now repeat split.
  - destruct (IH (handleFileChange s) Halive (singleTimer_handleFileChange s Hone))
      as (s' & Hrun & Ht & Hp & Hc & Hf & Hi & Hps & Hl).
    exists s'. change (repeat FileChange (S (S n))) with (FileChange :: repeat FileChange (S n)).
    cbn [run]. unfold step at 1. rewrite Halive. cbn [negb].
    split; [exact Hrun|].
    cbn [nextTimer handleFileChange] in Ht, Hp.
    replace (nextTimer s + S (S n) - 1)%nat with (S (nextTimer s) + S n - 1)%nat by lia.
    now repeat split.
Qed.

Lemma burst_of_changes_arms_one_timer_witness :
  exists s', run throttled (repeat FileChange 3) = Some s' /\
             timers s' = [(5%nat, Debounce)].
Proof.
  destruct (burst_of_changes_arms_one_timer "h0" throttled 3 throttled_reachable eq_refl)
    as (s' & Hrun & Ht & _); [lia|].
  exists s'. split; [exact Hrun|exact Ht].
Defined.

(** The debounce callback within [minSaveInterval] of the last save, when
    [pendingSave] is already set: it takes note of the change and arms
    nothing. *)
Lemma debounceCallback_pending (s : WatchState) (now : Z) :
  changeDetected s = true -> now - lastSaveTime s < minSaveInterval ->
  pendingSave s = true ->
  timers (debounceCallback s now) = timers s /\
  savesInFlight (debounceCallback s now) = savesInFlight s /\
  saveInProgress (debounceCallback s now) = saveInProgress s /\
  pendingSave (debounceCallback s now) = true /\
  changeDetected (debounceCallback s now) = false /\
  lastSaveTime (debounceCallback s now) = lastSaveTime s.
Proof.
  intros Hc Ht Hp. unfold debounceCallback. rewrite Hc. cbn [negb].
  apply Z.leb_gt in Ht. rewrite Ht. simpl. rewrite Hp. now repeat split.
Qed.

(** X18: a save that waits for its throttle timer is lost to a later change.
    When a change arrives while [pendingSave] is set, it cancels the armed
    timer; if its own debounce timer then fires within [minSaveInterval] of
    the last save, the callback arms nothing, because [pendingSave] is still
    set: no timer is left, no save has started, and [pendingSave] stays
    set, so the same holds for the next change. *)
Theorem deferred_save_lost_to_later_change (hash : string) (s : WatchState) (now : Z) :
  reachable hash s -> alive s = true ->
  pendingSave s = true ->
  now - lastSaveTime s < minSaveInterval ->
  exists s',
    run s [FileChange; TimerFires (nextTimer s) now] = Some s' /\
    timers s' = [] /\
    savesInFlight s' = savesInFlight s /\
    saveInProgress s' = saveInProgress s /\
    pendingSave s' = true /\
    changeDetected s' = false /\
    lastSaveTime s' = lastSaveTime s.
Proof.
  intros Hreach Halive Hp Ht.
  pose proof (reachable_singleTimer hash s Hreach) as Hone.
  pose proof (handleFileChange_timers s Hone) as Htimers.
  assert (E1 : step s FileChange = Some (handleFileChange s)).
  { unfold step. now rewrite Halive. }
  assert (E2 : step (handleFileChange s) (TimerFires (nextTimer s) now)
               = Some (debounceCallback (setTimers (handleFileChange s) []) now)).
  { unfold step. change (alive (handleFileChange s)) with (alive s).
    rewrite Halive. cbn [negb]. rewrite Htimers.
    unfold findTimer, clearTimeout. cbn [find filter fst snd].
    rewrite Nat.eqb_refl. reflexivity. }
  exists (debounceCallback (setTimers (handleFileChange s) []) now).
  cbn [run]. rewrite E1, E2. split; [reflexivity|].
  destruct (debounceCallback_pending (setTimers (handleFileChange s) []) now eq_refl Ht Hp)
    as (H1 & H2 & H3 & H4 & H5 & H6).
  rewrite H1, H2, H3, H4, H5, H6. now repeat split.
Qed.

Lemma deferred_save_lost_to_later_change_witness :
  exists s', run throttled [FileChange; TimerFires 3 1700000008000] = Some s' /\
             timers s' = [] /\ savesInFlight s' = [].
Proof.
  destruct (deferred_save_lost_to_later_change "h0" throttled 1700000008000
              throttled_reachable eq_refl eq_refl)
    as (s' & Hrun & Ht & Hf & _); [reflexivity|].
  exists s'. split; [exact Hrun|]. split; [exact Ht|exact Hf].
Defined.

End WatchLaws.

(** ** CommandLine *)

Module CliLaws.
Import Js Cli.

(** Replaces the six truthiness tests by their values. *)
Ltac by_options argv :=
  destruct (given (argList argv)) eqn:El, (given (argStore argv)) eqn:Es,
    (given (argRestore argv)) eqn:Er, (given (argDelete argv)) eqn:Ed,
    (given (argVerify argv)) eqn:Ev, (given (argWatch argv)) eqn:Ew.

(** X19: the [check] accepts the options exactly when one main option is
    given, or when [--watch] is given with one of [--store] and [--restore]
    and nothing else; it never returns [false]. *)
Theorem check_accepts_iff (argv : Argv) :
  (check argv = Ok true <->
   List.length (mainOptions argv) = 1%nat \/
   (given (argWatch argv) = true /\
    given (argStore argv) <> given (argRestore argv) /\
    given (argList argv) = false /\ given (argDelete argv) = false /\
    given (argVerify argv) = false)) /\
  check argv <> Ok false.
Proof.
  unfold check, mainOptions. cbn [filter].
  by_options argv; cbn; (split; [split|]); try discriminate; try tauto;
    try (intros [H|(H1 & H2 & H3 & H4 & H5)]; congruence);
    try (intros _; now left);
    try (intros _; right; repeat split; congruence).
Qed.

(** X20: when the [check] has accepted the options, the dispatcher runs
    every main option that is given, and nothing else: as many operations
    as options, the operation of [--store] or [--restore] first and the
    watch last. Each operation gets the value of its own option as the
    profile name, with one exception: next to [--watch], a [--store] or
    [--restore] whose value is a boolean gets the name of [--watch]. Every
    name is truthy. An option whose value is the empty string counts as
    not given; next to [--watch] it leaves the watch alone. *)
Theorem dispatch_runs_every_option (argv : Argv) :
  check argv = Ok true ->
  List.length (dispatch argv) = List.length (mainOptions argv) /\
  (given (argList argv) = true -> dispatch argv = [ListProfiles]) /\
  (given (argStore argv) = true ->
   (given (argWatch argv) = false -> dispatch argv = [SaveProfile (argStore argv)]) /\
   (given (argWatch argv) = true ->
    (forall b, argStore argv = Flag b ->
       dispatch argv = [SaveProfile (argWatch argv); WatchProfile (argWatch argv)]) /\
    (forall name, argStore argv = Text name ->
       dispatch argv = [SaveProfile (Text name); WatchProfile (argWatch argv)]))) /\
  (given (argRestore argv) = true ->
   (given (argWatch argv) = false -> dispatch argv = [RestoreProfile (argRestore argv)]) /\
   (given (argWatch argv) = true ->
    (forall b, argRestore argv = Flag b ->
       dispatch argv = [RestoreProfile (argWatch argv); WatchProfile (argWatch argv)]) /\
    (forall name, argRestore argv = Text name ->
       dispatch argv = [RestoreProfile (Text name); WatchProfile (argWatch argv)]))) /\
  (given (argDelete argv) = true -> dispatch argv = [DeleteProfile (argDelete argv)]) /\
  (given (argVerify argv) = true -> dispatch argv = [VerifyProfile (argVerify argv)]) /\
  (given (argWatch argv) = true ->
   given (argStore argv) = false -> given (argRestore argv) = false ->
   dispatch argv = [WatchProfile (argWatch argv)]) /\
  (forall c name, In c (dispatch argv) -> nameOf c = Some name -> given name = true).
Proof.
  unfold check, dispatch, mainOptions. cbn [filter].
  by_options argv; cbn; try discriminate; intros _;
    (split; [reflexivity|]);
    (split; [intros H; first [discriminate H|reflexivity]|]);
    (split; [intros H;
             first [discriminate H
                   |split; intros H1;
                    first [discriminate H1|reflexivity|
                           split; intros x Hx; rewrite Hx; reflexivity]]|]);
    (split; [intros H;
             first [discriminate H
                   |split; intros H1;
                    first [discriminate H1|reflexivity|
                           split; intros x Hx; rewrite Hx; reflexivity]]|]);
    (split; [intros H; first [discriminate H|reflexivity]|]);
    (split; [intros H; first [discriminate H|reflexivity]|]);
    (split; [intros H H1 H2; first [discriminate H|discriminate H1|discriminate H2
                                    |reflexivity]|]);
    intros c name Hin Hname;
    repeat (destruct Hin as [<-|Hin];
            [cbn in Hname; first [discriminate Hname|injection Hname as <-]|]);
    try contradiction; try assumption;
    unfold unlessBoolean;
    match goal with
    | |- given (match ?v with _ => _ end) = true => destruct v; assumption
    end.
Qed.

Lemma dispatch_runs_every_option_witness :
  check (mkArgv Absent (Text "work") Absent Absent Absent (Text "home")) = Ok true /\
  dispatch (mkArgv Absent (Text "work") Absent Absent Absent (Text "home"))
  = [SaveProfile (Text "work"); WatchProfile (Text "home")].
Proof.
  split; [reflexivity|].
  exact (proj2 (proj2 (proj1 (proj2 (proj2
    (dispatch_runs_every_option
       (mkArgv Absent (Text "work") Absent Absent Absent (Text "home")) eq_refl)))
    eq_refl) eq_refl) "work" eq_refl).
Defined.

(** A [--store] without a value next to [--watch work]: the parser gives
    the string option the empty string, the [check] accepts the options as
    one, and only the watch runs. *)
Example dispatch_store_without_value :
  check (mkArgv Absent (Text "") Absent Absent Absent (Text "work")) = Ok true /\
  dispatch (mkArgv Absent (Text "") Absent Absent Absent (Text "work"))
  = [WatchProfile (Text "work")].
Proof. split; reflexivity. Qed.

(** Without the [check] an option would be dropped: [--list] wins over
    every other option. *)
Example dispatch_unchecked_drops_option :
  check (mkArgv (Flag true) (Text "work") Absent Absent Absent Absent)
  = Throw ("Only --restore/--store can be combined with --watch. "
           ++ "Other options must be used individually.") /\
  dispatch (mkArgv (Flag true) (Text "work") Absent Absent Absent Absent) = [ListProfiles].
Proof. split; reflexivity. Qed.

End CliLaws.

(** ** LocalVerifier *)

Module LocalVerifierLaws.
Import Str Js Verifier VerifierFacts LocalVerifier.
Local Open Scope Z_scope.

Section LocalLaws.

Variable num : Type.
Variable numFalsy : num -> bool.

Abbreviation runCheck := (LocalVerifier.runCheck num numFalsy).
Abbreviation verifyLocal := (verifyLocalFiles num numFalsy).

(** A check keeps [hasAllEssential] unless it is run, essential, and its
    [statSync] throws. *)
Lemma runCheck_valid (k : bool) (st : bool * list string) (check : Check num) :
  fst (runCheck k st check)
  = fst st
    && ((skipIfKeychainExists check && k) || negb (essential check)
        || match stat (file check) with None => false | Some _ => true end).
Proof.
  unfold LocalVerifier.runCheck.
  destruct (skipIfKeychainExists check && k); cbn [orb]; [now rewrite andb_true_r|].
  destruct (stat (file check)) as [[|]|].
  - rewrite orb_true_r, andb_true_r.
    destruct (includes (path (file check)) ".credentials.json"); [|reflexivity].
    destruct (content (file check)) as [credentials|message]; [|reflexivity].
    now destruct (inspectCredentials num numFalsy credentials (snd st)).
  - now rewrite orb_true_r, andb_true_r.
  - destruct (essential check); cbn; now rewrite ?andb_true_r, ?andb_false_r.
Qed.

Lemma inspectCredentials_keeps (credentials : Js.value num) (issues issues' : list string) :
  inspectCredentials num numFalsy credentials issues = Ok issues' -> incl issues issues'.
Proof.
  unfold inspectCredentials.
  destruct (getProp credentials "claudeAiOauth") as [claudeAiOauth|m];
    cbn [resultBind]; [|discriminate].
  destruct (Js.truthy num numFalsy claudeAiOauth).
  - destruct (getProp claudeAiOauth "accessToken"); cbn [resultBind]; [|discriminate].
    destruct (getProp claudeAiOauth "refreshToken"); cbn [resultBind]; [|discriminate].
    match goal with |- context [if ?b then _ else _] => destruct b end;
      intros H; injection H as <-;
      [intros x Hx; apply in_or_app; now left|apply incl_refl].
  - destruct (getProp credentials "access_token"); cbn [resultBind]; [|discriminate].
    destruct (getProp credentials "refresh_token"); cbn [resultBind]; [|discriminate].
    match goal with |- context [if ?b then _ else _] => destruct b end;
      intros H; injection H as <-;
      [intros x Hx; apply in_or_app; now left|apply incl_refl].
Qed.

Lemma runCheck_explained (k : bool) (st : bool * list string) (check : Check num) :
  explained st -> explained (runCheck k st check).
Proof.
  unfold explained, LocalVerifier.runCheck. intros Hst.
  destruct (skipIfKeychainExists check && k); [exact Hst|].
  assert (Hpush : forall issue, fst st = false ->
            exists description,
              In ("Missing required file: " ++ description) (push (snd st) issue)).
  { intros issue H. destruct (Hst H) as [d Hd]. exists d.
    apply in_or_app. now left. }
  destruct (stat (file check)) as [[|]|]; [|exact Hst|].
  - destruct (includes (path (file check)) ".credentials.json"); [|exact Hst].
    destruct (content (file check)) as [credentials|message]; [|apply Hpush].
    destruct (inspectCredentials num numFalsy credentials (snd st)) as [issues|m] eqn:E;
      [|apply Hpush].
    cbn [fst snd]. intros H. destruct (Hst H) as [d Hd]. exists d.
    exact (inspectCredentials_keeps _ _ _ E _ Hd).
  - destruct (essential check); [|exact Hst].
    intros _. exists (description check). cbn [snd]. apply in_or_app. right. now left.
Qed.

(** X21: the local configuration is valid exactly when [~/.claude.json] can
    be read by [statSync] and, off macOS, so can
    [~/.claude/.credentials.json]. What the credentials file holds never
    enters [valid], it only adds issues; and an invalid result always
    carries an issue that names a missing file. *)
Theorem verifyLocalFiles_valid_iff (l : Local num) :
  (valid (verifyLocal l) = true <->
   stat (configFile l) <> None /\
   (LocalVerifier.platform l = "darwin" \/ stat (credentialsFile l) <> None)) /\
  (valid (verifyLocal l) = false ->
   exists description,
     In ("Missing required file: " ++ description) (issues (verifyLocal l))).
Proof.
  split.
  - unfold verifyLocalFiles, checks. cbn [fold_left valid].
    rewrite !runCheck_valid.
    cbn [fst skipIfKeychainExists essential file andb orb negb].
    destruct (String.eqb_spec (LocalVerifier.platform l) "darwin") as [Hd|Hd];
      cbn [negb andb orb];
      destruct (stat (configFile l)) as [c|], (stat (credentialsFile l)) as [d|];
      cbn; rewrite ?orb_true_r, ?andb_true_r; cbn;
      intuition (try discriminate; try congruence).
  - unfold verifyLocalFiles, checks. cbn [fold_left valid issues].
    apply runCheck_explained, runCheck_explained, runCheck_explained.
    intros H. discriminate H.
Qed.

(** X22: on macOS with credentials in the Keychain the credentials file is
    not looked at: whatever is at its path, the result is the same. *)
Theorem keychain_credentials_replace_file (l : Local num) (other : LocalFile num) :
  LocalVerifier.platform l = "darwin" -> keychainCreds l = true ->
  verifyLocal (mkLocal (LocalVerifier.platform l) (keychainCreds l) other
                 (configFile l) (backupFile l))
  = verifyLocal l.
Proof.
  intros Hd Hk. unfold verifyLocalFiles, checks. cbn [LocalVerifier.platform keychainCreds
    credentialsFile configFile backupFile fold_left].
  rewrite Hd, Hk. cbn [String.eqb Ascii.eqb Bool.eqb andb negb].
  unfold LocalVerifier.runCheck at 3 6. cbn [skipIfKeychainExists andb]. reflexivity.
Qed.

End LocalLaws.

Lemma keychain_credentials_replace_file_witness :
  verifyLocalFiles Z (Z.eqb 0)
    (mkLocal "darwin" true (credentialsFile nullCredentialsHome)
       (configFile keychainHome) (backupFile keychainHome))
  = verifyLocalFiles Z (Z.eqb 0) keychainHome.
Proof.
  exact (keychain_credentials_replace_file Z (Z.eqb 0) keychainHome
           (credentialsFile nullCredentialsHome) eq_refl eq_refl).
Defined.

(** A credentials file that holds [null] leaves the result valid, with
    one issue. *)
Example verifyLocalFiles_null_credentials :
  verifyLocalFiles Z (Z.eqb 0) nullCredentialsHome
  = mkVerification true ["Credentials file could not be parsed"].
Proof. reflexivity. Qed.

End LocalVerifierLaws.

(** ** Restorer *)

Module RestoreLaws.
Import Str Js Verifier VerifierFacts Credentials CredentialsFacts Restore.
Local Open Scope Z_scope.

Section RestoreFacts.

Variable num : Type.
Variable numFalsy : num -> bool.
Variable stringify : Js.value num -> string.

Abbreviation value := (Js.value num).
Abbreviation truthy := (Js.truthy num numFalsy).
Abbreviation convert := (convertCredentialsFormat num numFalsy).
Abbreviation usable := (wrappedUsable num numFalsy).
Abbreviation leaves := (leavesUsable num numFalsy stringify).
Abbreviation sound := (Restore.sound num numFalsy stringify).

Lemma sound_nothing (linux : CredFile num) : sound linux ([], false).
Proof. repeat split; [constructor|simpl; lia]. Qed.

Lemma sound_one (linux : CredFile num) (a : action num) :
  leaves linux a -> sound linux ([a], true).
Proof.
  intros H. repeat split; [now repeat constructor|discriminate|simpl; lia].
Qed.

(** A wrapped usable record is returned by the conversion as it is. *)
Lemma convert_usable (credentials : value) (targetPlatform : string) :
  usable credentials = true -> convert credentials targetPlatform = Ok credentials.
Proof.
  unfold wrappedUsable. destruct credentials as [| | | | | |fields]; try discriminate.
  intros H. rewrite convert_object.
  destruct (lookup "claudeAiOauth" fields); try discriminate H. reflexivity.
Qed.

Lemma setKeychainCredentials_sound
  (linux : CredFile num) (security : result unit) (credentials : value) :
  usable credentials = true ->
  sound linux (setKeychainCredentials num numFalsy stringify security credentials) /\
  (forall u, security = Ok u ->
   snd (setKeychainCredentials num numFalsy stringify security credentials) = true).
Proof.
  intros H. unfold setKeychainCredentials.
  rewrite (convert_usable credentials "darwin" H). cbn [resultBind].
  destruct security as [u|message]; cbn [resultBind attempt].
  - split; [|reflexivity]. apply sound_one. cbn [leavesUsable].
    now exists credentials.
  - split; [apply sound_nothing|discriminate].
Qed.

Lemma macosUsable_parsed (macos : CredFile num) :
  macosUsable num numFalsy macos = true ->
  exists credentials, parsed macos = Ok credentials /\ usable credentials = true.
Proof.
  unfold macosUsable. destruct (parsed macos) as [credentials|message]; [|discriminate].
  intros H. now exists credentials.
Qed.

Lemma linuxUsable_parsed (linux : CredFile num) :
  linuxUsable num numFalsy linux = true ->
  exists credentials,
    parsed linux = Ok credentials /\
    usable credentials || legacyUsable num numFalsy credentials = true.
Proof.
  unfold linuxUsable. destruct (parsed linux) as [credentials|message]; [|discriminate].
  intros H. now exists credentials.
Qed.

Lemma resolved_usable (credentials : value) (targetPlatform : string) :
  usable credentials || legacyUsable num numFalsy credentials = true ->
  exists converted,
    convert credentials targetPlatform = Ok converted /\ usable converted = true.
Proof.
  intros H.
  destruct (usable_resolves_to_wrapped num numFalsy credentials targetPlatform H)
    as (fields & oauth & Hc & Hw & Ha & Hr).
  exists (VObj fields). split; [exact Hc|].
  unfold wrappedUsable. now rewrite Hw, Ha, Hr.
Qed.

Section Sources.

Variable h : Host.
Variables linux macos : CredFile num.
Hypothesis linux_usable : present linux = true -> linuxUsable num numFalsy linux = true.
Hypothesis macos_usable : present macos = true -> macosUsable num numFalsy macos = true.
Hypothesis linux_readable : readable num linux.
Hypothesis macos_readable : readable num macos.

Lemma fromMacOSOnDarwin_sound :
  sound linux (fromMacOSOnDarwin num numFalsy stringify h macos) /\
  (present macos = true -> forall u, firstStore h = Ok u ->
   snd (fromMacOSOnDarwin num numFalsy stringify h macos) = true).
Proof.
  unfold fromMacOSOnDarwin. destruct (present macos) eqn:Hp.
  - destruct (macosUsable_parsed macos (macos_usable eq_refl)) as (c & -> & Hc).
    cbn [resultBind attempt].
    destruct (setKeychainCredentials_sound linux (firstStore h) c Hc) as [H1 H2].
    split; [exact H1|intros _; exact H2].
  - destruct (macos_readable Hp) as [message ->]. cbn [resultBind attempt].
    split; [apply sound_nothing|discriminate].
Qed.

Lemma fromLinuxOnDarwin_sound :
  sound linux (fromLinuxOnDarwin num numFalsy stringify h linux) /\
  (present linux = true -> forall u, secondStore h = Ok u ->
   snd (fromLinuxOnDarwin num numFalsy stringify h linux) = true).
Proof.
  unfold fromLinuxOnDarwin. destruct (present linux) eqn:Hp.
  - destruct (linuxUsable_parsed linux (linux_usable eq_refl)) as (c & -> & Hc).
    destruct (resolved_usable c "darwin" Hc) as (c' & E & Hc').
    cbn [resultBind]. rewrite E. cbn [resultBind attempt].
    destruct (setKeychainCredentials_sound linux (secondStore h) c' Hc') as [H1 H2].
    split; [exact H1|intros _; exact H2].
  - destruct (linux_readable Hp) as [message ->]. cbn [resultBind attempt].
    split; [apply sound_nothing|discriminate].
Qed.

Lemma fromLinuxOnLinux_sound :
  sound linux (fromLinuxOnLinux num numFalsy h linux) /\
  (present linux = true -> forall u, firstStore h = Ok u ->
   snd (fromLinuxOnLinux num numFalsy h linux) = true).
Proof.
  unfold fromLinuxOnLinux. destruct (present linux) eqn:Hp;
    [|split; [apply sound_nothing|discriminate]].
  destruct (linuxUsable_parsed linux (linux_usable eq_refl)) as (c & Hparsed & Hc).
  rewrite Hparsed. cbn [resultBind].
  destruct (resolved_usable c "linux" Hc) as (c' & E & Hc').
  apply orb_true_iff in Hc.
  destruct c as [| | | | | |fields]; try (destruct Hc as [Hc|Hc]; discriminate Hc).
  cbn [getProp resultBind]. destruct Hc as [Hc|Hc].
  - assert (Hw : truthy (lookup "claudeAiOauth" fields) = true).
    { unfold wrappedUsable in Hc.
      destruct (lookup "claudeAiOauth" fields); try discriminate Hc. reflexivity. }
    rewrite Hw. cbn [resultBind].
    destruct (firstStore h) as [u|message]; cbn [resultBind attempt].
    + split; [|reflexivity]. apply sound_one. cbn. now exists (VObj fields).
    + split; [apply sound_nothing|discriminate].
  - unfold legacyUsable in Hc.
    apply andb_true_iff in Hc as [Hc _]. apply andb_true_iff in Hc as [Hw Ha].
    apply negb_true_iff in Hw. rewrite Hw. cbn [resultBind]. rewrite Ha, E.
    cbn [resultBind].
    destruct (firstStore h) as [u|message]; cbn [resultBind attempt].
    + split; [|reflexivity]. now apply sound_one.
    + split; [apply sound_nothing|discriminate].
Qed.

Lemma fromMacOSOnLinux_sound :
  sound linux (fromMacOSOnLinux num numFalsy h macos) /\
  (present macos = true -> forall u, secondStore h = Ok u ->
   snd (fromMacOSOnLinux num numFalsy h macos) = true).
Proof.
  unfold fromMacOSOnLinux. destruct (present macos) eqn:Hp.
  - destruct (macosUsable_parsed macos (macos_usable eq_refl)) as (c & -> & Hc).
    cbn [resultBind]. rewrite (convert_usable c "linux" Hc). cbn [resultBind].
    destruct (secondStore h) as [u|message]; cbn [resultBind attempt].
    + split; [|reflexivity]. now apply sound_one.
    + split; [apply sound_nothing|discriminate].
  - destruct (macos_readable Hp) as [message ->]. cbn [resultBind attempt].
    split; [apply sound_nothing|discriminate].
Qed.

(** The first source, then the second when the first has failed. *)
Lemma fallback_sound (first second : list (action num) * bool)
  (presentFirst presentSecond : bool) :
  sound linux first -> sound linux second ->
  (presentFirst = true -> forall u, firstStore h = Ok u -> snd first = true) ->
  (presentSecond = true -> forall u, secondStore h = Ok u -> snd second = true) ->
  let r := if snd first then first
           else (List.app (fst first) (fst second), snd second) in
  sound linux r /\
  (presentFirst = true \/ presentSecond = true ->
   forall u v, firstStore h = Ok u -> secondStore h = Ok v -> snd r = true).
Proof.
  intros H1 H2 P1 P2. cbv zeta. destruct (snd first) eqn:E.
  - split; [exact H1|]. intros _ u v _ _. exact E.
  - destruct H1 as (_ & Hnil & _). rewrite (Hnil E). cbn [List.app fst snd].
    split; [exact H2|]. intros [Hp|Hp] u v Hu Hv.
    + discriminate (P1 Hp u Hu).
    + exact (P2 Hp v Hv).
Qed.

Lemma restoreCredentials_sound :
  sound linux (restoreCredentials num numFalsy stringify h linux macos) /\
  (present linux = true \/ present macos = true ->
   forall u v, firstStore h = Ok u -> secondStore h = Ok v ->
   snd (restoreCredentials num numFalsy stringify h linux macos) = true).
Proof.
  unfold restoreCredentials. destruct (String.eqb (platform h) "darwin"); cbv zeta.
  - destruct fromMacOSOnDarwin_sound as [H1 P1], fromLinuxOnDarwin_sound as [H2 P2].
    destruct (fallback_sound _ _ _ _ H1 H2 P1 P2) as [H P]. split; [exact H|].
    intros [Hp|Hp]; apply P; tauto.
  - destruct fromLinuxOnLinux_sound as [H1 P1], fromMacOSOnLinux_sound as [H2 P2].
    exact (fallback_sound _ _ _ _ H1 H2 P1 P2).
Qed.

End Sources.

(** What a valid verification says of the credential files. *)
Lemma verified_usable (u : Unpacked num) :
  valid (verifyDownloadedProfile num numFalsy u) = true ->
  (present (linuxCreds u) = true \/ present (macosCreds u) = true) /\
  (present (linuxCreds u) = true -> linuxUsable num numFalsy (linuxCreds u) = true) /\
  (present (macosCreds u) = true -> macosUsable num numFalsy (macosCreds u) = true).
Proof.
  unfold verifyDownloadedProfile.
  destruct (mkdirError u) as [message|]; cbn [valid]; [discriminate|].
  destruct (negb (unzipCode u =? 0)); cbn [valid]; [discriminate|].
  cbn zeta. rewrite VerifierFacts.checkConfig_valid. intros H.
  apply andb_true_iff in H as [Hst _].
  destruct (present (linuxCreds u)) eqn:Hl, (present (macosCreds u)) eqn:Hx;
    cbn [orb negb] in Hst.
  - rewrite VerifierFacts.checkMacOSCreds_valid, VerifierFacts.checkLinuxCreds_valid in Hst.
    cbn [fst andb] in Hst. apply andb_true_iff in Hst as [H1 H2].
    split; [now left|]. split; intros _; assumption.
  - rewrite VerifierFacts.checkLinuxCreds_valid in Hst. cbn [fst andb] in Hst.
    split; [now left|]. split; [intros _; exact Hst|discriminate].
  - rewrite VerifierFacts.checkMacOSCreds_valid in Hst. cbn [fst andb] in Hst.
    split; [now right|]. split; [discriminate|intros _; exact Hst].
  - discriminate Hst.
Qed.

(** X23: after a valid verification of the downloaded profile, every
    action of the credentials block of [restoreProfile] hands over a wrapped
    record with truthy [accessToken] and [refreshToken]: on macOS the
    [security] command is built from the [JSON.stringify] text of such a
    record, with a backslash before each double quote and no other
    escaping; elsewhere such a record is written to the file, or the file
    of the archive that is copied parses to one. The command is stated as
    the text given to the shell: what the shell makes of it, and so what
    the Keychain holds afterwards, is not stated. The block makes at most
    one such action, and it makes one ([credentialsRestored]) whenever the
    stores succeed. The two extractions of the archive are taken to hold
    the same files, and a file that [stat] does not find cannot be read. *)
Theorem verified_profile_restores_usable_credentials (h : Host) (u : Unpacked num) :
  valid (verifyDownloadedProfile num numFalsy u) = true ->
  readable num (linuxCreds u) -> readable num (macosCreds u) ->
  Forall (leaves (linuxCreds u))
    (fst (restoreCredentials num numFalsy stringify h (linuxCreds u) (macosCreds u))) /\
  (List.length (fst (restoreCredentials num numFalsy stringify h (linuxCreds u) (macosCreds u)))
   <= 1)%nat /\
  (snd (restoreCredentials num numFalsy stringify h (linuxCreds u) (macosCreds u)) = false ->
   fst (restoreCredentials num numFalsy stringify h (linuxCreds u) (macosCreds u)) = []) /\
  (forall a b, firstStore h = Ok a -> secondStore h = Ok b ->
   snd (restoreCredentials num numFalsy stringify h (linuxCreds u) (macosCreds u)) = true).
Proof.
  intros Hvalid Hl Hm.
  destruct (verified_usable u Hvalid) as (Hsome & Hlu & Hmu).
  destruct (restoreCredentials_sound h (linuxCreds u) (macosCreds u) Hlu Hmu Hl Hm)
    as [(Hall & Hnil & Hlen) Hdone].
  split; [exact Hall|]. split; [exact Hlen|]. split; [exact Hnil|].
  intros a b. now apply Hdone.
Qed.

End RestoreFacts.

Lemma verified_profile_restores_usable_credentials_witness :
  valid (verifyDownloadedProfile Z (Z.eqb 0) linuxProfile) = true /\
  snd (restoreCredentials Z (Z.eqb 0) stringifyZ (mkHost "darwin" (Ok tt) (Ok tt))
         (linuxCreds linuxProfile) (macosCreds linuxProfile)) = true.
Proof.
  split; [reflexivity|].
  refine (proj2 (proj2 (proj2
    (verified_profile_restores_usable_credentials Z (Z.eqb 0) stringifyZ
       (mkHost "darwin" (Ok tt) (Ok tt)) linuxProfile eq_refl _ _))) tt tt eq_refl eq_refl).
  - intros H. discriminate H.
  - intros _. now exists "ENOENT: no such file or directory".
Defined.

(** A profile saved on Linux and restored on macOS: the command holds the
    text of the record as the file has it. *)
Example restore_linux_profile_on_macos :
  restoreCredentials Z (Z.eqb 0) stringifyZ (mkHost "darwin" (Ok tt) (Ok tt))
    (linuxCreds linuxProfile) (macosCreds linuxProfile)
  = (match parsed (linuxCreds linuxProfile) with
     | Ok credentials =>
         [ExecSecurity (securityCommand (escapeQuotes (stringifyZ credentials)))]
     | Throw _ => []
     end, true).
Proof. reflexivity. Qed.

(** Only the double quote is escaped: a dollar sign of a token stands in the
    command as it is, between double quotes, where the shell reads it. *)
Example dollar_sign_reaches_the_shell :
  wrappedUsable Z (Z.eqb 0) dollarRecord = true /\
  escapeQuotes "$HOME-at-1" = "$HOME-at-1" /\
  exists command,
    setKeychainCredentials Z (Z.eqb 0) stringifyZ (Ok tt) dollarRecord
    = ([ExecSecurity command], true) /\
    includes command "$HOME-at-1" = true /\
    includes command (String backslash "$") = false.
Proof.
  split; [reflexivity|]. split; [reflexivity|].
  eexists. split; [reflexivity|]. split; vm_compute; reflexivity.
Qed.

End RestoreLaws.

(** ** ProfileIndex *)

Module ProfileIndexLaws.
Import Str StrFacts Store ProfileIndex.

Lemma endsWith_app (a s : string) : endsWith (a ++ s) s = true.
Proof.
  induction a as [|c a IH]; simpl.
  - destruct s; simpl; [reflexivity|]. now rewrite Ascii.eqb_refl, String.eqb_refl.
  - now rewrite IH, orb_true_r.
Qed.

(** Removing the suffix from the file name of a valid profile gives the
    name back: the name holds no dot, so the first occurrence of the suffix
    is the one that was appended. *)
Lemma removeFirst_profileFile (name : string) :
  allProfileChars name = true ->
  removeFirst (profileFile name) ".zip.base64" = name.
Proof.
  unfold profileFile. induction name as [|c rest IH]; [reflexivity|].
  cbn [allProfileChars]. intros H. apply andb_true_iff in H as [Hc Hrest].
  cbn [append removeFirst]. unfold startsWith at 1. cbn [String.prefix].
  pose proof (StoreLaws.isProfileChar_not_dot c Hc) as Hd.
  destruct (ascii_dec "." c) as [<-|_]; [discriminate Hd|].
  now rewrite (IH Hrest).
Qed.

(** X24: a profile saved under a valid name is listed under that name:
    when the file [<name>.zip.base64] is a line of the gist's file list,
    [listProfiles] prints [name], whatever [trim] has cut. *)
Theorem saved_profile_is_listed (trim : string -> string) (stdout name : string) :
  matchesProfileName name = true ->
  In (profileFile name) (splitLines (trim stdout)) ->
  In name (listedNames trim stdout).
Proof.
  unfold matchesProfileName. intros H Hin. apply andb_true_iff in H as [_ Hchars].
  unfold listedNames, listedFiles.
  apply in_map_iff. exists (profileFile name).
  split; [now apply removeFirst_profileFile|].
  apply filter_In. split; [exact Hin|]. apply endsWith_app.
Qed.

Lemma saved_profile_is_listed_witness :
  In "work" (listedNames (fun s => s) ("README.md" ++ newline ++ "work.zip.base64")).
Proof.
  apply (saved_profile_is_listed (fun s => s)); [reflexivity|].
  vm_compute. tauto.
Defined.

Lemma append_assoc (a b c : string) : (a ++ b) ++ c = a ++ b ++ c.
Proof. induction a as [|x a IH]; simpl; [reflexivity|]. now rewrite IH. Qed.

Lemma includes_unfold (s sub : string) :
  includes s sub
  = startsWith s sub
    || match s with
       | EmptyString => false
       | String _ rest => includes rest sub
       end.
Proof. now destruct s. Qed.

Lemma includes_part (a l b : string) : includes (a ++ l ++ b) l = true.
Proof.
  induction a as [|c a IH].
  - rewrite includes_unfold.
    assert (H : startsWith (l ++ b) l = true) by (apply startsWith_app; now exists b).
    cbn [append]. now rewrite H.
  - rewrite includes_unfold. cbn [append]. now rewrite IH, orb_true_r.
Qed.

Lemma splitLines_nonempty (s : string) : splitLines s <> [].
Proof.
  induction s as [|c rest IH]; simpl; [discriminate|].
  destruct (Ascii.eqb c lineFeed); [discriminate|].
  destruct (splitLines rest); [contradiction|discriminate].
Qed.

Lemma splitLines_head (s p : string) (ps : list string) :
  splitLines s = p :: ps -> exists b, s = p ++ b.
Proof.
  revert p ps. induction s as [|c rest IH]; intros p ps; simpl.
  - intros H. injection H as <- _. now exists "".
  - destruct (Ascii.eqb c lineFeed).
    + intros H. injection H as <- _. now exists (String c rest).
    + destruct (splitLines rest) as [|q qs] eqn:E.
      * now destruct (splitLines_nonempty rest).
      * intros H. injection H as <- _. destruct (IH q qs eq_refl) as [b ->].
        now exists b.
Qed.

(** Every line is a part of the text. *)
Lemma splitLines_part (s line : string) :
  In line (splitLines s) -> exists a b, s = a ++ line ++ b.
Proof.
  revert line. induction s as [|c rest IH]; intros line; simpl.
  - intros [<-|[]]. now exists "", "".
  - destruct (Ascii.eqb c lineFeed).
    + intros [<-|H]; [now exists "", (String c rest)|].
      destruct (IH line H) as (a & b & ->). now exists (String c a), b.
    + destruct (splitLines rest) as [|q qs] eqn:E.
      * now destruct (splitLines_nonempty rest).
      * intros [<-|H].
        -- destruct (splitLines_head rest q qs E) as [b ->]. now exists "", b.
        -- destruct (IH line (or_intror H)) as (a & b & ->). now exists (String c a), b.
Qed.

(** X25: the test of [restoreProfile] and [verifyProfile] is weaker than the
    test of [deleteProfile]: a profile that [deleteProfile] finds as a line
    of the file list is found by the substring test of the other two, for
    every [trim] that returns a part of its argument. *)
Theorem deleteFinds_restoreFinds (trim : string -> string) (stdout name : string) :
  cuts trim ->
  deleteFinds trim stdout name = true -> restoreFinds stdout name = true.
Proof.
  intros Hcut H. unfold deleteFinds in H. apply existsb_exists in H as (f & Hin & Hf).
  apply String.eqb_eq in Hf. subst f. apply filter_In in Hin as [Hin _].
  destruct (splitLines_part _ _ Hin) as (a & b & E).
  destruct (Hcut stdout) as (a0 & b0 & Es).
  unfold restoreFinds. rewrite Es, E.
  rewrite !append_assoc, <- (append_assoc a0 a). apply includes_part.
Qed.

Lemma deleteFinds_restoreFinds_witness :
  restoreFinds ("README.md" ++ newline ++ "work.zip.base64") "work" = true.
Proof.
  apply (deleteFinds_restoreFinds (fun s => s)); [|reflexivity].
  intros s. exists "", "". cbn [append].
  induction s as [|c s IH]; [reflexivity|]. cbn [append]. now rewrite <- IH.
Defined.

(** The converse fails: the substring test finds [work] in the file list of
    a gist that holds [homework] only. *)
Example restoreFinds_without_deleteFinds :
  restoreFinds "homework.zip.base64" "work" = true /\
  deleteFinds (fun s => s) "homework.zip.base64" "work" = false.
Proof. split; reflexivity. Qed.

End ProfileIndexLaws.

(** ** VerifyCommand *)

Module VerifyCommandLaws.
Import Js Verifier VerifyCommand.
Local Open Scope Z_scope.

Section Verdicts.

Variable num : Type.
Variable numFalsy : num -> bool.

(** X26: [verifyProfile] and the verification that [restoreProfile] runs
    disagree in both directions on one archive. A profile that the
    restore accepts is reported as missing essential files unless
    [.claude/.credentials.json] is a file of the archive, so every profile
    saved from the Keychain alone is; and a profile reported as valid and
    ready to restore is refused by the restore when its credentials file
    does not parse. *)
Theorem verifyProfile_disagrees_with_restore (a : Archive num) (macos : CredFile num) :
  (valid (verifyDownloadedProfile num numFalsy (asUnpacked a macos)) = true ->
   (hasEssentialFiles a = true <-> credentials a = Some true)) /\
  (hasEssentialFiles a = true ->
   (exists message, credentialsContent a = Throw message) ->
   valid (verifyDownloadedProfile num numFalsy (asUnpacked a macos)) = false).
Proof.
  rewrite VerifierFacts.hasEssentialFiles_eq. split.
  - intros H.
    assert (Hc : config a = Some true).
    { unfold verifyDownloadedProfile in H. cbn [asUnpacked mkdirError unzipCode] in H.
      cbn [Z.eqb negb] in H. cbn zeta in H.
      rewrite VerifierFacts.checkConfig_valid in H.
      apply andb_true_iff in H as [_ H].
      change (configIsFile (asUnpacked a macos)) with (config a) in H.
      destruct (config a) as [[|]|]; try discriminate H. reflexivity. }
    rewrite Hc. destruct (credentials a) as [[|]|]; split; congruence.
  - intros H [message Hm].
    destruct (credentials a) as [[|]|] eqn:Ec; try discriminate H.
    unfold verifyDownloadedProfile. cbn [asUnpacked mkdirError unzipCode Z.eqb negb].
    cbn zeta. rewrite VerifierFacts.checkConfig_valid.
    assert (Hl : forall st, fst (checkLinuxCreds num numFalsy
                                  (mkCredFile true (credentialsContent a)) st) = false).
    { intros st. rewrite VerifierFacts.checkLinuxCreds_valid.
      unfold linuxUsable. cbn [parsed]. rewrite Hm. apply andb_false_r. }
    unfold asUnpacked. cbn [linuxCreds macosCreds configIsFile]. rewrite Ec.
    cbn [valid present orb negb].
    destruct (present macos).
    + rewrite VerifierFacts.checkMacOSCreds_valid, Hl. reflexivity.
    + rewrite Hl. reflexivity.
Qed.

End Verdicts.

Lemma verifyProfile_disagrees_with_restore_witness :
  valid (verifyDownloadedProfile Z (Z.eqb 0) (asUnpacked macosArchive macosExport)) = true /\
  hasEssentialFiles macosArchive = false.
Proof.
  split; [reflexivity|].
  destruct (hasEssentialFiles macosArchive) eqn:E; [|reflexivity].
  pose proof (proj1 (proj1 (verifyProfile_disagrees_with_restore Z (Z.eqb 0)
                              macosArchive macosExport) eq_refl) E) as H.
  discriminate H.
Defined.

(** C6, as stated, fails on the code at these archives. With both exports
    present and the generic one usable, a native export in the format with
    underscores makes the result invalid, although the conversion of the
    credential bridge turns it into a usable record; the same export alone
    is refused, and so is a generic file that holds the fields of the
    wrapped format without the wrapper. [verifyProfile] reports a profile
    with the native export alone as missing essential files, although the
    restore accepts it, and reports a profile whose generic file cannot be
    parsed as ready to restore. *)
Lemma credential_requirement_fails :
  linuxUsable Z (Z.eqb 0) (linuxCreds Samples.bothExports) = true /\
  valid (verifyDownloadedProfile Z (Z.eqb 0) Samples.bothExports) = false /\
  match Credentials.convertCredentialsFormat Z (Z.eqb 0) Samples.flatRecord "darwin" with
  | Ok converted => wrappedUsable Z (Z.eqb 0) converted
  | Throw _ => false
  end = true /\
  valid (verifyDownloadedProfile Z (Z.eqb 0) Samples.flatNativeOnly) = false /\
  match Credentials.convertCredentialsFormat Z (Z.eqb 0) Samples.camelRecord "linux" with
  | Ok converted => wrappedUsable Z (Z.eqb 0) converted
  | Throw _ => false
  end = true /\
  valid (verifyDownloadedProfile Z (Z.eqb 0) Samples.camelGenericOnly) = false /\
  valid (verifyDownloadedProfile Z (Z.eqb 0) (asUnpacked macosArchive macosExport)) = true /\
  hasEssentialFiles macosArchive = false /\
  hasEssentialFiles Samples.unparseableArchive = true /\
  valid (verifyDownloadedProfile Z (Z.eqb 0)
           (asUnpacked Samples.unparseableArchive Samples.absentFile)) = false.
Proof. repeat split. Qed.

End VerifyCommandLaws.

(** ** Hasher *)

Module HasherLaws.
Import Str PathFilter Hasher.

Lemma filter_Permutation {A : Type} (f : A -> bool) (l l' : list A) :
  Permutation l l' -> Permutation (filter f l) (filter f l').
Proof.
  induction 1 as [|x l l' _ IH|x y l|l l' l'' _ IH1 _ IH2]; simpl.
  - constructor.
  - destruct (f x); [now constructor|exact IH].
  - destruct (f x), (f y); try apply Permutation_refl. apply perm_swap.
  - now transitivity (filter f l').
Qed.

Lemma hashedPaths_Permutation (item : BackupPath) (l l' : list string) :
  Permutation l l' -> Permutation (hashedPaths item l) (hashedPaths item l').
Proof.
  intros H. unfold hashedPaths. destruct (skipProjects item); [|exact H].
  now apply filter_Permutation.
Qed.

Lemma contents_ext (c c' : string -> option string) (files : list string) :
  (forall file, c file = c' file) -> contents c files = contents c' files.
Proof.
  intros H. unfold contents. apply flat_map_ext. intros file. now rewrite H.
Qed.

Section Order.

Variable digest : string -> string.
Variable sort : list string -> list string.
Hypothesis sort_canonical : forall l l', Permutation l l' -> sort l = sort l'.

Lemma updatesOf_reordered (item : BackupPath) (s s' : Source) :
  reordered s s' -> updatesOf sort item s = updatesOf sort item s'.
Proof.
  unfold reordered.
  destruct s as [|[files|m] c|[content|m]|], s' as [|[files'|m'] c'|[content'|m']|];
    try (intros H; now inversion H).
  intros [Hperm Hc]. cbn [updatesOf]. cbv zeta.
  rewrite (sort_canonical _ _ (hashedPaths_Permutation item files files' Hperm)).
  now rewrite (contents_ext c c' _ Hc).
Qed.

(** X27: the hash does not depend on the order in which [readdir] lists a
    directory. Because [sort()] sorts [filteredFiles] in place, the names
    and then the contents enter the hash in sorted order; so two machines
    whose sources differ at most in the order of the listings have the same
    hash, for every sort that gives one result on all orders of a list. *)
Theorem hash_ignores_listing_order (options : Options) (m m' : Machine) :
  (forall path, reordered (sourceAt m path) (sourceAt m' path)) ->
  platform m = platform m' ->
  keychainJson m = keychainJson m' ->
  calculateFilesHash digest sort options m = calculateFilesHash digest sort options m'.
Proof.
  intros Hsrc Hp Hk. unfold calculateFilesHash, updates. rewrite Hp, Hk.
  f_equal. f_equal. f_equal. apply flat_map_ext. intros item.
  apply updatesOf_reordered, Hsrc.
Qed.

End Order.

(** The order of the bytes is transitive. *)
Lemma leb_trans (a b c : string) :
  String.leb a b = true -> String.leb b c = true -> String.leb a c = true.
Proof.
  unfold String.leb. revert b c.
  induction a as [|x a IH]; intros [|y b] [|z c]; simpl; try congruence.
  unfold Ascii.compare.
  destruct (N.compare_spec (N_of_ascii x) (N_of_ascii y)) as [E1|L1|G1];
    try congruence;
    destruct (N.compare_spec (N_of_ascii y) (N_of_ascii z)) as [E2|L2|G2];
    try congruence;
    destruct (N.compare_spec (N_of_ascii x) (N_of_ascii z)) as [E3|L3|G3];
    try congruence; try lia.
  apply IH.
Qed.

Lemma insert_insert (x y : string) (l : list string) :
  insert x (insert y l) = insert y (insert x l).
Proof.
  induction l as [|z l IH]; simpl.
  - destruct (String.leb x y) eqn:Exy, (String.leb y x) eqn:Eyx; try reflexivity.
    + now rewrite (String.leb_antisym x y Exy Eyx).
    + destruct (String.leb_total x y); congruence.
  - destruct (String.leb y z) eqn:Eyz, (String.leb x z) eqn:Exz; simpl;
      rewrite ?Eyz, ?Exz;
      destruct (String.leb x y) eqn:Exy, (String.leb y x) eqn:Eyx;
      try reflexivity;
      try (now rewrite (String.leb_antisym x y Exy Eyx));
      try (destruct (String.leb_total x y); congruence);
      try (rewrite (leb_trans x y z Exy Eyz) in Exz; discriminate Exz);
      try (rewrite (leb_trans y x z Eyx Exz) in Eyz; discriminate Eyz);
      now rewrite IH.
Qed.

Lemma byteSort_canonical (l l' : list string) :
  Permutation l l' -> byteSort l = byteSort l'.
Proof.
  unfold byteSort.
  induction 1 as [|x l l' _ IH|x y l|l l' l'' _ IH1 _ IH2]; simpl.
  - reflexivity.
  - now rewrite IH.
  - apply insert_insert.
  - now rewrite IH1.
Qed.

Lemma hash_ignores_listing_order_witness :
  calculateFilesHash (fun bytes => bytes) byteSort (mkOptions true)
    (homeListed ["settings.json"; "projects/p1/chat.jsonl"; ".credentials.json"])
  = calculateFilesHash (fun bytes => bytes) byteSort (mkOptions true)
      (homeListed [".credentials.json"; "settings.json"; "projects/p1/chat.jsonl"]).
Proof.
  apply (hash_ignores_listing_order (fun bytes => bytes) byteSort byteSort_canonical);
    [|reflexivity|reflexivity].
  intros path. unfold homeListed. cbn [sourceAt].
  destruct (String.eqb path "~/.claude"); [|now destruct (String.eqb path "~/.claude.json")].
  split; [|reflexivity].
  apply Permutation_sym, (Permutation_cons_app [_; _] []). apply Permutation_refl.
Defined.

End HasherLaws.

(** ** DirectoryTree *)

Module TreeLaws.
Import Str Tree.
Local Open Scope Z_scope.

Lemma shownTotal_app (items : list Item) (i : Item) :
  shownTotal (List.app items [i]) = shownTotal items + itemSize i.
Proof.
  induction items as [|j items IH]; simpl; [lia|]. rewrite IH. lia.
Qed.

Lemma forallb_push {A : Type} (f : A -> bool) (l : list A) (a : A) :
  forallb f l = true -> f a = true -> forallb f (List.app l [a]) = true.
Proof.
  intros Hl Ha. rewrite forallb_app. simpl. now rewrite Hl, Ha.
Qed.

(** What the loop keeps true of [(totalSize, items)]. *)
Lemma visits_keep (P : Item -> bool) (skipProjects : bool)
  (recur : option (list Node) -> Z * list Item) (entries : list Node) :
  (forall dir, fst (recur dir) = shownTotal (snd (recur dir))) ->
  (forall name size, skipProjects && namedProjects name = false ->
     P (FileItem name size) = true) ->
  (forall name dir, skipProjects && namedProjects name = false ->
     P (DirItem name (fst (recur dir)) (snd (recur dir))) = true) ->
  forall acc,
    fst acc = shownTotal (snd acc) -> forallb P (snd acc) = true ->
    fst (fold_left (visit skipProjects recur) entries acc)
    = shownTotal (snd (fold_left (visit skipProjects recur) entries acc)) /\
    forallb P (snd (fold_left (visit skipProjects recur) entries acc)) = true.
Proof.
  intros Hrec Hfile Hdir.
  induction entries as [|entry entries IH]; intros acc Hsum Hall; [now split|].
  cbn [fold_left]. apply IH; unfold visit;
    destruct (skipProjects && namedProjects (nodeName entry)) eqn:E; try assumption;
    destruct entry as [name [size|]|name dir|name]; cbn [fst snd nodeName] in *;
    try assumption.
  - rewrite shownTotal_app. cbn [itemSize]. lia.
  - rewrite shownTotal_app. cbn [itemSize]. rewrite Hsum. reflexivity.
  - apply forallb_push; [assumption|now apply Hfile].
  - apply forallb_push; [assumption|now apply Hdir].
Qed.

Lemma getDirectorySize_adds_up (skipProjects : bool) (levels : nat)
  (dir : option (list Node)) :
  fst (getDirectorySize skipProjects levels dir)
  = shownTotal (snd (getDirectorySize skipProjects levels dir)) /\
  forallb addsUp (snd (getDirectorySize skipProjects levels dir)) = true.
Proof.
  revert dir. induction levels as [|below IH]; intros dir; [now split|].
  cbn [getDirectorySize]. destruct dir as [entries|]; [|now split].
  apply (visits_keep addsUp); try reflexivity.
  - intros d. apply IH.
  - intros name d _. cbn [addsUp]. destruct (IH d) as [-> ->].
    now rewrite Z.eqb_refl.
Qed.

(** X28: the tree that [displayDirectoryTree] prints adds up: the total of
    a directory is the sum of the sizes shown for its items, at the root
    and at every directory below it, whatever could not be read and
    wherever the depth limit cut the walk. *)
Theorem tree_sizes_add_up (skipProjects : bool) (levels : nat) (dir : option (list Node))
  (size : Z) (items : list Item) :
  getDirectorySize skipProjects levels dir = (size, items) ->
  size = shownTotal items /\ forallb addsUp items = true.
Proof.
  intros H. pose proof (getDirectorySize_adds_up skipProjects levels dir) as [H1 H2].
  rewrite H in H1, H2. now split.
Qed.

Lemma tree_sizes_add_up_witness :
  shownTotal (snd (getDirectorySize false maxDepth (Some sampleHome))) = 4170.
Proof.
  symmetry.
  exact (proj1 (tree_sizes_add_up false maxDepth (Some sampleHome) 4170 _ eq_refl)).
Defined.

Lemma getDirectorySize_without_projects (levels : nat) (dir : option (list Node)) :
  forallb withoutProjects (snd (getDirectorySize true levels dir)) = true.
Proof.
  revert dir. induction levels as [|below IH]; intros dir; [reflexivity|].
  cbn [getDirectorySize]. destruct dir as [entries|]; [|reflexivity].
  apply (visits_keep withoutProjects true); try reflexivity.
  - intros d. apply getDirectorySize_adds_up.
  - intros name size E. cbn [withoutProjects itemName andb] in *.
    now rewrite E.
  - intros name d E. cbn [withoutProjects itemName andb] in *.
    rewrite E. cbn [negb andb]. apply IH.
Qed.

Lemma getDirectorySize_height (skipProjects : bool) (levels : nat)
  (dir : option (list Node)) :
  forallb (fun i => Nat.leb (height i) levels)
    (snd (getDirectorySize skipProjects levels dir)) = true.
Proof.
  revert dir. induction levels as [|below IH]; intros dir; [reflexivity|].
  cbn [getDirectorySize]. destruct dir as [entries|]; [|reflexivity].
  apply (visits_keep (fun i => Nat.leb (height i) (S below))); try reflexivity.
  - intros d. apply getDirectorySize_adds_up.
  - intros name d _. cbn [height]. apply Nat.leb_le, le_n_S.
    specialize (IH d). induction (snd (getDirectorySize skipProjects below d)) as [|i l IHl];
      [simpl; lia|].
    cbn [forallb] in IH. apply andb_true_iff in IH as [Hi Hl].
    apply Nat.leb_le in Hi. cbn [fold_right]. specialize (IHl Hl). lia.
Qed.

(** X29: what the tree leaves out. With [skipProjects] no item at any depth
    has a name that starts with [projects], a file included; and the tree
    is never more than [levels] deep, so what lies deeper is not counted
    in any total. *)
Theorem tree_leaves_out (skipProjects : bool) (levels : nat) (dir : option (list Node)) :
  (skipProjects = true ->
   forallb withoutProjects (snd (getDirectorySize skipProjects levels dir)) = true) /\
  forallb (fun i => Nat.leb (height i) levels)
    (snd (getDirectorySize skipProjects levels dir)) = true.
Proof.
  split; [intros ->; apply getDirectorySize_without_projects|].
  apply getDirectorySize_height.
Qed.

(** The sample home: with [skipProjects] the notes file is left out with
    the projects folder, and the file four levels down is never counted. *)
Example tree_of_sampleHome :
  fst (getDirectorySize true maxDepth (Some sampleHome)) = 120 /\
  fst (getDirectorySize false maxDepth (Some sampleHome)) = 4170 /\
  PathFilter.archiveFilter "projects-notes.txt" = true.
Proof. repeat split. Qed.

End TreeLaws.

(** ** Encoding *)

Module EncodingLaws.
Import SizeGuard SizeGuardFacts Encoding.
Local Open Scope Z_scope.

(** The factor [1.33] is below [4/3]: from 301 bytes on the estimate is
    below the length of the encoded text. *)
Lemma ceilTimes133_below_base64 (n : Z) : 301 <= n -> ceilTimes133 n < base64Length n.
Proof.
  intros Hn. unfold ceilTimes133, round53, scale133, base64Length.
  destruct (Z.ltb_spec (n * mantissa133) 0) as [Hneg|_];
    [unfold mantissa133 in Hneg; lia|].
  pose proof (SizeGuardLaws.round53pos_close (n * mantissa133)
                ltac:(unfold mantissa133; lia)) as [_ Hhi].
  set (r := round53pos (n * mantissa133)) in *.
  assert (H49 : 0 < 2 ^ 49) by reflexivity.
  pose proof (Z.div_mod (- r) (2 ^ 49) ltac:(lia)) as Hd.
  pose proof (Z.mod_pos_bound (- r) (2 ^ 49) H49) as Hm.
  pose proof (Z.div_mod (n + 2) 3 ltac:(lia)) as Hq.
  pose proof (Z.mod_pos_bound (n + 2) 3 ltac:(lia)) as Hr.
  unfold mantissa133 in *.
  change (2 ^ 52) with 4503599627370496 in *.
  change (2 ^ 49) with 562949953421312 in *.
  lia.
Qed.

(** X30: the size the guard estimates for the upload is below the size of
    the text that is uploaded. From 301 bytes on, [Math.ceil(sizeBytes *
    1.33)] is less than the length of the Base64 text of the archive; so an
    archive of more than 31457280 and at most 31536120 bytes is classified
    as within the limit although its encoded text exceeds
    [GIST_SIZE_LIMIT_API]. *)
Theorem estimate_below_encoded_size (formatBytes : Z -> string) (sizeBytes : Z) :
  301 <= sizeBytes ->
  actualUploadSize (checkArchiveSize formatBytes sizeBytes false) < base64Length sizeBytes /\
  (31457280 < sizeBytes -> sizeBytes <= 31536120 ->
   withinLimit (checkArchiveSize formatBytes sizeBytes false) = true /\
   GIST_SIZE_LIMIT_API < base64Length sizeBytes).
Proof.
  intros Hn. cbn [actualUploadSize withinLimit checkArchiveSize].
  split; [now apply ceilTimes133_below_base64|].
  intros Hlo Hhi. split.
  - assert (A : ceilTimes133 31536120 = 41943040) by (vm_compute; reflexivity).
    pose proof (ceilTimes133_mono sizeBytes 31536120 ltac:(lia) Hhi) as Hm.
    apply Z.leb_le. change GIST_SIZE_LIMIT_API with 41943040. lia.
  - unfold base64Length. change GIST_SIZE_LIMIT_API with 41943040.
    pose proof (Z.div_mod (sizeBytes + 2) 3 ltac:(lia)) as Hq.
    pose proof (Z.mod_pos_bound (sizeBytes + 2) 3 ltac:(lia)) as Hr.
    lia.
Qed.

Lemma estimate_below_encoded_size_witness :
  withinLimit (checkArchiveSize (fun _ => "") 31500000 false) = true /\
  GIST_SIZE_LIMIT_API < base64Length 31500000.
Proof.
  exact (proj2 (estimate_below_encoded_size (fun _ => "") 31500000 ltac:(lia))
           ltac:(lia) ltac:(lia)).
Defined.

End EncodingLaws.
